(** * Token-stream transformations of the CAVAL corpus pipeline

    A shallow embedding of the renumbering, splitting and parsing code of
    the conversion stages (Arak29toConllu stages 03, 07, 18 and
    prioel2conllu stages 00, 12, 40, 42), followed by the properties
    established for them.

    Python strings are modelled as lists of Unicode code points, Python
    integers as [Z], dictionaries that are only looked up as [gmap], and
    dictionaries whose iteration order is observable as association
    lists in insertion order.  A call that raises is modelled by [None],
    and so is a call into a module that the compiler rejects. *)

From Stdlib Require Import ZArith NArith List Bool Lia String Ascii.
From stdpp Require Import gmap.
Import ListNotations.

Local Open Scope N_scope.

(** ** Python strings *)

Module Py.

Abbreviation char := N (only parsing).
Abbreviation str := (list N) (only parsing).

(** ASCII literals of the source text. *)
Definition lit (s : string) : str := List.map N_of_ascii (list_ascii_of_string s).

Definition in_ranges (tbl : list (N * N)) (c : char) : bool :=
  existsb (fun r => (fst r <=? c) && (c <=? snd r)) tbl.

(** Unicode 14.0 character classes as used by CPython 3.11:
    [str.isspace] (also the regex class [\s]). *)
Definition space_ranges : list (N * N) := [
    (9, 13); (28, 32); (133, 133); (160, 160); (5760, 5760); (8192, 8202);
    (8232, 8233); (8239, 8239); (8287, 8287); (12288, 12288) ].

Definition isspace (c : char) : bool := in_ranges space_ranges c.

(** Line boundaries recognised by [str.splitlines]. *)
Definition linebreaks : list N := [10; 11; 12; 13; 28; 29; 30; 133; 8232; 8233].

Definition is_linebreak (c : char) : bool := existsb (N.eqb c) linebreaks.

(** Runs of decimal digits (category Nd); inside a run the digit value
    of [c] is [(c - start) mod 10]. *)
Definition decimal_runs : list (N * N) := [
    (48, 57); (1632, 1641); (1776, 1785); (1984, 1993); (2406, 2415); (2534, 2543);
    (2662, 2671); (2790, 2799); (2918, 2927); (3046, 3055); (3174, 3183); (3302, 3311);
    (3430, 3439); (3558, 3567); (3664, 3673); (3792, 3801); (3872, 3881); (4160, 4169);
    (4240, 4249); (6112, 6121); (6160, 6169); (6470, 6479); (6608, 6617); (6784, 6793);
    (6800, 6809); (6992, 7001); (7088, 7097); (7232, 7241); (7248, 7257); (42528, 42537);
    (43216, 43225); (43264, 43273); (43472, 43481); (43504, 43513); (43600, 43609); (44016, 44025);
    (65296, 65305); (66720, 66729); (68912, 68921); (69734, 69743); (69872, 69881); (69942, 69951);
    (70096, 70105); (70384, 70393); (70736, 70745); (70864, 70873); (71248, 71257); (71360, 71369);
    (71472, 71481); (71904, 71913); (72016, 72025); (72784, 72793); (73040, 73049); (73120, 73129);
    (92768, 92777); (92864, 92873); (93008, 93017); (120782, 120831); (123200, 123209); (123632, 123641);
    (125264, 125273); (130032, 130041) ].

Definition decimal_value (c : char) : option N :=
  match List.find (fun r => (fst r <=? c) && (c <=? snd r)) decimal_runs with
  | Some r => Some ((c - fst r) mod 10)
  | None => None
  end.

(** Characters for which [str.isdigit] holds although [int] rejects them
    (superscripts, circled digits and the like). *)
Definition digit_only_ranges : list (N * N) := [
    (178, 179); (185, 185); (4969, 4977); (6618, 6618); (8304, 8304); (8308, 8313);
    (8320, 8329); (9312, 9320); (9332, 9340); (9352, 9360); (9450, 9450); (9461, 9469);
    (9471, 9471); (10102, 10110); (10112, 10120); (10122, 10130); (68160, 68163); (69216, 69224);
    (69714, 69722); (127232, 127242) ].

Definition isdigit_char (c : char) : bool :=
  match decimal_value c with Some _ => true | None => in_ranges digit_only_ranges c end.

(** The regex class [\w] on [str] patterns: alphanumerics and the underscore. *)
Definition word_ranges : list (N * N) := [
    (48, 57); (65, 90); (95, 95); (97, 122); (170, 170); (178, 179);
    (181, 181); (185, 186); (188, 190); (192, 214); (216, 246); (248, 705);
    (710, 721); (736, 740); (748, 748); (750, 750); (880, 884); (886, 887);
    (890, 893); (895, 895); (902, 902); (904, 906); (908, 908); (910, 929);
    (931, 1013); (1015, 1153); (1162, 1327); (1329, 1366); (1369, 1369); (1376, 1416);
    (1488, 1514); (1519, 1522); (1568, 1610); (1632, 1641); (1646, 1647); (1649, 1747);
    (1749, 1749); (1765, 1766); (1774, 1788); (1791, 1791); (1808, 1808); (1810, 1839);
    (1869, 1957); (1969, 1969); (1984, 2026); (2036, 2037); (2042, 2042); (2048, 2069);
    (2074, 2074); (2084, 2084); (2088, 2088); (2112, 2136); (2144, 2154); (2160, 2183);
    (2185, 2190); (2208, 2249); (2308, 2361); (2365, 2365); (2384, 2384); (2392, 2401);
    (2406, 2415); (2417, 2432); (2437, 2444); (2447, 2448); (2451, 2472); (2474, 2480);
    (2482, 2482); (2486, 2489); (2493, 2493); (2510, 2510); (2524, 2525); (2527, 2529);
    (2534, 2545); (2548, 2553); (2556, 2556); (2565, 2570); (2575, 2576); (2579, 2600);
    (2602, 2608); (2610, 2611); (2613, 2614); (2616, 2617); (2649, 2652); (2654, 2654);
    (2662, 2671); (2674, 2676); (2693, 2701); (2703, 2705); (2707, 2728); (2730, 2736);
    (2738, 2739); (2741, 2745); (2749, 2749); (2768, 2768); (2784, 2785); (2790, 2799);
    (2809, 2809); (2821, 2828); (2831, 2832); (2835, 2856); (2858, 2864); (2866, 2867);
    (2869, 2873); (2877, 2877); (2908, 2909); (2911, 2913); (2918, 2927); (2929, 2935);
    (2947, 2947); (2949, 2954); (2958, 2960); (2962, 2965); (2969, 2970); (2972, 2972);
    (2974, 2975); (2979, 2980); (2984, 2986); (2990, 3001); (3024, 3024); (3046, 3058);
    (3077, 3084); (3086, 3088); (3090, 3112); (3114, 3129); (3133, 3133); (3160, 3162);
    (3165, 3165); (3168, 3169); (3174, 3183); (3192, 3198); (3200, 3200); (3205, 3212);
    (3214, 3216); (3218, 3240); (3242, 3251); (3253, 3257); (3261, 3261); (3293, 3294);
    (3296, 3297); (3302, 3311); (3313, 3314); (3332, 3340); (3342, 3344); (3346, 3386);
    (3389, 3389); (3406, 3406); (3412, 3414); (3416, 3425); (3430, 3448); (3450, 3455);
    (3461, 3478); (3482, 3505); (3507, 3515); (3517, 3517); (3520, 3526); (3558, 3567);
    (3585, 3632); (3634, 3635); (3648, 3654); (3664, 3673); (3713, 3714); (3716, 3716);
    (3718, 3722); (3724, 3747); (3749, 3749); (3751, 3760); (3762, 3763); (3773, 3773);
    (3776, 3780); (3782, 3782); (3792, 3801); (3804, 3807); (3840, 3840); (3872, 3891);
    (3904, 3911); (3913, 3948); (3976, 3980); (4096, 4138); (4159, 4169); (4176, 4181);
    (4186, 4189); (4193, 4193); (4197, 4198); (4206, 4208); (4213, 4225); (4238, 4238);
    (4240, 4249); (4256, 4293); (4295, 4295); (4301, 4301); (4304, 4346); (4348, 4680);
    (4682, 4685); (4688, 4694); (4696, 4696); (4698, 4701); (4704, 4744); (4746, 4749);
    (4752, 4784); (4786, 4789); (4792, 4798); (4800, 4800); (4802, 4805); (4808, 4822);
    (4824, 4880); (4882, 4885); (4888, 4954); (4969, 4988); (4992, 5007); (5024, 5109);
    (5112, 5117); (5121, 5740); (5743, 5759); (5761, 5786); (5792, 5866); (5870, 5880);
    (5888, 5905); (5919, 5937); (5952, 5969); (5984, 5996); (5998, 6000); (6016, 6067);
    (6103, 6103); (6108, 6108); (6112, 6121); (6128, 6137); (6160, 6169); (6176, 6264);
    (6272, 6276); (6279, 6312); (6314, 6314); (6320, 6389); (6400, 6430); (6470, 6509);
    (6512, 6516); (6528, 6571); (6576, 6601); (6608, 6618); (6656, 6678); (6688, 6740);
    (6784, 6793); (6800, 6809); (6823, 6823); (6917, 6963); (6981, 6988); (6992, 7001);
    (7043, 7072); (7086, 7141); (7168, 7203); (7232, 7241); (7245, 7293); (7296, 7304);
    (7312, 7354); (7357, 7359); (7401, 7404); (7406, 7411); (7413, 7414); (7418, 7418);
    (7424, 7615); (7680, 7957); (7960, 7965); (7968, 8005); (8008, 8013); (8016, 8023);
    (8025, 8025); (8027, 8027); (8029, 8029); (8031, 8061); (8064, 8116); (8118, 8124);
    (8126, 8126); (8130, 8132); (8134, 8140); (8144, 8147); (8150, 8155); (8160, 8172);
    (8178, 8180); (8182, 8188); (8304, 8305); (8308, 8313); (8319, 8329); (8336, 8348);
    (8450, 8450); (8455, 8455); (8458, 8467); (8469, 8469); (8473, 8477); (8484, 8484);
    (8486, 8486); (8488, 8488); (8490, 8493); (8495, 8505); (8508, 8511); (8517, 8521);
    (8526, 8526); (8528, 8585); (9312, 9371); (9450, 9471); (10102, 10131); (11264, 11492);
    (11499, 11502); (11506, 11507); (11517, 11517); (11520, 11557); (11559, 11559); (11565, 11565);
    (11568, 11623); (11631, 11631); (11648, 11670); (11680, 11686); (11688, 11694); (11696, 11702);
    (11704, 11710); (11712, 11718); (11720, 11726); (11728, 11734); (11736, 11742); (11823, 11823);
    (12293, 12295); (12321, 12329); (12337, 12341); (12344, 12348); (12353, 12438); (12445, 12447);
    (12449, 12538); (12540, 12543); (12549, 12591); (12593, 12686); (12690, 12693); (12704, 12735);
    (12784, 12799); (12832, 12841); (12872, 12879); (12881, 12895); (12928, 12937); (12977, 12991);
    (13312, 19903); (19968, 42124); (42192, 42237); (42240, 42508); (42512, 42539); (42560, 42606);
    (42623, 42653); (42656, 42735); (42775, 42783); (42786, 42888); (42891, 42954); (42960, 42961);
    (42963, 42963); (42965, 42969); (42994, 43009); (43011, 43013); (43015, 43018); (43020, 43042);
    (43056, 43061); (43072, 43123); (43138, 43187); (43216, 43225); (43250, 43255); (43259, 43259);
    (43261, 43262); (43264, 43301); (43312, 43334); (43360, 43388); (43396, 43442); (43471, 43481);
    (43488, 43492); (43494, 43518); (43520, 43560); (43584, 43586); (43588, 43595); (43600, 43609);
    (43616, 43638); (43642, 43642); (43646, 43695); (43697, 43697); (43701, 43702); (43705, 43709);
    (43712, 43712); (43714, 43714); (43739, 43741); (43744, 43754); (43762, 43764); (43777, 43782);
    (43785, 43790); (43793, 43798); (43808, 43814); (43816, 43822); (43824, 43866); (43868, 43881);
    (43888, 44002); (44016, 44025); (44032, 55203); (55216, 55238); (55243, 55291); (63744, 64109);
    (64112, 64217); (64256, 64262); (64275, 64279); (64285, 64285); (64287, 64296); (64298, 64310);
    (64312, 64316); (64318, 64318); (64320, 64321); (64323, 64324); (64326, 64433); (64467, 64829);
    (64848, 64911); (64914, 64967); (65008, 65019); (65136, 65140); (65142, 65276); (65296, 65305);
    (65313, 65338); (65345, 65370); (65382, 65470); (65474, 65479); (65482, 65487); (65490, 65495);
    (65498, 65500); (65536, 65547); (65549, 65574); (65576, 65594); (65596, 65597); (65599, 65613);
    (65616, 65629); (65664, 65786); (65799, 65843); (65856, 65912); (65930, 65931); (66176, 66204);
    (66208, 66256); (66273, 66299); (66304, 66339); (66349, 66378); (66384, 66421); (66432, 66461);
    (66464, 66499); (66504, 66511); (66513, 66517); (66560, 66717); (66720, 66729); (66736, 66771);
    (66776, 66811); (66816, 66855); (66864, 66915); (66928, 66938); (66940, 66954); (66956, 66962);
    (66964, 66965); (66967, 66977); (66979, 66993); (66995, 67001); (67003, 67004); (67072, 67382);
    (67392, 67413); (67424, 67431); (67456, 67461); (67463, 67504); (67506, 67514); (67584, 67589);
    (67592, 67592); (67594, 67637); (67639, 67640); (67644, 67644); (67647, 67669); (67672, 67702);
    (67705, 67742); (67751, 67759); (67808, 67826); (67828, 67829); (67835, 67867); (67872, 67897);
    (67968, 68023); (68028, 68047); (68050, 68096); (68112, 68115); (68117, 68119); (68121, 68149);
    (68160, 68168); (68192, 68222); (68224, 68255); (68288, 68295); (68297, 68324); (68331, 68335);
    (68352, 68405); (68416, 68437); (68440, 68466); (68472, 68497); (68521, 68527); (68608, 68680);
    (68736, 68786); (68800, 68850); (68858, 68899); (68912, 68921); (69216, 69246); (69248, 69289);
    (69296, 69297); (69376, 69415); (69424, 69445); (69457, 69460); (69488, 69505); (69552, 69579);
    (69600, 69622); (69635, 69687); (69714, 69743); (69745, 69746); (69749, 69749); (69763, 69807);
    (69840, 69864); (69872, 69881); (69891, 69926); (69942, 69951); (69956, 69956); (69959, 69959);
    (69968, 70002); (70006, 70006); (70019, 70066); (70081, 70084); (70096, 70106); (70108, 70108);
    (70113, 70132); (70144, 70161); (70163, 70187); (70272, 70278); (70280, 70280); (70282, 70285);
    (70287, 70301); (70303, 70312); (70320, 70366); (70384, 70393); (70405, 70412); (70415, 70416);
    (70419, 70440); (70442, 70448); (70450, 70451); (70453, 70457); (70461, 70461); (70480, 70480);
    (70493, 70497); (70656, 70708); (70727, 70730); (70736, 70745); (70751, 70753); (70784, 70831);
    (70852, 70853); (70855, 70855); (70864, 70873); (71040, 71086); (71128, 71131); (71168, 71215);
    (71236, 71236); (71248, 71257); (71296, 71338); (71352, 71352); (71360, 71369); (71424, 71450);
    (71472, 71483); (71488, 71494); (71680, 71723); (71840, 71922); (71935, 71942); (71945, 71945);
    (71948, 71955); (71957, 71958); (71960, 71983); (71999, 71999); (72001, 72001); (72016, 72025);
    (72096, 72103); (72106, 72144); (72161, 72161); (72163, 72163); (72192, 72192); (72203, 72242);
    (72250, 72250); (72272, 72272); (72284, 72329); (72349, 72349); (72368, 72440); (72704, 72712);
    (72714, 72750); (72768, 72768); (72784, 72812); (72818, 72847); (72960, 72966); (72968, 72969);
    (72971, 73008); (73030, 73030); (73040, 73049); (73056, 73061); (73063, 73064); (73066, 73097);
    (73112, 73112); (73120, 73129); (73440, 73458); (73648, 73648); (73664, 73684); (73728, 74649);
    (74752, 74862); (74880, 75075); (77712, 77808); (77824, 78894); (82944, 83526); (92160, 92728);
    (92736, 92766); (92768, 92777); (92784, 92862); (92864, 92873); (92880, 92909); (92928, 92975);
    (92992, 92995); (93008, 93017); (93019, 93025); (93027, 93047); (93053, 93071); (93760, 93846);
    (93952, 94026); (94032, 94032); (94099, 94111); (94176, 94177); (94179, 94179); (94208, 100343);
    (100352, 101589); (101632, 101640); (110576, 110579); (110581, 110587); (110589, 110590); (110592, 110882);
    (110928, 110930); (110948, 110951); (110960, 111355); (113664, 113770); (113776, 113788); (113792, 113800);
    (113808, 113817); (119520, 119539); (119648, 119672); (119808, 119892); (119894, 119964); (119966, 119967);
    (119970, 119970); (119973, 119974); (119977, 119980); (119982, 119993); (119995, 119995); (119997, 120003);
    (120005, 120069); (120071, 120074); (120077, 120084); (120086, 120092); (120094, 120121); (120123, 120126);
    (120128, 120132); (120134, 120134); (120138, 120144); (120146, 120485); (120488, 120512); (120514, 120538);
    (120540, 120570); (120572, 120596); (120598, 120628); (120630, 120654); (120656, 120686); (120688, 120712);
    (120714, 120744); (120746, 120770); (120772, 120779); (120782, 120831); (122624, 122654); (123136, 123180);
    (123191, 123197); (123200, 123209); (123214, 123214); (123536, 123565); (123584, 123627); (123632, 123641);
    (124896, 124902); (124904, 124907); (124909, 124910); (124912, 124926); (124928, 125124); (125127, 125135);
    (125184, 125251); (125259, 125259); (125264, 125273); (126065, 126123); (126125, 126127); (126129, 126132);
    (126209, 126253); (126255, 126269); (126464, 126467); (126469, 126495); (126497, 126498); (126500, 126500);
    (126503, 126503); (126505, 126514); (126516, 126519); (126521, 126521); (126523, 126523); (126530, 126530);
    (126535, 126535); (126537, 126537); (126539, 126539); (126541, 126543); (126545, 126546); (126548, 126548);
    (126551, 126551); (126553, 126553); (126555, 126555); (126557, 126557); (126559, 126559); (126561, 126562);
    (126564, 126564); (126567, 126570); (126572, 126578); (126580, 126583); (126585, 126588); (126590, 126590);
    (126592, 126601); (126603, 126619); (126625, 126627); (126629, 126633); (126635, 126651); (127232, 127244);
    (130032, 130041); (131072, 173791); (173824, 177976); (177984, 178205); (178208, 183969); (183984, 191456);
    (194560, 195101); (196608, 201546) ].

Definition isword (c : char) : bool := in_ranges word_ranges c.

(** *** String operations *)

(** [s.startswith(p)] *)
Fixpoint startswith (s p : str) : bool :=
  match p, s with
  | [], _ => true
  | a :: p', b :: s' => (a =? b) && startswith s' p'
  | _ :: _, [] => false
  end.

(** [sub in s] *)
Fixpoint contains (sub s : str) : bool :=
  startswith s sub ||
  match s with
  | [] => false
  | _ :: s' => contains sub s'
  end.

(** [c in s] for a single character *)
Definition has_char (c : char) (s : str) : bool := existsb (N.eqb c) s.

(** [sep.join(parts)] *)
Fixpoint join (sep : str) (parts : list str) : str :=
  match parts with
  | [] => []
  | [p] => p
  | p :: rest => p ++ sep ++ join sep rest
  end.

(** [s.split(sep)] for a non-empty separator: occurrences are taken from
    left to right and do not overlap.  [skip] counts the characters of an
    occurrence that are still to be passed over; [acc] is the current
    piece, reversed. *)
Fixpoint split_go (sep : str) (skip : nat) (acc : str) (s : str) : list str :=
  match s with
  | [] => [rev acc]
  | c :: s' =>
      match skip with
      | S k => split_go sep k acc s'
      | O =>
          if startswith s sep
          then rev acc :: split_go sep (Nat.pred (List.length sep)) [] s'
          else split_go sep 0%nat (c :: acc) s'
      end
  end.

Definition split (sep s : str) : list str := split_go sep 0%nat [] s.

(** [s.split(sep, 1)]: at most one cut, at the first occurrence. *)
Fixpoint split1_go (sep : str) (acc : str) (s : str) : list str :=
  match s with
  | [] => [rev acc]
  | c :: s' =>
      if startswith s sep
      then [rev acc; List.skipn (List.length sep) s]
      else split1_go sep (c :: acc) s'
  end.

Definition split1 (sep s : str) : list str := split1_go sep [] s.

(** [s.replace(old, new)] for a non-empty [old]. *)
Definition replace (old new s : str) : str := join new (split old s).

(** [s.splitlines()]: a carriage return followed by a line feed is one
    boundary; no empty last line is produced after a final boundary. *)
Fixpoint splitlines_go (acc : str) (s : str) : list str :=
  match s with
  | [] => match acc with [] => [] | _ => [rev acc] end
  | c :: s' =>
      if is_linebreak c then
        rev acc ::
        (if c =? 13
         then match s' with
              | c2 :: s'' => if c2 =? 10 then splitlines_go [] s'' else splitlines_go [] s'
              | [] => splitlines_go [] s'
              end
         else splitlines_go [] s')
      else splitlines_go (c :: acc) s'
  end.

Definition splitlines (s : str) : list str := splitlines_go [] s.

Fixpoint lstrip_by (f : char -> bool) (s : str) : str :=
  match s with
  | [] => []
  | c :: s' => if f c then lstrip_by f s' else s
  end.

Definition rstrip_by (f : char -> bool) (s : str) : str := rev (lstrip_by f (rev s)).

(** [s.strip()], [s.rstrip(chars)] *)
Definition strip (s : str) : str := rstrip_by isspace (lstrip_by isspace s).
Definition rstrip_chars (chars s : str) : str := rstrip_by (fun c => has_char c chars) s.

(** Truth value of a string: non-empty. *)
Definition truthy (s : str) : bool := match s with [] => false | _ => true end.

(** [s.isdigit()] *)
Definition isdigit (s : str) : bool := truthy s && forallb isdigit_char s.

(** [int(s)]: surrounding whitespace, an optional sign, decimal digits of
    any script, single underscores between digits. *)
Fixpoint int_body (acc : N) (s : str) : option N :=
  match s with
  | [] => Some acc
  | c :: s' =>
      match decimal_value c with
      | Some d => int_body (10 * acc + d) s'
      | None =>
          if c =? 95 then
            match s' with
            | c2 :: s'' =>
                match decimal_value c2 with
                | Some d => int_body (10 * acc + d) s''
                | None => None
                end
            | [] => None
            end
          else None
      end
  end.

Definition int_unsigned (s : str) : option N :=
  match s with
  | c :: s' => match decimal_value c with Some d => int_body d s' | None => None end
  | [] => None
  end.

Definition int (s : str) : option Z :=
  match strip s with
  | c :: r =>
      if c =? 43 then option_map Z.of_N (int_unsigned r)
      else if c =? 45 then option_map (fun n => Z.opp (Z.of_N n)) (int_unsigned r)
      else option_map Z.of_N (int_unsigned (c :: r))
  | [] => None
  end.

(** [str(n)] for an integer: decimal digits, most significant first. *)
Fixpoint digits_go (fuel : nat) (n : N) (acc : str) : str :=
  match fuel with
  | O => acc
  | S f =>
      let acc' := (48 + n mod 10) :: acc in
      if n <? 10 then acc' else digits_go f (n / 10) acc'
  end.

Definition str_of_N (n : N) : str := digits_go (S (N.to_nat (N.size n))) n [].

Definition str_of_Z (z : Z) : str :=
  match z with
  | Zneg p => 45 :: str_of_N (Npos p)
  | _ => str_of_N (Z.to_N z)
  end.

(** *** String literals

    The prefixes that a string or bytes literal may carry (language
    reference, lexical analysis: stringprefix and bytesprefix).  A name
    followed by a quote that is none of them does not start a literal:
    the text is a syntax error, and the module that holds it is rejected
    as a whole when it is compiled, so that none of its functions can be
    called. *)
Definition string_prefixes : list string :=
  ["r"; "u"; "R"; "U"; "f"; "F"; "fr"; "Fr"; "fR"; "FR"; "rf"; "rF"; "Rf"; "RF";
   "b"; "B"; "br"; "Br"; "bR"; "BR"; "rb"; "rB"; "Rb"; "RB"]%string.

Definition valid_prefix (p : string) : bool :=
  match p with
  | EmptyString => true
  | _ => existsb (String.eqb p) string_prefixes
  end.

Definition prefix_has (lower upper : ascii) (p : string) : bool :=
  existsb (fun a => Ascii.eqb a lower || Ascii.eqb a upper) (list_ascii_of_string p).

(** The literal [p'\1{value}\2'] for the prefix [p]: [None] when it is no
    string (no valid prefix, or bytes).  A raw literal keeps the two
    backslash escapes as written, otherwise they are the characters 1
    and 2; a formatted literal has the value for its field, otherwise
    the field stays as written. *)
Definition group_literal (p : string) (value : str) : option str :=
  if negb (valid_prefix p) || prefix_has "b" "B" p then None
  else
    let esc (n : N) := if prefix_has "r" "R" p then [92; 48 + n] else [n] in
    Some (esc 1 ++ (if prefix_has "f" "F" p then value else lit "{value}") ++ esc 2).

(** A function of a module whose literals carry the prefixes [prefixes]:
    it runs only if the module compiles. *)
Definition loaded {A} (prefixes : list string) (body : option A) : option A :=
  if forallb valid_prefix prefixes then body else None.

End Py.

(** ** Arak29toConllu stage 03: exclamation split and renumbering *)

Module Stage03.
Import Py.

Record Token := mkToken {
  id : str; form : str; lemma : str; upos : str; xpos : str;
  feats : str; head : str; deprel : str; deps : str; misc : str;
  _mwt_span : option Z
}.

#[global] Instance Token_eq_dec : EqDecision Token.
Proof. solve_decision. Defined.

Definition with_id (v : str) (t : Token) : Token :=
  mkToken v (form t) (lemma t) (upos t) (xpos t) (feats t) (head t)
          (deprel t) (deps t) (misc t) (_mwt_span t).

Definition with_form (v : str) (t : Token) : Token :=
  mkToken (id t) v (lemma t) (upos t) (xpos t) (feats t) (head t)
          (deprel t) (deps t) (misc t) (_mwt_span t).

Definition with_head (v : str) (t : Token) : Token :=
  mkToken (id t) (form t) (lemma t) (upos t) (xpos t) (feats t) v
          (deprel t) (deps t) (misc t) (_mwt_span t).

Definition TAB : str := [9].
Definition NL : str := [10].
Definition HASH : str := [35].
Definition HYPHEN : str := [45].
Definition UNDERSCORE : str := [95].

Definition to_line (t : Token) : str :=
  join TAB [id t; form t; lemma t; upos t; xpos t; feats t; head t; deprel t; deps t; misc t].

Definition from_line (line : str) : option Token :=
  match split TAB (rstrip_chars NL line) with
  | c0 :: c1 :: c2 :: c3 :: c4 :: c5 :: c6 :: c7 :: c8 :: c9 :: _ =>
      Some (mkToken c0 c1 c2 c3 c4 c5 c6 c7 c8 c9 None)
  | _ => None
  end.

Record Sentence := mkSentence { meta : list str; tokens : list Token }.

(** [[tk for ln in toks if (tk := from_line(ln))]] *)
Fixpoint parse_lines (toks : list str) : list Token :=
  match toks with
  | [] => []
  | ln :: rest =>
      match from_line ln with
      | Some tk => tk :: parse_lines rest
      | None => parse_lines rest
      end
  end.

Definition read_block (b : str) : Sentence :=
  let lines := List.filter (fun ln => truthy (strip ln)) (splitlines b) in
  let meta := List.filter (fun ln => startswith ln HASH) lines in
  let toks := List.filter (fun ln => negb (startswith ln HASH)) lines in
  mkSentence meta (parse_lines toks).

(** [read_conllu], on the text of the file. *)
Definition read_conllu (raw : str) : list Sentence :=
  List.map read_block
    (List.filter (fun b => truthy (strip b)) (split (NL ++ NL) raw)).

Definition write_sentence (s : Sentence) : str :=
  List.concat (List.map (fun m => m ++ NL) (meta s)) ++
  List.concat (List.map (fun t => to_line t ++ NL) (tokens s)).

(** [write_conllu], as the text written to the file. *)
Fixpoint write_conllu_go (first : bool) (sents : list Sentence) : str :=
  match sents with
  | [] => []
  | s :: rest =>
      (if first then [] else NL) ++ write_sentence s ++ write_conllu_go false rest
  end.

Definition write_conllu (sents : list Sentence) : str := write_conllu_go true sents.

(** The exclamation mark U+055C and the left guillemet U+00AB. *)
Definition EXCL_c : char := 1372.
Definition LEFT_GUIL_c : char := 171.
Definition EXCL : str := [EXCL_c].
Definition LEFT_GUIL : str := [LEFT_GUIL_c].

Definition PUNCT : str := lit "PUNCT".
Definition punct : str := lit "punct".
Definition BASE : str := lit "BASE".
Definition Q : str := lit "Q".
Definition EXCLid : str := lit "EXCL".
Definition MWT : str := lit "MWT".

Definition _make_mwt (form : str) (span : Z) : Token :=
  mkToken MWT form UNDERSCORE UNDERSCORE UNDERSCORE UNDERSCORE UNDERSCORE
          UNDERSCORE UNDERSCORE UNDERSCORE (Some span).

(** [re.sub(EXCL + '+', '', s)]: every run of the mark is removed. *)
Definition drop_excl (s : str) : str := List.filter (fun c => negb (c =? EXCL_c)) s.

Definition q_token : Token :=
  mkToken Q LEFT_GUIL LEFT_GUIL PUNCT UNDERSCORE UNDERSCORE BASE punct UNDERSCORE UNDERSCORE None.

Definition excl_token : Token :=
  mkToken EXCLid EXCL EXCL PUNCT UNDERSCORE UNDERSCORE BASE punct UNDERSCORE UNDERSCORE None.

(** The [while i < len(tokens)] loop of [fix_exclamations]: [i] advances
    by one (case A, default) or by two (case B), which is recursion on
    the remaining tokens. *)
Fixpoint fix_exclamations (tokens : list Token) : list Token * bool :=
  match tokens with
  | [] => ([], false)
  | cur :: rest =>
      let form := form cur in
      if contains EXCL form then
        let has_left_guil := startswith form LEFT_GUIL && (1 <? List.length form)%nat in
        let span := if has_left_guil then 3%Z else 2%Z in
        let base_form := drop_excl (if has_left_guil then List.tl form else form) in
        let base := with_form base_form (with_id BASE cur) in
        let out := fst (fix_exclamations rest) in
        (_make_mwt form span :: base ::
           (if has_left_guil then [q_token] else []) ++ excl_token :: out, true)
      else
        match rest with
        | nxt :: rest' =>
            if startswith (Stage03.form nxt) EXCL then
              let out := fst (fix_exclamations rest') in
              (_make_mwt (form ++ Stage03.form nxt) 2 :: with_id BASE cur :: excl_token :: out, true)
            else
              let r := fix_exclamations rest in (cur :: fst r, snd r)
        | [] => ([cur], false)
        end
  end.

(** First pass of [renumber_preserving_mwts].  The inner [for j in
    range(span)] loop is carried by [pend] (sub-tokens still to rewrite)
    and [sub_id] (the id [start + j] of the next one); [next_id] has
    already been advanced past the span.  [int] may raise. *)
Definition record_old (old_id : str) (new_id : Z) (id_map : gmap Z Z) : option (gmap Z Z) :=
  if isdigit old_id then
    match int old_id with
    | Some o => Some (<[o := new_id]> id_map)
    | None => None
    end
  else Some id_map.

Definition range_id (a b : Z) : str := str_of_Z a ++ HYPHEN ++ str_of_Z b.

(** [a, b = map(int, tk.id.split('-'))] *)
Definition int_pair (s : str) : option (Z * Z) :=
  match split HYPHEN s with
  | [x; y] =>
      match int x, int y with
      | Some a, Some b => Some (a, b)
      | _, _ => None
      end
  | _ => None
  end.

Fixpoint pass1 (tokens : list Token) (next_id : Z) (pend : nat) (sub_id : Z)
    (id_map : gmap Z Z) : option (list Token * gmap Z Z) :=
  match tokens with
  | [] => Some ([], id_map)
  | tk :: rest =>
      match pend with
      | S pend' =>
          match record_old (id tk) sub_id id_map with
          | Some m =>
              match pass1 rest next_id pend' (sub_id + 1) m with
              | Some (out, m') => Some (with_id (str_of_Z sub_id) tk :: out, m')
              | None => None
              end
          | None => None
          end
      | O =>
          match _mwt_span tk with
          | Some span =>
              let start := next_id in
              let stop := (next_id + span - 1)%Z in
              match pass1 rest (next_id + span) (Z.to_nat span) start id_map with
              | Some (out, m') => Some (with_id (range_id start stop) tk :: out, m')
              | None => None
              end
          | None =>
              if contains HYPHEN (id tk) && isdigit (replace HYPHEN [] (id tk)) then
                match int_pair (id tk) with
                | Some (a, b) =>
                    let span := (b - a + 1)%Z in
                    let start := next_id in
                    let stop := (next_id + span - 1)%Z in
                    match pass1 rest (next_id + span) (Z.to_nat span) start id_map with
                    | Some (out, m') => Some (with_id (range_id start stop) tk :: out, m')
                    | None => None
                    end
                | None => None
                end
              else
                match record_old (id tk) next_id id_map with
                | Some m =>
                    match pass1 rest (next_id + 1) 0 0%Z m with
                    | Some (out, m') => Some (with_id (str_of_Z next_id) tk :: out, m')
                    | None => None
                    end
                | None => None
                end
          end
      end
  end.

(** [result.index(tk)]: the first position holding a token equal to [tk]
    (dataclass equality compares all fields). *)
Fixpoint index_of (tk : Token) (l : list Token) : option nat :=
  match l with
  | [] => None
  | x :: l' => if bool_decide (x = tk) then Some 0%nat else option_map S (index_of tk l')
  end.

(** [q = k - 1; while q >= 0 and '-' in result[q].id: q -= 1], started
    with [q + 1 = n]. *)
Fixpoint scan_back (res : list Token) (n : nat) : option nat :=
  match n with
  | O => None
  | S q =>
      match res !! q with
      | Some t => if contains HYPHEN (id t) then scan_back res q else Some q
      | None => None
      end
  end.

Definition is_placeholder (h : str) : bool :=
  bool_decide (h = BASE) || bool_decide (h = EXCLid) || bool_decide (h = Q).

(** One iteration of the second pass, on the [k]-th object of [result];
    the list is the current state of the tokens, mutated in place. *)
Definition fix_head (id_map : gmap Z Z) (res : list Token) (k : nat) : option (list Token) :=
  match res !! k with
  | None => Some res
  | Some tk =>
      if contains HYPHEN (id tk) then Some res
      else
        let h := head tk in
        if isdigit h then
          match int h with
          | None => None
          | Some oh =>
              match id_map !! oh with
              | Some n => Some (<[k := with_head (str_of_Z n) tk]> res)
              | None => Some res
              end
          end
        else if is_placeholder h then
          match index_of tk res with
          | None => None
          | Some k' =>
              match scan_back res k' with
              | Some q =>
                  match res !! q with
                  | Some tq => Some (<[k := with_head (id tq) tk]> res)
                  | None => Some res
                  end
              | None => Some res
              end
          end
        else Some res
  end.

Fixpoint pass2 (id_map : gmap Z Z) (ks : list nat) (res : list Token) : option (list Token) :=
  match ks with
  | [] => Some res
  | k :: ks' =>
      match fix_head id_map res k with
      | Some res' => pass2 id_map ks' res'
      | None => None
      end
  end.

Definition renumber_preserving_mwts (tokens : list Token) : option (list Token) :=
  match pass1 tokens 1 0 0%Z ∅ with
  | Some (result, id_map) => pass2 id_map (seq 0 (List.length result)) result
  | None => None
  end.

Definition process_sentence (sent : Sentence) : option (Sentence * bool) :=
  let '(new_tokens, changed) := fix_exclamations (tokens sent) in
  match renumber_preserving_mwts new_tokens with
  | Some renumbered => Some (mkSentence (meta sent) renumbered, changed)
  | None => None
  end.

(** [next((m.split('=', 1)[1].strip() for m in s.meta if
    m.startswith('# sent_id')), None)]; [None] outside is an [IndexError]. *)
Fixpoint sent_id (meta : list str) : option (option str) :=
  match meta with
  | [] => Some None
  | m :: rest =>
      if startswith m (lit "# sent_id") then
        match split1 (lit "=") m with
        | [_; v] => Some (Some (strip v))
        | _ => None
        end
      else sent_id rest
  end.

Fixpoint process_all (sents : list Sentence) : option (list Sentence * list str) :=
  match sents with
  | [] => Some ([], [])
  | s :: rest =>
      match sent_id (meta s), process_sentence s with
      | Some sid, Some (updated, changed) =>
          match process_all rest with
          | Some (out, modified) =>
              Some (updated :: out,
                    match sid with
                    | Some i => if changed && truthy i then i :: modified else modified
                    | None => modified
                    end)
          | None => None
          end
      | _, _ => None
      end
  end.

(** [process_file]: the text written to [out_path] and the lines printed. *)
Definition process_file (raw : str) : option (str * list str) :=
  match process_all (read_conllu raw) with
  | Some (out_sents, modified) =>
      Some (write_conllu out_sents,
            match modified with
            | [] => [lit "[info] No sentences were modified."]
            | _ => lit "[info] Modified sentences:" ::
                   List.map (fun sid => lit "  - " ++ sid) modified
            end)
  | None => None
  end.

End Stage03.

(** ** Arak29toConllu stage 07: split attached punctuation *)

Module Stage07.
Import Py.

(** A token dictionary always carries the same ten keys. *)
Record Tok := mkTok {
  id : str; form : str; lemma : str; upostag : str; xpostag : str;
  feats : str; head : str; deprel : str; deps : str; misc : str
}.

#[global] Instance Tok_eq_dec : EqDecision Tok.
Proof. solve_decision. Defined.

Definition with_id (v : str) (t : Tok) : Tok :=
  mkTok v (form t) (lemma t) (upostag t) (xpostag t) (feats t) (head t)
        (deprel t) (deps t) (misc t).

Definition with_form (v : str) (t : Tok) : Tok :=
  mkTok (id t) v (lemma t) (upostag t) (xpostag t) (feats t) (head t)
        (deprel t) (deps t) (misc t).

Definition with_head (v : str) (t : Tok) : Tok :=
  mkTok (id t) (form t) (lemma t) (upostag t) (xpostag t) (feats t) v
        (deprel t) (deps t) (misc t).

Definition HYPHEN : str := [45].
Definition UNDERSCORE : str := [95].

(** The marks U+055B, U+055C, U+055E. *)
Definition ARM_PUNCT : list char := [1371; 1372; 1374].

Definition is_arm_punct (c : char) : bool := existsb (N.eqb c) ARM_PUNCT.

(** [old_start, old_end = map(int, tid.split('-'))] *)
Definition int_pair (s : str) : option (Z * Z) :=
  match split HYPHEN s with
  | [x; y] =>
      match int x, int y with
      | Some a, Some b => Some (a, b)
      | _, _ => None
      end
  | _ => None
  end.

Definition range_id (a b : Z) : str := str_of_Z a ++ HYPHEN ++ str_of_Z b.

(** The [while] loop of [renumber_tokens].  After a span line, [pend] is
    the number of sub-tokens the inner loop may still consume, [exp_old]
    the old id it expects next and [sub_new] the id it will give; a
    token that does not match ends the inner loop and is handled by the
    outer one. *)
Fixpoint renumber_loop (tokens : list Tok) (next_id : Z) (pend : nat)
    (exp_old sub_new : Z) (m : gmap Z str) : option (list Tok * gmap Z str) :=
  match tokens with
  | [] => Some ([], m)
  | tk :: rest =>
      let tid := id tk in
      let outer :=
        if contains HYPHEN tid then
          match int_pair tid with
          | Some (old_start, old_end) =>
              let count := (old_end - old_start + 1)%Z in
              let new_start := next_id in
              let new_end := (new_start + count - 1)%Z in
              match renumber_loop rest (new_end + 1) (Z.to_nat count) old_start new_start m with
              | Some (out, m') => Some (with_id (range_id new_start new_end) tk :: out, m')
              | None => None
              end
          | None => None
          end
        else if isdigit tid then
          match int tid with
          | Some old_num =>
              match renumber_loop rest (next_id + 1) 0 0%Z 0%Z (<[old_num := str_of_Z next_id]> m) with
              | Some (out, m') => Some (with_id (str_of_Z next_id) tk :: out, m')
              | None => None
              end
          | None => None
          end
        else renumber_loop rest next_id 0 0%Z 0%Z m
      in
      match pend with
      | O => outer
      | S pend' =>
          if isdigit tid then
            match int tid with
            | Some v =>
                if (v =? exp_old)%Z then
                  match renumber_loop rest next_id pend' (exp_old + 1) (sub_new + 1)
                          (<[exp_old := str_of_Z sub_new]> m) with
                  | Some (out, m') => Some (with_id (str_of_Z sub_new) tk :: out, m')
                  | None => None
                  end
                else outer
            | None => None
            end
          else outer
      end
  end.

(** The head remapping loop over [new_list]. *)
Definition remap_head (m : gmap Z str) (tk : Tok) : option Tok :=
  if contains HYPHEN (id tk) then Some tk
  else if isdigit (head tk) then
    match int (head tk) with
    | Some h =>
        match m !! h with
        | Some mapped => if truthy mapped then Some (with_head mapped tk) else Some tk
        | None => Some tk
        end
    | None => None
    end
  else Some tk.

Fixpoint remap_heads (m : gmap Z str) (l : list Tok) : option (list Tok) :=
  match l with
  | [] => Some []
  | tk :: rest =>
      match remap_head m tk, remap_heads m rest with
      | Some tk', Some rest' => Some (tk' :: rest')
      | _, _ => None
      end
  end.

Definition renumber_tokens (token_dicts : list Tok) : option (list Tok) :=
  match renumber_loop token_dicts 1 0 0%Z 0%Z ∅ with
  | Some (new_list, old_id_map) => remap_heads old_id_map new_list
  | None => None
  end.

Definition PUNCT : str := lit "PUNCT".
Definition punct : str := lit "punct".

Definition only_punct_token (tk : Tok) (p : char) : Tok :=
  mkTok (id tk) [p] [p] PUNCT UNDERSCORE UNDERSCORE (head tk) punct UNDERSCORE UNDERSCORE.

Definition mwt_token (tid form : str) (last : Z) : Tok :=
  mkTok (tid ++ HYPHEN ++ str_of_Z last) form UNDERSCORE UNDERSCORE UNDERSCORE
        UNDERSCORE UNDERSCORE UNDERSCORE UNDERSCORE UNDERSCORE.

Definition punct_token (tk : Tok) (curr_id_int : Z) (offset : nat) (p : char) : Tok :=
  mkTok (str_of_Z (curr_id_int + Z.of_nat offset)) [p] [p] PUNCT UNDERSCORE UNDERSCORE
        (id tk) punct UNDERSCORE UNDERSCORE.

(** [enumerate(puncts, start=offset)] *)
Fixpoint punct_tokens (tk : Tok) (curr_id_int : Z) (offset : nat) (puncts : list char) : list Tok :=
  match puncts with
  | [] => []
  | p :: ps => punct_token tk curr_id_int offset p :: punct_tokens tk curr_id_int (S offset) ps
  end.

(** What one token contributes to [new_tokens], and whether it changes
    the sentence; [None] when [int(tk['id'])] raises. *)
Definition split_one (tk : Tok) : option (list Tok * bool) :=
  let form := form tk in
  if negb (existsb (fun ch => has_char ch form) ARM_PUNCT) then Some ([tk], false)
  else
    let base := List.filter (fun ch => negb (is_arm_punct ch)) form in
    let puncts := List.filter is_arm_punct form in
    if negb (truthy base) then Some (List.map (only_punct_token tk) puncts, true)
    else
      match int (id tk) with
      | Some curr_id_int =>
          Some (mwt_token (id tk) form (curr_id_int + Z.of_nat (List.length puncts))
                  :: with_form base tk
                  :: punct_tokens tk curr_id_int 1 puncts, true)
      | None => None
      end.

Fixpoint split_attached_punct (tokens : list Tok) : option (list Tok * bool) :=
  match tokens with
  | [] => Some ([], false)
  | tk :: rest =>
      match split_one tk with
      | Some (parts, ch) =>
          match split_attached_punct rest with
          | Some (out, ch') => Some (parts ++ out, ch || ch')
          | None => None
          end
      | None => None
      end
  end.

(** *** Token lines and the pass over a file *)

Definition TAB : str := [9].
Definition NL : str := [10].
Definition HASH : str := [35].

Definition parse_token_line (line : str) : option Tok :=
  let cols := split TAB line in
  if (List.length cols <? 10)%nat then None
  else
    match cols with
    | c0 :: c1 :: c2 :: c3 :: c4 :: c5 :: c6 :: c7 :: c8 :: c9 :: _ =>
        Some (mkTok c0 c1 c2 c3 c4 c5 c6 c7 c8 c9)
    | _ => None
    end.

Definition format_token (t : Tok) : str :=
  let cols := [id t; form t; lemma t; upostag t; xpostag t;
               feats t; head t; deprel t; deps t; misc t] in
  let cols :=
    if (List.length cols <? 10)%nat then cols ++ List.repeat UNDERSCORE (10 - List.length cols)
    else if (10 <? List.length cols)%nat then List.firstn 10 cols
    else cols in
  join TAB cols.

(** The search for the sentence id among the comment lines; [None] when
    the first line that starts with [# sent_id] has no equals sign. *)
Fixpoint find_sent_id (metadata : list str) : option str :=
  match metadata with
  | [] => Some []
  | m :: rest =>
      if startswith m (lit "# sent_id") then
        match split1 [61] m with
        | [_; v] => Some (strip v)
        | _ => None
        end
      else find_sent_id rest
  end.

Definition read_block (block : str) : option (str * list str * list str) :=
  let lines := split NL block in
  let metadata := List.filter (fun l => startswith l HASH) lines in
  let token_lines := List.filter (fun l => truthy l && negb (startswith l HASH)) lines in
  option_map (fun sid => (sid, metadata, token_lines)) (find_sent_id metadata).

Fixpoint read_blocks (blocks : list str) : option (list (str * list str * list str)) :=
  match blocks with
  | [] => Some []
  | b :: rest =>
      match read_block b, read_blocks rest with
      | Some x, Some xs => Some (x :: xs)
      | _, _ => None
      end
  end.

(** [read_conllu_file] on the text of the file. *)
Definition read_conllu_file (content : str) : option (list (str * list str * list str)) :=
  let raw := strip content in
  if negb (truthy raw) then Some [] else read_blocks (split (NL ++ NL) raw).

(** One sentence of [process_punctuation_fixing]: the text written for
    it and whether its id goes to the list of modified sentences. *)
Definition process_one (sent : str * list str * list str) : option (str * list str) :=
  let '(sent_id, metadata, token_lines) := sent in
  let tokens := List.concat (List.map (fun ln => match parse_token_line ln with
                                                 | Some t => [t]
                                                 | None => []
                                                 end) token_lines) in
  match split_attached_punct tokens with
  | None => None
  | Some (split_tokens, changed) =>
      match renumber_tokens split_tokens with
      | None => None
      | Some final_tokens =>
          Some (List.concat (List.map (fun m => m ++ NL) metadata)
                  ++ List.concat (List.map (fun t => format_token t ++ NL) final_tokens)
                  ++ NL,
                if changed && truthy sent_id then [sent_id] else [])
      end
  end.

Fixpoint process_sentences (sents : list (str * list str * list str)) : option (str * list str) :=
  match sents with
  | [] => Some ([], [])
  | s :: rest =>
      match process_one s with
      | None => None
      | Some (text, ids) =>
          match process_sentences rest with
          | None => None
          | Some (text', ids') => Some (text ++ text', ids ++ ids')
          end
      end
  end.

(** [process_punctuation_fixing]: the text written and the ids listed,
    for the text read. *)
Definition process_punctuation_fixing (content : str) : option (str * list str) :=
  match read_conllu_file content with
  | None => None
  | Some sentences => process_sentences sentences
  end.

End Stage07.

(** ** Arak29toConllu stage 18: the sentence parser *)

Module Stage18.
Import Py.

Record Tok := mkTok {
  token_id : str; form : str; lemma : str; upostag : str; xpostag : str;
  feats : str; head : str; deprel : str; deps : str; misc : str
}.

Definition REQUIRED_COLS : nat := 10.

(** The body of the loop of [parse_conllu_sentence] for one line. *)
Definition parse_line (line : str) : option Tok :=
  if negb (truthy line) || startswith line [35] then None
  else
    let cols := split [9] line in
    if (List.length cols <? REQUIRED_COLS)%nat then None
    else
      match cols with
      | c0 :: c1 :: c2 :: c3 :: c4 :: c5 :: c6 :: c7 :: c8 :: c9 :: _ =>
          Some (mkTok c0 c1 c2 c3 c4 c5 c6 c7 c8 c9)
      | _ => None
      end.

Fixpoint parse_lines (lines : list str) : list Tok :=
  match lines with
  | [] => []
  | ln :: rest =>
      match parse_line ln with
      | Some t => t :: parse_lines rest
      | None => parse_lines rest
      end
  end.

Definition parse_conllu_sentence (block : str) : list Tok :=
  parse_lines (split [10] (strip block)).

(** *** Writing a sentence *)

Definition UNDERSCORE : str := [95].

(** [x or '_'] *)
Definition or_underscore (x : str) : str := if truthy x then x else UNDERSCORE.

Definition format_row (t : Tok) : str :=
  join [9] [or_underscore (token_id t); or_underscore (form t); or_underscore (lemma t);
            or_underscore (upostag t); or_underscore (xpostag t); or_underscore (feats t);
            or_underscore (head t); or_underscore (deprel t); or_underscore (deps t);
            or_underscore (misc t)].

Definition format_conllu_sentence (tokens : list Tok) : str :=
  join [10] (List.map format_row tokens).

(** *** Features *)

(** The order of [str]: by code points, a proper prefix first. *)
Fixpoint str_leb (a b : str) : bool :=
  match a, b with
  | [], _ => true
  | _ :: _, [] => false
  | x :: a', y :: b' => if x <? y then true else if y <? x then false else str_leb a' b'
  end.

Fixpoint insert_sorted (x : str) (l : list str) : list str :=
  match l with
  | [] => [x]
  | y :: l' => if str_leb x y then x :: l else y :: insert_sorted x l'
  end.

(** [sorted(l)] on strings. *)
Definition sorted (l : list str) : list str := fold_right insert_sorted [] l.

(** [set(l)], as the list of the distinct elements. *)
Fixpoint set_of (l : list str) : list str :=
  match l with
  | [] => []
  | x :: l' => if bool_decide (x ∈ l') then set_of l' else x :: set_of l'
  end.

(** A [dict] from keys to lists of values, in insertion order. *)
Definition feats_t := list (str * list str).

Fixpoint feats_get (k : str) (d : feats_t) : option (list str) :=
  match d with
  | [] => None
  | (k', vs) :: d' => if bool_decide (k' = k) then Some vs else feats_get k d'
  end.

(** [d.setdefault(k, []).append(v)] *)
Fixpoint feats_append (k v : str) (d : feats_t) : feats_t :=
  match d with
  | [] => [(k, [v])]
  | (k', vs) :: d' =>
      if bool_decide (k' = k) then (k', vs ++ [v]) :: d' else (k', vs) :: feats_append k v d'
  end.

Definition add_item (d : feats_t) (item : str) : feats_t :=
  if negb (truthy item) || bool_decide (item = UNDERSCORE) || negb (has_char 61 item) then d
  else
    match split1 [61] item with
    | [k; v] => feats_append k v d
    | _ => d
    end.

Definition _parse_feats_to_dict (feats : str) : feats_t :=
  if negb (truthy feats) || bool_decide (feats = UNDERSCORE) || negb (truthy (strip feats))
  then []
  else fold_left add_item (split [124] feats) [].

(** The pairs one key of the scraped features contributes. *)
Definition pairs_of_key (scraped parsed : feats_t) (key : str) : list (str * str) :=
  let values := match feats_get key scraped with Some vs => vs | None => [] end in
  let uniq_values := sorted (set_of values) in
  if (1 <? List.length uniq_values)%nat then
    match feats_get key parsed with
    | Some (pv :: _) => [(key, pv)]
    | _ => List.map (fun v => (key, v)) uniq_values
    end
  else
    match uniq_values with
    | sv :: _ => [(key, sv)]
    | [] => []
    end.

Definition final_pairs (scraped parsed : feats_t) : list (str * str) :=
  List.concat (List.map (pairs_of_key scraped parsed) (sorted (List.map fst scraped))).

Definition disambiguate_feats (scraped_feats parsed_feats : str) : str :=
  if negb (truthy scraped_feats) || bool_decide (scraped_feats = UNDERSCORE) then
    if truthy parsed_feats && truthy (strip parsed_feats) then parsed_feats else UNDERSCORE
  else
    let scraped := _parse_feats_to_dict scraped_feats in
    let parsed := _parse_feats_to_dict parsed_feats in
    match parsed with
    | [] => scraped_feats
    | _ =>
        match final_pairs scraped parsed with
        | [] => UNDERSCORE
        | pairs => join [124] (List.map (fun kv => fst kv ++ [61] ++ snd kv) pairs)
        end
    end.

(** *** Merging *)

Definition with_merge (hd dr : str) (t : Tok) : Tok :=
  mkTok (token_id t) (form t) (lemma t) (upostag t) (xpostag t) (feats t) hd dr (deps t) (misc t).

Definition with_pos_feats (pos fs : str) (t : Tok) : Tok :=
  mkTok (token_id t) (form t) (lemma t) pos (xpostag t) fs (head t) (deprel t) (deps t) (misc t).

(** The dictionary comprehension [{t['token_id']: t for t in parsed_tokens}]:
    of two tokens with one id the later one stays. *)
Definition index_by_id (parsed_tokens : list Tok) : gmap (list N) Tok :=
  fold_left (fun m t => <[token_id t := t]> m) parsed_tokens ∅.

Section Merge.

(** [str.lower]; the merge uses it only to compare two forms. *)
Variable lower : str -> str.

Definition merge_token (parsed_by_id : gmap (list N) Tok) (s_tok : Tok) : Tok :=
  match parsed_by_id !! token_id s_tok with
  | Some p_tok =>
      if bool_decide (lower (form s_tok) = lower (form p_tok)) then
        let s1 := with_merge (or_underscore (head p_tok)) (or_underscore (deprel p_tok)) s_tok in
        let scraped_pos_list := split [47] (or_underscore (upostag s1)) in
        let parsed_pos := or_underscore (upostag p_tok) in
        if bool_decide (parsed_pos ∈ scraped_pos_list) then
          with_pos_feats parsed_pos
            (disambiguate_feats (or_underscore (feats s1)) (or_underscore (feats p_tok))) s1
        else s1
      else s_tok
  | None => s_tok
  end.

Definition merge_sentences (scraped_tokens parsed_tokens : list Tok) : list Tok :=
  List.map (merge_token (index_by_id parsed_tokens)) scraped_tokens.

End Merge.

End Stage18.

(** ** prioel2conllu stage 42: renumber ids per sentence *)

Module Stage42.
Import Py.

(** A Python [dict] from attribute names to values, in insertion order. *)
Definition attrs_t := list (str * str).

Fixpoint dict_get (k : str) (d : attrs_t) : option str :=
  match d with
  | [] => None
  | (k', v) :: d' => if bool_decide (k' = k) then Some v else dict_get k d'
  end.

(** [d[k] = v]: an existing key keeps its place, a new one goes last. *)
Fixpoint dict_set (k v : str) (d : attrs_t) : attrs_t :=
  match d with
  | [] => [(k, v)]
  | (k', v') :: d' => if bool_decide (k' = k) then (k', v) :: d' else (k', v') :: dict_set k v d'
  end.

Definition dict_of (kvs : list (str * str)) : attrs_t :=
  fold_left (fun d kv => dict_set (fst kv) (snd kv) d) kvs [].

Record TokenLine := mkTokenLine { indent : str; attrs : attrs_t; order : list str }.

Definition ID : str := lit "id".
Definition HEAD_ID : str := lit "head-id".
Definition REL : str := lit "rel".
Definition HYPHEN : str := [45].
Definition COLON : str := [58].

Definition is_hyphen_id (id_value : str) : bool := contains HYPHEN id_value.

(** [attrs.get('id')] followed by [if not tid]: absent and empty alike. *)
Definition get_tid (t : TokenLine) : str :=
  match dict_get ID (attrs t) with Some v => v | None => [] end.

(** First loop of [build_id_mapping]. *)
Fixpoint assign_ids (tokens : list TokenLine) (mapping : gmap (list N) (list N)) (counter : Z)
    : gmap (list N) (list N) :=
  match tokens with
  | [] => mapping
  | t :: rest =>
      let tid := get_tid t in
      if negb (truthy tid) then assign_ids rest mapping counter
      else if negb (is_hyphen_id tid) && negb (bool_decide (is_Some (mapping !! tid)))
      then assign_ids rest (<[tid := str_of_Z counter]> mapping) (counter + 1)
      else assign_ids rest mapping counter
  end.

(** Second loop of [build_id_mapping]. *)
Fixpoint map_hyphen_ids (tokens : list TokenLine) (mapping : gmap (list N) (list N))
    : gmap (list N) (list N) :=
  match tokens with
  | [] => mapping
  | t :: rest =>
      let tid := get_tid t in
      if negb (truthy tid) || negb (is_hyphen_id tid) then map_hyphen_ids rest mapping
      else
        match split1 HYPHEN tid with
        | [a; b] =>
            match mapping !! a, mapping !! b with
            | Some a', Some b' => map_hyphen_ids rest (<[tid := a' ++ HYPHEN ++ b']> mapping)
            | _, _ => map_hyphen_ids rest mapping
            end
        | _ => map_hyphen_ids rest mapping
        end
  end.

Definition build_id_mapping (tokens : list TokenLine) : gmap (list N) (list N) :=
  map_hyphen_ids tokens (assign_ids tokens ∅ 1).

Definition map_head_id (head_id : option str) (id_map : gmap (list N) (list N)) (is_hyphen : bool) : str :=
  match head_id with
  | None => if is_hyphen then lit "_" else lit "0"
  | Some h =>
      if negb (truthy h) || bool_decide (h = lit "_")
      then (if is_hyphen then lit "_" else lit "0")
      else match id_map !! h with
           | Some v => v
           | None => h
           end
  end.

Definition map_rel_attr (rel_val : str) (id_map : gmap (list N) (list N)) : str :=
  if negb (contains COLON rel_val) then rel_val
  else
    match split1 COLON rel_val with
    | [lead; rest] =>
        match id_map !! lead with
        | Some v => v ++ COLON ++ rest
        | None => rel_val
        end
    | _ => rel_val
    end.

(** What the [verbose] branch prints for a token. *)
Record LogEntry := mkLog { log_tid : str; log_new_id : str; log_head_old : option str; log_head_new : str }.

(** The body of the rewriting loop of [process_sentence] for one token. *)
Definition rewrite_token (id_map : gmap (list N) (list N)) (t : TokenLine) : TokenLine * list LogEntry :=
  let tid := match dict_get ID (attrs t) with Some v => v | None => [] end in
  let new_id := match id_map !! tid with Some v => v | None => tid end in
  let a1 := dict_set ID new_id (attrs t) in
  let is_hyph := is_hyphen_id new_id in
  let hid_old := dict_get HEAD_ID a1 in
  let new_head := map_head_id hid_old id_map is_hyph in
  let a2 := dict_set HEAD_ID new_head a1 in
  let a3 := match dict_get REL a2 with
            | Some r => dict_set REL (map_rel_attr r id_map) a2
            | None => a2
            end in
  (mkTokenLine (indent t) a3 (order t),
   if negb (bool_decide (tid = new_id)) then [mkLog tid new_id hid_old new_head] else []).

(** Id mapping and rewriting of the token lines of one sentence: the
    tokens as rewritten and the lines printed when [verbose] is set. *)
Definition renumber (token_buf : list TokenLine) : list TokenLine * list LogEntry :=
  let id_map := build_id_mapping token_buf in
  let r := List.map (rewrite_token id_map) token_buf in
  (List.map fst r, List.concat (List.map snd r)).

(** *** Lines *)

(** [TOKEN_TAG_RE.search(line)], the pattern [<token\b]. *)
Fixpoint is_token_line (line : str) : bool :=
  (startswith line (lit "<token") &&
   match List.skipn 6 line with
   | [] => true
   | c :: _ => negb (isword c)
   end) ||
  match line with
  | [] => false
  | _ :: rest => is_token_line rest
  end.

Definition is_attr_char (c : char) : bool := (c =? 45) || isword c.

(** The lazy group [(.*?)] up to the closing quote; [.] excludes the
    line feed. *)
Fixpoint take_value (acc : str) (s : str) : option (str * str) :=
  match s with
  | [] => None
  | c :: s' =>
      if c =? 34 then Some (rev acc, s')
      else if c =? 10 then None
      else take_value (c :: acc) s'
  end.

Fixpoint span_attr (acc : str) (s : str) : str * str :=
  match s with
  | c :: s' => if is_attr_char c then span_attr (c :: acc) s' else (rev acc, s)
  | [] => (rev acc, [])
  end.

(** [ATTR_RE.findall(line)]: a run of [-\w] characters, the equals sign,
    and a lazily matched quoted value. *)
Fixpoint findall_attr (fuel : nat) (s : str) : list (str * str) :=
  match fuel with
  | O => []
  | S f =>
      match s with
      | [] => []
      | c :: s' =>
          if is_attr_char c then
            let '(name, rest) := span_attr [] s in
            if startswith rest [61; 34] then
              match take_value [] (List.skipn 2 rest) with
              | Some (v, rest') => (name, v) :: findall_attr f rest'
              | None => findall_attr f rest
              end
            else findall_attr f rest
          else findall_attr f s'
      end
  end.

(** [ATTR_ORDER_RE.findall(line)], the pattern [([-\w]+)=]. *)
Fixpoint findall_order (run : str) (s : str) : list str :=
  match s with
  | [] => []
  | c :: s' =>
      if is_attr_char c then findall_order (c :: run) s'
      else if (c =? 61) && truthy run then rev run :: findall_order [] s'
      else findall_order [] s'
  end.

Fixpoint before_lt (s : str) : str :=
  match s with
  | [] => []
  | c :: s' => if c =? 60 then [] else c :: before_lt s'
  end.

Definition parse_token_line (line : str) : TokenLine :=
  mkTokenLine (if has_char 60 line then before_lt line else [])
              (dict_of (findall_attr (List.length line) line))
              (findall_order [] line).

Definition render_attr (kv : str * str) : str := fst kv ++ [61; 34] ++ snd kv ++ [34].

(** The two loops of [serialize_token] over [order] and over [attrs]. *)
Fixpoint emit_ordered (a : attrs_t) (order : list str) (seen : list str) : list str * list str :=
  match order with
  | [] => ([], seen)
  | k :: rest =>
      match dict_get k a with
      | Some v =>
          if bool_decide (k ∈ seen) then emit_ordered a rest seen
          else let '(ps, seen') := emit_ordered a rest (k :: seen) in (render_attr (k, v) :: ps, seen')
      | None => emit_ordered a rest seen
      end
  end.

Definition emit_new (a : attrs_t) (seen : list str) : list str :=
  List.map render_attr (List.filter (fun kv => negb (bool_decide (fst kv ∈ seen))) a).

Definition serialize_token (t : TokenLine) : str :=
  let '(ps, seen) := emit_ordered (attrs t) (order t) [] in
  indent t ++ lit "<token " ++ join [32] (ps ++ emit_new (attrs t) seen) ++ lit " />" ++ [10].

(** The reassembly loop: token lines are taken from [rewritten] in order. *)
Fixpoint reassemble (lines : list str) (rewritten : list str) : list str :=
  match lines with
  | [] => []
  | ln :: rest =>
      if is_token_line ln then
        match rewritten with
        | r :: rw => r :: reassemble rest rw
        | [] => []
        end
      else (ln ++ (if startswith (rev ln) [10] then [] else [10])) :: reassemble rest rewritten
  end.

Definition process_sentence (block : str) : str * list LogEntry :=
  let lines := splitlines block in
  let token_buf := List.map parse_token_line (List.filter is_token_line lines) in
  match token_buf with
  | [] => (join [10] lines, [])
  | _ =>
      let '(toks, log) := renumber token_buf in
      (rstrip_chars [10] (List.concat (reassemble lines (List.map serialize_token toks))), log)
  end.

End Stage42.

(** ** Regular-expression helpers shared by the prioel2conllu stages

    The token lines of these stages are edited with [re.search] and
    [re.sub]; the patterns are fixed, so each is modelled by the search
    it performs: the leftmost position at which the pattern matches.
    In the patterns quoted below, Q stands for the double quote. *)

Module Re.
Import Py.

Definition QUOTE : char := 34.
Definition BACKSLASH : char := 92.

Definition opt_isword (c : option N) : bool :=
  match c with Some x => isword x | None => false end.

(** [\b] between the previous and the next character. *)
Definition word_boundary (prev next : option N) : bool :=
  xorb (opt_isword prev) (opt_isword next).

(** A run of non-quotes and the quote: the text up to the next quote and
    what follows it. *)
Fixpoint until_quote (acc : str) (s : str) : option (str * str) :=
  match s with
  | [] => None
  | c :: s' => if c =? QUOTE then Some (rev acc, s') else until_quote (c :: acc) s'
  end.

Definition attr_open (name : str) : str := name ++ [61; QUOTE].

(** [re.search] for [\bNAME=Q(V)Q] with V any run of non-quotes: group 1. *)
Fixpoint search_attr (name : str) (prev : option N) (s : str) : option str :=
  match
    (if word_boundary prev (List.hd_error s) && startswith s (attr_open name)
     then option_map fst (until_quote [] (List.skipn (List.length (attr_open name)) s))
     else None)
  with
  | Some v => Some v
  | None =>
      match s with
      | [] => None
      | c :: s' => search_attr name (Some c) s'
      end
  end.

(** [re.search(\bNAME=Q, line)] *)
Fixpoint search_attr_open (name : str) (prev : option N) (s : str) : bool :=
  (word_boundary prev (List.hd_error s) && startswith s (attr_open name)) ||
  match s with
  | [] => false
  | c :: s' => search_attr_open name (Some c) s'
  end.

(** *** Replacement templates (CPython 3.11 [parse_template]) *)

Inductive piece := Lit (s : str) | Group (n : nat).

Definition is_octdigit (c : N) : bool := (48 <=? c) && (c <=? 55).
Definition is_asciidigit (c : N) : bool := (48 <=? c) && (c <=? 57).
Definition is_asciiletter (c : N) : bool :=
  ((65 <=? c) && (c <=? 90)) || ((97 <=? c) && (c <=? 122)).

Definition escape_char (c : N) : option N :=
  if c =? 97 then Some 7 else if c =? 98 then Some 8 else if c =? 102 then Some 12
  else if c =? 110 then Some 10 else if c =? 114 then Some 13 else if c =? 116 then Some 9
  else if c =? 118 then Some 11 else if c =? BACKSLASH then Some BACKSLASH else None.

Fixpoint until_gt (acc : str) (s : str) : option (str * str) :=
  match s with
  | [] => None
  | c :: s' => if c =? 62 then Some (rev acc, s') else until_gt (c :: acc) s'
  end.

Definition group_ref (ngroups : nat) (index : N) (rest : option (list piece)) : option (list piece) :=
  if (N.to_nat index <=? ngroups)%nat
  then option_map (cons (Group (N.to_nat index))) rest
  else None.

(** [None] is [re.error] (or the [IndexError] of an unknown group name). *)
Fixpoint parse_template (fuel : nat) (ngroups : nat) (tpl : str) : option (list piece) :=
  match fuel with
  | O => Some []
  | S f =>
      match tpl with
      | [] => Some []
      | c :: r =>
          if negb (c =? BACKSLASH) then option_map (cons (Lit [c])) (parse_template f ngroups r)
          else
            match r with
            | [] => None
            | e :: r1 =>
                if e =? 103 then
                  match r1 with
                  | lt :: r2 =>
                      if lt =? 60 then
                        match until_gt [] r2 with
                        | Some (name, rest) =>
                            match int name with
                            | Some i =>
                                if (0 <=? i)%Z && truthy name
                                then group_ref ngroups (Z.to_N i) (parse_template f ngroups rest)
                                else None
                            | None => None
                            end
                        | None => None
                        end
                      else None
                  | [] => None
                  end
                else if e =? 48 then
                  match r1 with
                  | d1 :: r2 =>
                      if is_octdigit d1 then
                        match r2 with
                        | d2 :: r3 =>
                            if is_octdigit d2
                            then option_map (cons (Lit [N.land (8 * (d1 - 48) + (d2 - 48)) 255]))
                                            (parse_template f ngroups r3)
                            else option_map (cons (Lit [d1 - 48])) (parse_template f ngroups r2)
                        | [] => Some [Lit [d1 - 48]]
                        end
                      else option_map (cons (Lit [0])) (parse_template f ngroups r1)
                  | [] => Some [Lit [0]]
                  end
                else if is_asciidigit e then
                  match r1 with
                  | d1 :: r2 =>
                      if is_asciidigit d1 then
                        match r2 with
                        | d2 :: r3 =>
                            if is_octdigit e && is_octdigit d1 && is_octdigit d2 then
                              let v := 64 * (e - 48) + 8 * (d1 - 48) + (d2 - 48) in
                              if 255 <? v then None
                              else option_map (cons (Lit [v])) (parse_template f ngroups r3)
                            else group_ref ngroups (10 * (e - 48) + (d1 - 48)) (parse_template f ngroups r2)
                        | [] => group_ref ngroups (10 * (e - 48) + (d1 - 48)) (Some [])
                        end
                      else group_ref ngroups (e - 48) (parse_template f ngroups r1)
                  | [] => group_ref ngroups (e - 48) (Some [])
                  end
                else
                  match escape_char e with
                  | Some x => option_map (cons (Lit [x])) (parse_template f ngroups r1)
                  | None =>
                      if is_asciiletter e then None
                      else option_map (cons (Lit [BACKSLASH; e])) (parse_template f ngroups r1)
                  end
            end
      end
  end.

Definition piece_text (groups : list str) (p : piece) : str :=
  match p with
  | Lit s => s
  | Group n => List.nth n groups []
  end.

(** The replacement for a match whose groups 0, 1, ... are [groups]. *)
Definition expand (tpl : list piece) (groups : list str) : str :=
  List.concat (List.map (piece_text groups) tpl).

Definition compile_template (ngroups : nat) (tpl : str) : option (list piece) :=
  parse_template (List.length tpl) ngroups tpl.

(** [re.sub] of the first [(NAME=Q)V(Q)], V any run of non-quotes, by a
    compiled template. *)
Fixpoint sub_attr (name : str) (tpl : list piece) (s : str) : str :=
  match
    (if startswith s (attr_open name)
     then until_quote [] (List.skipn (List.length (attr_open name)) s)
     else None)
  with
  | Some (v, rest) =>
      expand tpl [attr_open name ++ v ++ [QUOTE]; attr_open name; [QUOTE]] ++ rest
  | None =>
      match s with
      | [] => []
      | c :: s' => c :: sub_attr name tpl s'
      end
  end.

(** [re.sub(\s*/>, tpl, line, count=1)] *)
Fixpoint sub_slash_gt (tpl : list piece) (s : str) : str :=
  let r := lstrip_by isspace s in
  if startswith r [47; 62]
  then expand tpl [List.firstn (List.length s - List.length r + 2) s] ++ List.skipn 2 r
  else match s with
       | [] => []
       | c :: s' => c :: sub_slash_gt tpl s'
       end.

(** [re.sub(>, tpl, line, count=1)] *)
Fixpoint sub_gt (tpl : list piece) (s : str) : str :=
  match s with
  | [] => []
  | c :: s' => if c =? 62 then expand tpl [[62]] ++ s' else c :: sub_gt tpl s'
  end.

Definition get_attr (line name : str) : option str := search_attr name None line.
Definition has_attr (line name : str) : bool := search_attr_open name None line.

Definition attr_text (name value : str) : str := [32] ++ attr_open name ++ value ++ [QUOTE].

(** [set_attr] of stage 40, with the replacement [rf'\1{value}\2']. *)
Definition set_attr (line name value : str) : option str :=
  if has_attr line name then
    option_map (fun tpl => sub_attr name tpl line)
               (compile_template 2 ([BACKSLASH; 49] ++ value ++ [BACKSLASH; 50]))
  else if contains [47; 62] line then
    option_map (fun tpl => sub_slash_gt tpl line)
               (compile_template 0 (attr_text name value ++ [32; 47; 62]))
  else if contains [62] line then
    option_map (fun tpl => sub_gt tpl line)
               (compile_template 0 (attr_text name value ++ [62]))
  else Some (line ++ attr_text name value).

End Re.
(** ** prioel2conllu stage 40: collapse multiple roots *)

Module Stage40.
Import Py.

Definition RELATION : str := lit "relation".
Definition ID : str := lit "id".
Definition HEAD_ID : str := lit "head-id".
Definition ROOT : str := lit "root".
Definition CCOMP : str := lit "ccomp".

Definition get_attr := Re.get_attr.
Definition has_attr := Re.has_attr.
Definition set_attr := Re.set_attr.

(** The collecting loop: [(index, id)] of every token whose relation is
    root and whose id is present and non-empty. *)
Fixpoint collect_roots (idx : nat) (tokens : list str) : list (nat * str) :=
  match tokens with
  | [] => []
  | tok :: rest =>
      let tl := collect_roots (S idx) rest in
      if bool_decide (get_attr tok RELATION = Some ROOT) then
        match get_attr tok ID with
        | Some tid => if truthy tid then (idx, tid) :: tl else tl
        | None => tl
        end
      else tl
  end.

(** What the [verbose] branch prints for a demoted root. *)
Record LogEntry := mkLog { log_id : str; log_head : str; log_prev_idx : nat }.

(** The demotion loop over [root_info[1:]], each entry with its
    predecessor; [tokens] is updated in place. *)
Fixpoint demote (prev : nat * str) (roots : list (nat * str)) (tokens : list str)
    : option (list str * list LogEntry) :=
  match roots with
  | [] => Some (tokens, [])
  | (curr_idx, curr_id) :: rest =>
      let '(prev_idx, prev_id) := prev in
      if negb (truthy prev_id) then demote (curr_idx, curr_id) rest tokens
      else
        match tokens !! curr_idx with
        | None => None
        | Some tok =>
            match set_attr tok HEAD_ID prev_id with
            | Some tok1 =>
                match set_attr tok1 RELATION CCOMP with
                | Some tok2 =>
                    match demote (curr_idx, curr_id) rest (<[curr_idx := tok2]> tokens) with
                    | Some (out, log) =>
                        Some (out,
                              mkLog (match get_attr tok2 ID with
                                     | Some i => if truthy i then i else lit "?"
                                     | None => lit "?"
                                     end) prev_id prev_idx :: log)
                    | None => None
                    end
                | None => None
                end
            | None => None
            end
        end
  end.

(** The lines of the processed sentence and what [verbose] prints. *)
Definition process_lines (tokens : list str) : option (list str * list LogEntry) :=
  match collect_roots 0 tokens with
  | first :: (_ :: _) as others => demote first others tokens
  | _ => Some (tokens, [])
  end.

Definition process_sentence (block : str) : option (str * list LogEntry) :=
  option_map (fun r => (join [10] (fst r), snd r)) (process_lines (splitlines block)).

End Stage40.

(** ** prioel2conllu stage 00: split the ibrew-z token *)

Module Stage00.
Import Py.

Definition SENTENCE_DELIM : str := lit "</sentence>".

(** The prefix of the replacement string of [set_attr] (line 51), and the
    prefixes of the prefixed string literals of the module in the order
    of the source (lines 41, 50, 51, 51, 54, 54, 55, 61, 61, 88). *)
Definition REPLACEMENT_PREFIX : string := "frf".

Definition literal_prefixes : list string :=
  ["fr"; "fr"; "fr"; REPLACEMENT_PREFIX; "r"; "f"; "f"; "fr"; "f"; "f"]%string.

Definition get_attr := Re.get_attr.

(** [set_attr] of this stage: no branch for the self-closing bracket. *)
Definition set_attr (line name value : str) : option str :=
  loaded literal_prefixes
    (if Re.search_attr_open name None line then
       match group_literal REPLACEMENT_PREFIX value with
       | Some repl => option_map (fun tpl => Re.sub_attr name tpl line)
                                 (Re.compile_template 2 repl)
       | None => None
       end
     else if contains [62] line then
       option_map (fun tpl => Re.sub_gt tpl line)
                  (Re.compile_template 0 (Re.attr_text name value ++ [62]))
     else Some (line ++ Re.attr_text name value)).

(** [re.sub] of the first [\bid=Q OLD Q\b] (Q the double quote, OLD the
    escaped old id) by a compiled template. *)
Fixpoint sub_id (old_id : str) (tpl : list Re.piece) (prev : option N) (s : str) : str :=
  let pat := Re.attr_open (lit "id") ++ old_id ++ [Re.QUOTE] in
  let after := List.skipn (List.length pat) s in
  if Re.word_boundary prev (List.hd_error s) && startswith s pat
     && Re.word_boundary (Some Re.QUOTE) (List.hd_error after)
  then Re.expand tpl [pat] ++ after
  else match s with
       | [] => []
       | c :: s' => c :: sub_id old_id tpl (Some c) s'
       end.

Definition replace_id_suffix (line old_id new_suffix : str) : option str :=
  loaded literal_prefixes
    (option_map (fun tpl => sub_id old_id tpl None line)
       (Re.compile_template 0 (Re.attr_open (lit "id") ++ old_id ++ new_suffix ++ [Re.QUOTE]))).

Definition LEMMA_IBREW_Z : str := lit "lemma=" ++ [Re.QUOTE] ++ lit "ibrew z" ++ [Re.QUOTE].

Definition head_ref (tid : str) : str := lit "head-id=" ++ [Re.QUOTE] ++ tid ++ [Re.QUOTE].

(** Index of the first line for which [f] holds. *)
Fixpoint find_index (f : str -> bool) (l : list str) : option nat :=
  match l with
  | [] => None
  | x :: l' => if f x then Some 0%nat else option_map S (find_index f l')
  end.

(** [tokens.insert(i, x)] for [i] within the list. *)
Definition list_insert_at (i : nat) (x : str) (l : list str) : list str :=
  List.firstn i l ++ x :: List.skipn i l.

(** A chain of [set_attr] calls. *)
Fixpoint set_attrs (line : str) (kvs : list (str * str)) : option str :=
  match kvs with
  | [] => Some line
  | (k, v) :: rest =>
      match set_attr line k v with
      | Some line' => set_attrs line' rest
      | None => None
      end
  end.

Definition ibrew_attrs : list (str * str) :=
  [(lit "form", lit "ibrew"); (lit "lemma", lit "ibrew");
   (lit "part-of-speech", lit "G-"); (lit "relation", lit "case")].

Definition z_attrs : list (str * str) :=
  [(lit "form", lit "z"); (lit "lemma", lit "z");
   (lit "part-of-speech", lit "R-"); (lit "relation", lit "aux")].

(** Step 2: the first line that names the token as its head takes over
    its relation; the id of that line is the dependent id. *)
Definition transfer_relation (tokens : list str) (ibrew_z_id ibrew_z_relation : str)
    : option (list str * option str) :=
  match find_index (contains (head_ref ibrew_z_id)) tokens with
  | Some idx =>
      match tokens !! idx with
      | Some tok =>
          match set_attr tok (lit "relation") ibrew_z_relation with
          | Some tok' => Some (<[idx := tok']> tokens, get_attr tok' (lit "id"))
          | None => None
          end
      | None => None
      end
  | None => Some (tokens, None)
  end.

(** Step 3: the head of the token is rewired to the dependent. *)
Definition rewire_head (tokens : list str) (ibrew_z_idx : nat) (dependent_id : option str)
    : option (list str) :=
  match dependent_id, tokens !! ibrew_z_idx with
  | Some d, Some tok =>
      option_map (fun tok' => <[ibrew_z_idx := tok']> tokens) (set_attr tok (lit "head-id") d)
  | _, _ => Some tokens
  end.

(** Steps 4 and 5: the line is duplicated after itself and the two
    copies are retargeted. *)
Definition duplicate_and_retarget (tokens : list str) (ibrew_z_idx : nat) (ibrew_z_id : str)
    : option (list str) :=
  match tokens !! ibrew_z_idx with
  | None => None
  | Some tok =>
      match replace_id_suffix tok ibrew_z_id (lit "0") with
      | None => None
      | Some duplicated =>
          match set_attrs tok ibrew_attrs, set_attrs duplicated z_attrs with
          | Some tok_ibrew, Some tok_z =>
              Some (<[S ibrew_z_idx := tok_z]>
                      (<[ibrew_z_idx := tok_ibrew]>
                         (list_insert_at (S ibrew_z_idx) duplicated tokens)))
          | _, _ => None
          end
      end
  end.

(** Steps 2 to 5 for the token found at [ibrew_z_idx]. *)
Definition split_ibrew (tokens : list str) (ibrew_z_idx : nat) (ibrew_z_id ibrew_z_relation : str)
    : option (list str) :=
  match transfer_relation tokens ibrew_z_id ibrew_z_relation with
  | None => None
  | Some (tokens2, dependent_id) =>
      match rewire_head tokens2 ibrew_z_idx dependent_id with
      | None => None
      | Some tokens3 => duplicate_and_retarget tokens3 ibrew_z_idx ibrew_z_id
      end
  end.

(** [transform_sentence] on the lines of the block. *)
Definition transform_lines (tokens : list str) : option (list str) :=
  match find_index (contains LEMMA_IBREW_Z) tokens with
  | Some idx =>
      match tokens !! idx with
      | Some tok =>
          match get_attr tok (lit "id"), get_attr tok (lit "relation") with
          | Some ibrew_z_id, Some ibrew_z_relation =>
              if truthy ibrew_z_id
              then split_ibrew tokens idx ibrew_z_id ibrew_z_relation
              else Some tokens
          | _, _ => Some tokens
          end
      | None => Some tokens
      end
  | None => Some tokens
  end.

Definition transform_sentence (sentence_block : str) : option str :=
  loaded literal_prefixes
    (option_map (join [10]) (transform_lines (splitlines sentence_block))).

(** The loop of [update_and_split_token]: every segment but the last. *)
Fixpoint transform_all (sentences : list str) : option (list str) :=
  match sentences with
  | [] => Some []
  | [last] => Some [last]
  | s :: rest =>
      match transform_sentence s, transform_all rest with
      | Some s', Some rest' => Some (s' :: rest')
      | _, _ => None
      end
  end.

Definition update_and_split_token (text : str) : option str :=
  loaded literal_prefixes
    (option_map (join SENTENCE_DELIM) (transform_all (split SENTENCE_DELIM text))).

End Stage00.

(** ** prioel2conllu stage 12: remove empty C tokens *)

Module Stage12.
Import Py.

Definition SENT_END : str := lit "</sentence>".

(** The prefix of the replacement string of [set_attr] (line 49), and the
    prefixes of the prefixed string literals of the module in the order
    of the source (lines 40, 44, 49, 49, 52, 52, 54, 54, 55, 59, 148). *)
Definition REPLACEMENT_PREFIX : string := "frf".

Definition literal_prefixes : list string :=
  ["fr"; "fr"; "fr"; REPLACEMENT_PREFIX; "r"; "f"; "r"; "f"; "f"; "fr"; "f"]%string.

Definition get_attr := Re.get_attr.
Definition has_attr := Re.has_attr.

Definition set_attr (line name value : str) : option str :=
  loaded literal_prefixes
    (if has_attr line name then
       match group_literal REPLACEMENT_PREFIX value with
       | Some repl => option_map (fun tpl => Re.sub_attr name tpl line)
                                 (Re.compile_template 2 repl)
       | None => None
       end
     else if contains [47; 62] line then
       option_map (fun tpl => Re.sub_slash_gt tpl line)
                  (Re.compile_template 0 (Re.attr_text name value ++ [32; 47; 62]))
     else if contains [62] line then
       option_map (fun tpl => Re.sub_gt tpl line)
                  (Re.compile_template 0 (Re.attr_text name value ++ [62]))
     else Some (line ++ Re.attr_text name value)).

(** The character before the text that follows the leading whitespace. *)
Fixpoint lstrip_prev (prev : option N) (s : str) : option N * str :=
  match s with
  | c :: s' => if isspace c then lstrip_prev (Some c) s' else (prev, s)
  | [] => (prev, [])
  end.

(** [remove_attr]: [re.sub] of the first [\s*\bNAME=Q V Q] (Q the double
    quote, V any run of non-quotes) by the empty string. *)
Fixpoint remove_attr_go (name : str) (prev : option N) (s : str) : str :=
  let '(p, r) := lstrip_prev prev s in
  match
    (if Re.word_boundary p (List.hd_error r) && startswith r (Re.attr_open name)
     then Re.until_quote [] (List.skipn (List.length (Re.attr_open name)) r)
     else None)
  with
  | Some (_, rest) => rest
  | None =>
      match s with
      | [] => []
      | c :: s' => c :: remove_attr_go name (Some c) s'
      end
  end.

Definition remove_attr (line name : str) : str := remove_attr_go name None line.

Definition is_punct (line : str) : bool :=
  contains (lit "relation=" ++ [Re.QUOTE] ++ lit "punct" ++ [Re.QUOTE]) line.

Definition is_c_token (tok : str) : bool :=
  contains (lit "empty-token-sort=" ++ [Re.QUOTE] ++ lit "C" ++ [Re.QUOTE]) tok.

(** Indices [j] from [idx] on with [f j tok] true. *)
Fixpoint indices_where (f : nat -> str -> bool) (idx : nat) (tokens : list str) : list nat :=
  match tokens with
  | [] => []
  | tok :: rest =>
      if f idx tok then idx :: indices_where f (S idx) rest else indices_where f (S idx) rest
  end.

(** The loop over the dependents after the first one. *)
Fixpoint rewire_others (first_dep_id : str) (js : list nat) (tokens : list str) : option (list str) :=
  match js with
  | [] => Some tokens
  | j :: rest =>
      match tokens !! j with
      | None => None
      | Some line =>
          match (if is_punct line then Some line else set_attr line (lit "relation") (lit "parataxis")) with
          | None => None
          | Some line1 =>
              match set_attr line1 (lit "head-id") first_dep_id with
              | None => None
              | Some line2 => rewire_others first_dep_id rest (<[j := line2]> tokens)
              end
          end
      end
  end.

(** One iteration of the loop over [c_indices]: the tokens after it and
    whether [c_idx] is marked for deletion. *)
Definition process_c (tokens : list str) (c_idx : nat) : option (list str * bool) :=
  match tokens !! c_idx with
  | None => None
  | Some c_line =>
      match get_attr c_line (lit "id") with
      | None => Some (tokens, true)
      | Some c_id =>
          if negb (truthy c_id) then Some (tokens, true)
          else
            match get_attr c_line (lit "relation") with
            | None => Some (tokens, false)
            | Some c_rel =>
                let c_head := get_attr c_line (lit "head-id") in
                let dep_indices :=
                  indices_where (fun j tok => negb (j =? c_idx)%nat &&
                                   bool_decide (get_attr tok (lit "head-id") = Some c_id)) 0 tokens in
                match dep_indices with
                | [] => Some (tokens, true)
                | first_dep_idx :: others =>
                    match tokens !! first_dep_idx with
                    | None => None
                    | Some first_dep_line =>
                        let first_dep_id :=
                          match get_attr first_dep_line (lit "id") with
                          | Some i => i
                          | None => []
                          end in
                        match set_attr first_dep_line (lit "relation") c_rel with
                        | None => None
                        | Some l1 =>
                            match
                              (match c_head with
                               | Some h => if truthy h then set_attr l1 (lit "head-id") h
                                           else Some (remove_attr l1 (lit "head-id"))
                               | None => Some (remove_attr l1 (lit "head-id"))
                               end)
                            with
                            | None => None
                            | Some l2 =>
                                option_map (fun toks => (toks, true))
                                  (rewire_others first_dep_id others (<[first_dep_idx := l2]> tokens))
                            end
                        end
                    end
                end
            end
      end
  end.

Fixpoint process_cs (c_indices : list nat) (tokens : list str) (to_delete : list nat)
    : option (list str * list nat) :=
  match c_indices with
  | [] => Some (tokens, to_delete)
  | c_idx :: rest =>
      match process_c tokens c_idx with
      | Some (tokens', del) => process_cs rest tokens' (if del then to_delete ++ [c_idx] else to_delete)
      | None => None
      end
  end.

(** Deleting the marked indices, highest first. *)
Definition delete_indices (to_delete : list nat) (tokens : list str) : list str :=
  List.map snd
    (List.filter (fun p => negb (existsb (Nat.eqb (fst p)) to_delete))
       (List.combine (seq 0 (List.length tokens)) tokens)).

Definition process_sentence (block : str) : option str :=
  loaded literal_prefixes
    (let tokens := List.filter (fun t => truthy (strip t)) (splitlines block) in
     match indices_where (fun _ tok => is_c_token tok) 0 tokens with
     | [] => Some (join [10] tokens)
     | c_indices =>
         option_map (fun r => join [10] (delete_indices (snd r) (fst r)))
                    (process_cs c_indices tokens [])
     end).

Fixpoint process_parts (sentences : list str) : option (list str) :=
  match sentences with
  | [] => Some []
  | s :: rest =>
      let blk := strip s in
      match (if truthy blk then process_sentence blk else Some s), process_parts rest with
      | Some s', Some rest' => Some (s' :: rest')
      | _, _ => None
      end
  end.

(** [process_file]: the text written for the text read. *)
Definition process_file (text : str) : option str :=
  loaded literal_prefixes
    (option_map (join [10]) (process_parts (split ([10] ++ SENT_END) text))).

End Stage12.

(** * Properties *)

Import Py.

(** ** Stage 03: the worked example of the exclamation split *)

(** The form U+0531 U+0582 U+0561 U+055C U+0572 and the same without the mark. *)
Definition awagh_excl : list N := [1329; 1410; 1377; 1372; 1394].
Definition awagh : list N := [1329; 1410; 1377; 1394].

Lemma is_placeholder_spec h :
  Stage03.is_placeholder h = true ->
  h = Stage03.BASE \/ h = Stage03.EXCLid \/ h = Stage03.Q.
Proof.
  unfold Stage03.is_placeholder. intros H.
  apply orb_prop in H as [H|H]; [apply orb_prop in H as [H|H]|];
    apply bool_decide_eq_true_1 in H; auto.
Qed.

Section Example.
Variables (lemma upos xpos feats head deprel deps misc : list N) (span : option Z).

Let input := Stage03.mkToken (lit "1") awagh_excl lemma upos xpos feats head deprel deps misc span.
Let span_line := Stage03.mkToken (lit "1-2") awagh_excl (lit "_") (lit "_") (lit "_") (lit "_")
                   (lit "_") (lit "_") (lit "_") (lit "_") (Some 2%Z).
Let base := Stage03.mkToken (lit "1") awagh lemma upos xpos feats head deprel deps misc span.
Let mark (h : list N) := Stage03.mkToken (lit "2") [1372] [1372] (lit "PUNCT") (lit "_") (lit "_")
                   h (lit "punct") (lit "_") (lit "_") None.

Lemma example_fix :
  Stage03.fix_exclamations [input]
  = ([Stage03._make_mwt awagh_excl 2; Stage03.with_form awagh (Stage03.with_id Stage03.BASE input);
      Stage03.excl_token], true).
Proof. reflexivity. Qed.

Lemma example_pass1 :
  Stage03.pass1 [Stage03._make_mwt awagh_excl 2;
                 Stage03.with_form awagh (Stage03.with_id Stage03.BASE input);
                 Stage03.excl_token] 1 0 0%Z ∅
  = Some ([span_line; base; mark Stage03.BASE], ∅).
Proof. reflexivity. Qed.

Lemma example_pass2 :
  (isdigit head = true -> is_Some (int head)) ->
  Stage03.pass2 ∅ [0; 1; 2]%nat [span_line; base; mark Stage03.BASE]
  = Some [span_line; base; mark (lit "1")].
Proof.
  intros Hhead.
  set (res := [span_line; base; mark Stage03.BASE]).
  assert (H0 : Stage03.fix_head ∅ res 0 = Some res) by reflexivity.
  assert (H1 : Stage03.fix_head ∅ res 1 = Some res).
  { unfold Stage03.fix_head.
    change (res !! 1%nat) with (Some base).
    change (contains Stage03.HYPHEN (Stage03.id base)) with false. cbv iota.
    change (Stage03.head base) with head.
    destruct (isdigit head) eqn:Hd.
    - destruct (Hhead eq_refl) as [oh ->]. rewrite lookup_empty. reflexivity.
    - destruct (Stage03.is_placeholder head) eqn:Hp; [|reflexivity].
      assert (Hi : Stage03.index_of base res = Some 1%nat).
      { unfold res. cbn [Stage03.index_of].
        rewrite bool_decide_eq_false_2 by (intros E; discriminate E).
        rewrite bool_decide_eq_true_2 by reflexivity. reflexivity. }
      rewrite Hi. reflexivity. }
  assert (H2 : Stage03.fix_head ∅ res 2 = Some [span_line; base; mark (lit "1")]).
  { unfold Stage03.fix_head.
    change (res !! 2%nat) with (Some (mark Stage03.BASE)).
    change (contains Stage03.HYPHEN (Stage03.id (mark Stage03.BASE))) with false. cbv iota.
    change (isdigit (Stage03.head (mark Stage03.BASE))) with false. cbv iota.
    change (Stage03.is_placeholder (Stage03.head (mark Stage03.BASE))) with true. cbv iota.
    assert (Hi : Stage03.index_of (mark Stage03.BASE) res = Some 2%nat).
    { unfold res. cbn [Stage03.index_of].
      rewrite bool_decide_eq_false_2 by (intros E; discriminate E).
      rewrite bool_decide_eq_false_2 by (intros E; discriminate E).
      rewrite bool_decide_eq_true_2 by reflexivity. reflexivity. }
    rewrite Hi. reflexivity. }
  cbn [Stage03.pass2]. rewrite H0, H1, H2. reflexivity.
Qed.

End Example.

(** C9. For the single-token sentence with id 1 and the form with the
    exclamation mark inside, the split followed by the renumbering yields
    the span line 1-2 with the original form, the base token 1 with the
    form without the mark, and the punctuation token 2 with the mark as
    form, head 1 and deprel punct.  The other columns of the input token
    are arbitrary; its head only has to be a string [int] accepts
    whenever [isdigit] holds for it. *)
Theorem exclamation_split_example
    (meta : list (list N)) (lemma upos xpos feats head deprel deps misc : list N)
    (span : option Z) :
  (isdigit head = true -> is_Some (int head)) ->
  Stage03.process_sentence
    (Stage03.mkSentence meta
       [Stage03.mkToken (lit "1") awagh_excl lemma upos xpos feats head deprel deps misc span])
  = Some (Stage03.mkSentence meta
            [Stage03.mkToken (lit "1-2") awagh_excl (lit "_") (lit "_") (lit "_") (lit "_")
                             (lit "_") (lit "_") (lit "_") (lit "_") (Some 2%Z);
             Stage03.mkToken (lit "1") awagh lemma upos xpos feats head deprel deps misc span;
             Stage03.mkToken (lit "2") [1372] [1372] (lit "PUNCT") (lit "_") (lit "_")
                             (lit "1") (lit "punct") (lit "_") (lit "_") None],
          true).
Proof.
  intros Hhead.
  unfold Stage03.process_sentence. cbn [Stage03.tokens Stage03.meta].
  rewrite example_fix.
  unfold Stage03.renumber_preserving_mwts. rewrite example_pass1.
  change (seq 0 _) with [0; 1; 2]%nat.
  rewrite example_pass2 by exact Hhead. reflexivity.
Qed.

(** The example at concrete columns. *)
Lemma exclamation_split_example_witness :
  Stage03.process_sentence
    (Stage03.mkSentence []
       [Stage03.mkToken (lit "1") awagh_excl (lit "l") (lit "INTJ") (lit "_") (lit "_")
                        (lit "0") (lit "root") (lit "_") (lit "_") None])
  = Some (Stage03.mkSentence []
            [Stage03.mkToken (lit "1-2") awagh_excl (lit "_") (lit "_") (lit "_") (lit "_")
                             (lit "_") (lit "_") (lit "_") (lit "_") (Some 2%Z);
             Stage03.mkToken (lit "1") awagh (lit "l") (lit "INTJ") (lit "_") (lit "_")
                             (lit "0") (lit "root") (lit "_") (lit "_") None;
             Stage03.mkToken (lit "2") [1372] [1372] (lit "PUNCT") (lit "_") (lit "_")
                             (lit "1") (lit "punct") (lit "_") (lit "_") None],
          true).
Proof.
  apply (exclamation_split_example [] (lit "l") (lit "INTJ") (lit "_") (lit "_") (lit "0")
           (lit "root") (lit "_") (lit "_") None).
  intros _. vm_compute. eauto.
Defined.

(** ** Stage 03: placeholder heads in a three-member span *)

(** The form of [awagh_excl] preceded by the left guillemet U+00AB. *)
Definition guil_awagh_excl : list N := 171 :: awagh_excl.

(** C3 (the code departs from the claim). For the single token with the
    form guillemet + word with the mark, the split makes the span 1-3 with
    the base 1, the guillemet 2 and the mark 3; the second pass resolves
    the placeholder head of the guillemet to the base (1) but that of the
    mark to the guillemet (2), the nearest preceding atomic token, and
    not to the first member of the span. *)
Theorem three_member_span_mark_head :
  option_map (List.map (fun t => (Stage03.id t, Stage03.form t, Stage03.head t)))
    (Stage03.renumber_preserving_mwts
       (fst (Stage03.fix_exclamations
          [Stage03.mkToken (lit "1") guil_awagh_excl (lit "l") (lit "INTJ") (lit "_") (lit "_")
                           (lit "0") (lit "root") (lit "_") (lit "_") None])))
  = Some [(lit "1-3", guil_awagh_excl, lit "_");
          (lit "1", awagh, lit "0");
          (lit "2", [171], lit "1");
          (lit "3", [1372], lit "2")].
Proof. vm_compute. reflexivity. Qed.

(** ** Stages 07 and 03: surface forms of the parts of a split *)

Lemma forms_only_punct tk ps :
  List.concat (List.map Stage07.form (List.map (Stage07.only_punct_token tk) ps)) = ps.
Proof. induction ps as [|p ps IH]; cbn; [reflexivity|]. f_equal. exact IH. Qed.

Lemma forms_punct_tokens tk c off ps :
  List.concat (List.map Stage07.form (Stage07.punct_tokens tk c off ps)) = ps.
Proof.
  revert off. induction ps as [|p ps IH]; intros off; cbn; [reflexivity|].
  f_equal. apply IH.
Qed.

(** The non-mark characters of a form followed by its marks, in order. *)
Definition base_then_marks (form : list N) : list N :=
  List.filter (fun ch => negb (Stage07.is_arm_punct ch)) form ++
  List.filter Stage07.is_arm_punct form.

Lemma split_one_changed tk parts :
  Stage07.split_one tk = Some (parts, true) ->
  (exists span atoms,
      parts = span :: atoms /\ Stage07.form span = Stage07.form tk /\
      List.concat (List.map Stage07.form atoms) = base_then_marks (Stage07.form tk))
  \/ (List.concat (List.map Stage07.form parts) = Stage07.form tk /\
      base_then_marks (Stage07.form tk) = Stage07.form tk).
Proof.
  unfold Stage07.split_one.
  destruct (negb (existsb _ Stage07.ARM_PUNCT)); [discriminate|].
  destruct (negb (truthy _)) eqn:Hb.
  - intros [= <-]. right.
    assert (Hnil : List.filter (fun ch => negb (Stage07.is_arm_punct ch)) (Stage07.form tk) = []).
    { destruct (List.filter _ (Stage07.form tk)); [reflexivity|discriminate]. }
    rewrite forms_only_punct. unfold base_then_marks. rewrite Hnil. cbn [app].
    assert (Hall : forall l,
      List.filter (fun ch => negb (Stage07.is_arm_punct ch)) l = [] ->
      List.filter Stage07.is_arm_punct l = l).
    { induction l as [|c l IH]; cbn [List.filter]; [reflexivity|].
      destruct (Stage07.is_arm_punct c); cbn [negb]; [|discriminate].
      intros H. f_equal. exact (IH H). }
    rewrite (Hall _ Hnil). split; reflexivity.
  - destruct (int (Stage07.id tk)) as [c|]; [|discriminate].
    intros [= <-]. left. eexists _, _. split; [reflexivity|]. split; [reflexivity|].
    cbn [List.map List.concat Stage07.with_form Stage07.form].
    rewrite forms_punct_tokens. reflexivity.
Qed.

Lemma contains_nil_false sub : sub <> [] -> contains sub [] = false.
Proof. destruct sub; [congruence|reflexivity]. Qed.

Lemma split_attached_punct_app l1 tk l2 out ch :
  Stage07.split_attached_punct (l1 ++ tk :: l2) = Some (out, ch) ->
  exists o1 c1 parts c o2 c2,
    Stage07.split_attached_punct l1 = Some (o1, c1) /\
    Stage07.split_one tk = Some (parts, c) /\
    Stage07.split_attached_punct l2 = Some (o2, c2) /\
    out = o1 ++ parts ++ o2 /\ ch = c1 || (c || c2).
Proof.
  revert out ch. induction l1 as [|x l1 IH]; intros out ch H.
  - cbn [app Stage07.split_attached_punct] in H.
    destruct (Stage07.split_one tk) as [[parts c]|]; [|discriminate].
    destruct (Stage07.split_attached_punct l2) as [[o2 c2]|]; [|discriminate].
    injection H as <- <-. exists [], false, parts, c, o2, c2. auto.
  - cbn [app Stage07.split_attached_punct] in H.
    destruct (Stage07.split_one x) as [[px cx]|] eqn:Hx; [|discriminate].
    destruct (Stage07.split_attached_punct (l1 ++ tk :: l2)) as [[o c']|]; [|discriminate].
    injection H as <- <-.
    destruct (IH o c' eq_refl) as (o1 & c1 & parts & c & o2 & c2 & H1 & Ht & H2 & -> & ->).
    exists (px ++ o1), (cx || c1), parts, c, o2, c2.
    cbn [Stage07.split_attached_punct]. rewrite Hx, H1.
    repeat split; auto.
    + rewrite <- app_assoc. reflexivity.
    + rewrite orb_assoc. reflexivity.
Qed.

Lemma split_one_mark tk parts c :
  existsb (fun ch => has_char ch (Stage07.form tk)) Stage07.ARM_PUNCT = true ->
  Stage07.split_one tk = Some (parts, c) -> c = true.
Proof.
  intros Hm. unfold Stage07.split_one. rewrite Hm. cbn [negb].
  destruct (negb (truthy _)); [intros [= _ <-]; reflexivity|].
  destruct (int (Stage07.id tk)); [intros [= _ <-]; reflexivity|discriminate].
Qed.

Lemma split_one_base tk parts :
  Stage07.split_one tk = Some (parts, true) ->
  (List.filter (fun ch => negb (Stage07.is_arm_punct ch)) (Stage07.form tk) <> [] /\
   exists span atoms,
      parts = span :: atoms /\ Stage07.form span = Stage07.form tk /\
      List.concat (List.map Stage07.form atoms) = base_then_marks (Stage07.form tk))
  \/ (List.filter (fun ch => negb (Stage07.is_arm_punct ch)) (Stage07.form tk) = [] /\
      List.concat (List.map Stage07.form parts) = Stage07.form tk).
Proof.
  intros Hs. pose proof Hs as Hs'. unfold Stage07.split_one in Hs'.
  destruct (negb (existsb _ Stage07.ARM_PUNCT)); [discriminate|].
  destruct (List.filter (fun ch => negb (Stage07.is_arm_punct ch)) (Stage07.form tk))
    as [|b base] eqn:Hb.
  - right. split; [reflexivity|].
    cbn [truthy negb] in Hs'. injection Hs' as <-. rewrite forms_only_punct.
    revert Hb. generalize (Stage07.form tk). intros l.
    induction l as [|c l IH]; cbn [List.filter]; [reflexivity|].
    destruct (Stage07.is_arm_punct c); cbn [negb]; [|discriminate].
    intros H. f_equal. exact (IH H).
  - left. split; [discriminate|].
    cbn [truthy negb] in Hs'.
    destruct (int (Stage07.id tk)) as [c|]; [|discriminate].
    injection Hs' as <-. eexists _, _. split; [reflexivity|]. split; [reflexivity|].
    cbn [List.map List.concat Stage07.with_form Stage07.form].
    rewrite forms_punct_tokens. unfold base_then_marks. rewrite Hb. reflexivity.
Qed.

(** C4 (amended). A split never loses the original form: the span line
    carries it exactly (in case B of stage 03, the concatenation of the
    two merged forms), and a mark-only token of stage 07 is replaced by
    its marks in order.  In stage 07, whenever the split returns, this
    holds for every token with a mark, wherever the mark stands: the
    parts take the place of the token in the output, the span line has
    the original form, and the atomic parts, in output order, concatenate
    to the non-mark characters followed by the marks.  That is the
    original form when every mark is at the end of the form (stage 07),
    when the form is a word without leading guillemet followed by the one
    mark (stage 03, case A), and when the following token is the bare
    mark (stage 03, case B). *)
Theorem split_parts_forms :
  (forall l1 tk l2 out ch,
     Stage07.split_attached_punct (l1 ++ tk :: l2) = Some (out, ch) ->
     existsb (fun c => has_char c (Stage07.form tk)) Stage07.ARM_PUNCT = true ->
     exists o1 c1 parts o2 c2,
       Stage07.split_attached_punct l1 = Some (o1, c1) /\
       Stage07.split_attached_punct l2 = Some (o2, c2) /\
       out = o1 ++ parts ++ o2 /\ ch = true /\
       ((List.filter (fun c => negb (Stage07.is_arm_punct c)) (Stage07.form tk) <> [] /\
         exists span atoms,
           parts = span :: atoms /\ Stage07.form span = Stage07.form tk /\
           List.concat (List.map Stage07.form atoms) = base_then_marks (Stage07.form tk) /\
           (base_then_marks (Stage07.form tk) = Stage07.form tk ->
            List.concat (List.map Stage07.form atoms) = Stage07.form tk))
        \/
        (List.filter (fun c => negb (Stage07.is_arm_punct c)) (Stage07.form tk) = [] /\
         List.concat (List.map Stage07.form parts) = Stage07.form tk)))
  /\
  (forall cur rest,
     contains Stage03.EXCL (Stage03.form cur) = true ->
     exists span atoms,
       fst (Stage03.fix_exclamations (cur :: rest))
         = span :: atoms ++ fst (Stage03.fix_exclamations rest) /\
       Stage03.form span = Stage03.form cur /\
       Stage03._mwt_span span = Some (Z.of_nat (List.length atoms)) /\
       (startswith (Stage03.form cur) Stage03.LEFT_GUIL = false ->
        Stage03.form cur = Stage03.drop_excl (Stage03.form cur) ++ Stage03.EXCL ->
        List.concat (List.map Stage03.form atoms) = Stage03.form cur))
  /\
  (forall cur nxt rest,
     contains Stage03.EXCL (Stage03.form cur) = false ->
     startswith (Stage03.form nxt) Stage03.EXCL = true ->
     exists span atoms,
       fst (Stage03.fix_exclamations (cur :: nxt :: rest))
         = span :: atoms ++ fst (Stage03.fix_exclamations rest) /\
       Stage03.form span = Stage03.form cur ++ Stage03.form nxt /\
       Stage03._mwt_span span = Some (Z.of_nat (List.length atoms)) /\
       (Stage03.form nxt = Stage03.EXCL ->
        List.concat (List.map Stage03.form atoms) = Stage03.form cur ++ Stage03.form nxt)).
Proof.
  split; [|split].
  - intros l1 tk l2 out ch Hs Hm.
    destruct (split_attached_punct_app l1 tk l2 out ch Hs)
      as (o1 & c1 & parts & c & o2 & c2 & H1 & Ht & H2 & -> & ->).
    pose proof (split_one_mark tk parts c Hm Ht) as ->.
    exists o1, c1, parts, o2, c2. split; [exact H1|]. split; [exact H2|].
    split; [reflexivity|]. split; [apply orb_true_r|].
    destruct (split_one_base tk parts Ht) as [(Hb & span & atoms & -> & Hf & Ha)|[Hb Hc]].
    + left. split; [exact Hb|]. exists span, atoms.
      split; [reflexivity|]. split; [exact Hf|]. split; [exact Ha|].
      intros E. rewrite Ha. exact E.
    + right. split; [exact Hb|exact Hc].
  - intros cur rest Hc. cbn [Stage03.fix_exclamations]. rewrite Hc.
    destruct (startswith (Stage03.form cur) Stage03.LEFT_GUIL &&
              (1 <? List.length (Stage03.form cur))%nat) eqn:Hg.
    + eexists _, [_; _; _]. cbn [fst app]. split; [reflexivity|].
      split; [reflexivity|]. split; [reflexivity|].
      apply andb_prop in Hg as [Hg _]. intros Hn. congruence.
    + eexists _, [_; _]. cbn [fst app]. split; [reflexivity|].
      split; [reflexivity|]. split; [reflexivity|].
      intros _ Hf. cbn [List.map List.concat Stage03.form Stage03.with_form Stage03.excl_token].
      rewrite app_nil_r. symmetry. exact Hf.
  - intros cur nxt rest Hc Hn. cbn [Stage03.fix_exclamations]. rewrite Hc, Hn.
    eexists _, [_; _]. cbn [fst app]. split; [reflexivity|].
    split; [reflexivity|]. split; [reflexivity|].
    intros ->. cbn [List.map List.concat Stage03.form Stage03.with_id Stage03.excl_token].
    rewrite app_nil_r. reflexivity.
Qed.

Definition tok07m (i : string) (f : list N) : Stage07.Tok :=
  Stage07.mkTok (lit i) f (lit "l") (lit "X") (lit "_") (lit "_") (lit "0") (lit "root")
                (lit "_") (lit "_").

(** The three parts at work: in stage 07 a word with the mark inside it,
    between two plain tokens; in stage 03 a word with a final mark and a
    word followed by the bare mark. *)
Lemma split_parts_forms_witness :
  (exists o1 parts o2 span atoms,
      Stage07.split_attached_punct
        ([tok07m "1" [1377]] ++ tok07m "2" [1329; 1410; 1377; 1372; 1394] :: [tok07m "3" [1378]])
        = Some (o1 ++ parts ++ o2, true) /\
      o1 = [tok07m "1" [1377]] /\ o2 = [tok07m "3" [1378]] /\
      parts = span :: atoms /\
      Stage07.form span = [1329; 1410; 1377; 1372; 1394] /\
      List.concat (List.map Stage07.form atoms) = [1329; 1410; 1377; 1394; 1372])
  /\
  (exists span atoms,
      fst (Stage03.fix_exclamations
             [Stage03.mkToken (lit "1") [1329; 1410; 1377; 1372] (lit "l") (lit "X") (lit "_")
                (lit "_") (lit "0") (lit "root") (lit "_") (lit "_") None]) = span :: atoms /\
      List.concat (List.map Stage03.form atoms) = [1329; 1410; 1377; 1372])
  /\
  (exists span atoms,
      fst (Stage03.fix_exclamations
             [Stage03.mkToken (lit "1") [1329; 1410; 1377] (lit "l") (lit "X") (lit "_")
                (lit "_") (lit "0") (lit "root") (lit "_") (lit "_") None;
              Stage03.mkToken (lit "2") [1372] (lit "l") (lit "X") (lit "_")
                (lit "_") (lit "1") (lit "dep") (lit "_") (lit "_") None]) = span :: atoms /\
      List.concat (List.map Stage03.form atoms) = [1329; 1410; 1377; 1372]).
Proof.
  destruct split_parts_forms as (H07 & HA & HB).
  split; [|split].
  - destruct (H07 [tok07m "1" [1377]] (tok07m "2" [1329; 1410; 1377; 1372; 1394])
                  [tok07m "3" [1378]] _ _ eq_refl eq_refl)
      as (o1 & c1 & parts & o2 & c2 & H1 & H2 & Hout & _ & [(_ & span & atoms & Hp & Hf & Ha & _)|[Hb _]]).
    + exists o1, parts, o2, span, atoms.
      split; [rewrite <- Hout; reflexivity|].
      split; [injection H1 as <- _; reflexivity|].
      split; [injection H2 as <- _; reflexivity|].
      split; [exact Hp|]. split; [exact Hf|exact Ha].
    + discriminate Hb.
  - destruct (HA (Stage03.mkToken (lit "1") [1329; 1410; 1377; 1372] (lit "l") (lit "X") (lit "_")
                    (lit "_") (lit "0") (lit "root") (lit "_") (lit "_") None) [] eq_refl)
      as (span & atoms & Hp & _ & _ & Hf).
    exists span, atoms. split.
    + rewrite Hp. cbn [Stage03.fix_exclamations fst]. f_equal. apply app_nil_r.
    + apply Hf; reflexivity.
  - destruct (HB (Stage03.mkToken (lit "1") [1329; 1410; 1377] (lit "l") (lit "X") (lit "_")
                    (lit "_") (lit "0") (lit "root") (lit "_") (lit "_") None)
                 (Stage03.mkToken (lit "2") [1372] (lit "l") (lit "X") (lit "_")
                    (lit "_") (lit "1") (lit "dep") (lit "_") (lit "_") None) [] eq_refl eq_refl)
      as (span & atoms & Hp & _ & _ & Hf).
    exists span, atoms. split.
    + rewrite Hp. cbn [Stage03.fix_exclamations fst]. f_equal. apply app_nil_r.
    + apply Hf; reflexivity.
Defined.

(** C4 as stated fails: with the mark inside the word, the parts of stage
    07 spell the word with the mark moved to the end; with a leading
    guillemet, stage 03 puts the guillemet after the base; in case B the
    rest of the following token is in no part. *)
Lemma split_parts_forms_counterexample :
  (exists parts,
      Stage07.split_one (Stage07.mkTok (lit "1") awagh_excl (lit "l") (lit "X")
                           (lit "_") (lit "_") (lit "0") (lit "root") (lit "_") (lit "_"))
        = Some (parts, true) /\
      List.concat (List.map Stage07.form (List.tl parts)) = [1329; 1410; 1377; 1394; 1372] /\
      List.concat (List.map Stage07.form (List.tl parts)) <> awagh_excl)
  /\
  (exists parts,
      fst (Stage03.fix_exclamations
             [Stage03.mkToken (lit "1") guil_awagh_excl (lit "l") (lit "X") (lit "_")
                (lit "_") (lit "0") (lit "root") (lit "_") (lit "_") None]) = parts /\
      List.concat (List.map Stage03.form (List.tl parts)) = [1329; 1410; 1377; 1394; 171; 1372] /\
      List.concat (List.map Stage03.form (List.tl parts)) <> guil_awagh_excl)
  /\
  (exists parts,
      fst (Stage03.fix_exclamations
             [Stage03.mkToken (lit "1") [1329; 1410; 1377] (lit "l") (lit "X") (lit "_")
                (lit "_") (lit "0") (lit "root") (lit "_") (lit "_") None;
              Stage03.mkToken (lit "2") [1372; 1394] (lit "l") (lit "X") (lit "_")
                (lit "_") (lit "1") (lit "dep") (lit "_") (lit "_") None]) = parts /\
      List.concat (List.map Stage03.form (List.tl parts)) = [1329; 1410; 1377; 1372] /\
      List.concat (List.map Stage03.form (List.tl parts)) <> awagh_excl).
Proof.
  split; [|split]; eexists; (split; [reflexivity|]); split; try reflexivity;
    intros E; discriminate E.
Qed.

(** ** Facts about the string operations *)

Definition is_asciidigit (c : N) : bool := (48 <=? c) && (c <=? 57).

Definition digit_step (a : N) (c : N) : N := 10 * a + (c - 48).

Lemma asciidigit_cases c :
  is_asciidigit c = true ->
  c = 48 \/ c = 49 \/ c = 50 \/ c = 51 \/ c = 52 \/ c = 53 \/ c = 54 \/ c = 55 \/ c = 56 \/ c = 57.
Proof.
  unfold is_asciidigit. intros H. apply andb_prop in H as [H1 H2].
  apply N.leb_le in H1, H2. lia.
Qed.

Lemma decimal_value_ascii c : is_asciidigit c = true -> decimal_value c = Some (c - 48).
Proof.
  intros H. apply asciidigit_cases in H.
  repeat (destruct H as [->|H]; [vm_compute; reflexivity|]). subst. vm_compute. reflexivity.
Qed.

Lemma asciidigit_props c :
  is_asciidigit c = true ->
  isspace c = false /\ isdigit_char c = true /\ (c =? 45) = false /\ (c =? 43) = false
  /\ is_linebreak c = false /\ (c =? 9) = false /\ (c =? 35) = false.
Proof.
  intros H. apply asciidigit_cases in H.
  repeat (destruct H as [->|H]; [vm_compute; auto 10|]). subst. vm_compute. auto 10.
Qed.

Lemma int_body_ascii s acc :
  forallb is_asciidigit s = true -> int_body acc s = Some (fold_left digit_step s acc).
Proof.
  revert acc. induction s as [|c s IH]; intros acc H; cbn [int_body fold_left]; [reflexivity|].
  cbn [forallb] in H. apply andb_prop in H as [Hc Hs].
  rewrite (decimal_value_ascii c Hc). apply IH. exact Hs.
Qed.

Lemma digits_go_ascii fuel n acc :
  forallb is_asciidigit acc = true -> forallb is_asciidigit (digits_go fuel n acc) = true.
Proof.
  revert n acc. induction fuel as [|f IH]; intros n acc H; cbn [digits_go]; [exact H|].
  assert (Hd : is_asciidigit (48 + n mod 10) = true).
  { unfold is_asciidigit. assert (n mod 10 < 10) by (apply N.mod_upper_bound; lia).
    revert H0. generalize (n mod 10). intros m Hm.
    apply andb_true_intro. split; apply N.leb_le; lia. }
  destruct (n <? 10).
  - cbn [forallb]. rewrite Hd, H. reflexivity.
  - apply IH. cbn [forallb]. rewrite Hd, H. reflexivity.
Qed.

Lemma digits_go_eval fuel n acc :
  n < 2 ^ N.of_nat fuel ->
  fold_left digit_step (digits_go fuel n acc) 0 = fold_left digit_step acc n.
Proof.
  revert n acc. induction fuel as [|f IH]; intros n acc H.
  - cbn in H. assert (n = 0) by lia. subst. reflexivity.
  - cbn [digits_go]. destruct (n <? 10) eqn:Hlt.
    + apply N.ltb_lt in Hlt. cbn [fold_left]. f_equal. unfold digit_step.
      rewrite N.mod_small by exact Hlt. clear IH. lia.
    + apply N.ltb_ge in Hlt. rewrite IH.
      * cbn [fold_left]. f_equal. unfold digit_step.
        pose proof (N.div_mod n 10 ltac:(lia)) as Hdm.
        assert (Hm : n mod 10 < 10) by (apply N.mod_upper_bound; lia).
        clear IH. revert Hdm Hm. generalize (n mod 10) (n / 10). intros m q Hdm Hm. lia.
      * rewrite Nat2N.inj_succ, N.pow_succ_r' in H.
        apply N.Div0.div_lt_upper_bound. clear IH. lia.
Qed.

Lemma digits_go_app fuel n acc : exists ds, digits_go fuel n acc = ds ++ acc /\ (fuel <> 0%nat -> ds <> []).
Proof.
  revert n acc. induction fuel as [|f IH]; intros n acc; cbn [digits_go].
  - exists []. split; [reflexivity|congruence].
  - destruct (n <? 10).
    + exists [48 + n mod 10]. split; [reflexivity|discriminate].
    + destruct (IH (n / 10) ((48 + n mod 10) :: acc)) as (ds & -> & _).
      exists (ds ++ [48 + n mod 10]). rewrite <- app_assoc. split; [reflexivity|].
      intros _. destruct ds; discriminate.
Qed.

Lemma str_of_N_ascii n : forallb is_asciidigit (str_of_N n) = true.
Proof. apply digits_go_ascii. reflexivity. Qed.

Lemma str_of_N_nonempty n : str_of_N n <> [].
Proof.
  unfold str_of_N. destruct (digits_go_app (S (N.to_nat (N.size n))) n []) as (ds & -> & H).
  rewrite app_nil_r. apply H. discriminate.
Qed.

Lemma str_of_N_eval n : fold_left digit_step (str_of_N n) 0 = n.
Proof.
  unfold str_of_N. rewrite digits_go_eval; [reflexivity|].
  rewrite Nat2N.inj_succ, N2Nat.id, N.pow_succ_r'.
  pose proof (N.size_gt n). lia.
Qed.

Lemma forallb_impl {A} (P Q : A -> bool) (l : list A) :
  (forall x, P x = true -> Q x = true) -> forallb P l = true -> forallb Q l = true.
Proof.
  intros HPQ. induction l as [|x l IH]; cbn [forallb]; [reflexivity|].
  intros H. apply andb_prop in H as [Hx Hl]. rewrite (HPQ x Hx), (IH Hl). reflexivity.
Qed.

Lemma lstrip_by_none f s : forallb (fun c => negb (f c)) s = true -> lstrip_by f s = s.
Proof.
  destruct s as [|c s]; [reflexivity|]. cbn [forallb lstrip_by]. intros H.
  apply andb_prop in H as [Hc _]. destruct (f c); [discriminate|reflexivity].
Qed.

Lemma forallb_rev {A} (P : A -> bool) l : forallb P (rev l) = forallb P l.
Proof.
  induction l as [|x l IH]; [reflexivity|]. cbn [rev forallb].
  rewrite forallb_app, IH. cbn [forallb]. rewrite andb_true_r. apply andb_comm.
Qed.

Lemma rstrip_by_none f s : forallb (fun c => negb (f c)) s = true -> rstrip_by f s = s.
Proof.
  intros H. unfold rstrip_by. rewrite lstrip_by_none.
  - apply rev_involutive.
  - rewrite forallb_rev. exact H.
Qed.

Lemma strip_none s : forallb (fun c => negb (isspace c)) s = true -> strip s = s.
Proof. intros H. unfold strip. rewrite (lstrip_by_none _ _ H). apply rstrip_by_none, H. Qed.

Lemma contains_char c s : contains [c] s = existsb (N.eqb c) s.
Proof.
  induction s as [|x s IH]; [reflexivity|].
  cbn [contains startswith existsb]. rewrite IH. destruct (c =? x), s; reflexivity.
Qed.

Lemma digits_no_space s :
  forallb is_asciidigit s = true -> forallb (fun c => negb (isspace c)) s = true.
Proof.
  apply forallb_impl. intros c Hc. destruct (asciidigit_props c Hc) as (-> & _). reflexivity.
Qed.

Lemma digits_no_hyphen s : forallb is_asciidigit s = true -> contains [45] s = false.
Proof.
  rewrite contains_char. induction s as [|c s IH]; [reflexivity|].
  cbn [forallb existsb]. intros H. apply andb_prop in H as [Hc Hs].
  destruct (asciidigit_props c Hc) as (_ & _ & H45 & _).
  rewrite N.eqb_sym, H45. exact (IH Hs).
Qed.

Lemma digits_isdigit s : s <> [] -> forallb is_asciidigit s = true -> isdigit s = true.
Proof.
  intros Hne H. unfold isdigit. destruct s as [|c s]; [congruence|].
  cbn [truthy andb]. revert H. apply forallb_impl.
  intros x Hx. apply (asciidigit_props x Hx).
Qed.

Lemma int_digits s :
  s <> [] -> forallb is_asciidigit s = true ->
  int s = Some (Z.of_N (fold_left digit_step s 0)).
Proof.
  intros Hne H. unfold int. rewrite (strip_none s (digits_no_space s H)).
  destruct s as [|c r]; [congruence|].
  cbn [forallb] in H. apply andb_prop in H as [Hc Hr].
  destruct (asciidigit_props c Hc) as (_ & _ & H45 & H43 & _).
  rewrite H43, H45. unfold int_unsigned.
  rewrite (decimal_value_ascii c Hc), (int_body_ascii r _ Hr). reflexivity.
Qed.

Lemma isdigit_str_of_N n : isdigit (str_of_N n) = true.
Proof. apply digits_isdigit; [apply str_of_N_nonempty|apply str_of_N_ascii]. Qed.

Lemma int_str_of_N n : int (str_of_N n) = Some (Z.of_N n).
Proof.
  rewrite int_digits; [|apply str_of_N_nonempty|apply str_of_N_ascii].
  rewrite str_of_N_eval. reflexivity.
Qed.

(** [int(str(z)) = z] *)
Lemma int_str_of_Z z : int (str_of_Z z) = Some z.
Proof.
  destruct z as [|p|p]; cbn [str_of_Z].
  - reflexivity.
  - rewrite int_str_of_N. reflexivity.
  - unfold int. rewrite strip_none.
    + change ((45 =? 43)) with false. change ((45 =? 45)) with true. cbv iota.
      pose proof (str_of_N_ascii (Npos p)) as H. pose proof (str_of_N_nonempty (Npos p)) as Hne.
      destruct (str_of_N (Npos p)) as [|c r] eqn:E; [congruence|].
      cbn [forallb] in H. apply andb_prop in H as [Hc Hr].
      unfold int_unsigned. rewrite (decimal_value_ascii c Hc), (int_body_ascii r _ Hr).
      cbn [option_map]. f_equal.
      pose proof (str_of_N_eval (Npos p)) as He. rewrite E in He. cbn [fold_left] in He.
      change (digit_step 0 c) with (10 * 0 + (c - 48)) in He.
      replace (c - 48) with (10 * 0 + (c - 48)) by lia. rewrite He. reflexivity.
    + cbn [forallb]. change (negb (isspace 45)) with true. cbn [andb].
      apply digits_no_space, str_of_N_ascii.
Qed.

Lemma str_of_Z_inj a b : str_of_Z a = str_of_Z b -> a = b.
Proof.
  intros H. pose proof (int_str_of_Z a) as Ha. rewrite H, int_str_of_Z in Ha. congruence.
Qed.

Lemma str_of_Z_nonneg_digits z : (0 <= z)%Z -> forallb is_asciidigit (str_of_Z z) = true.
Proof. destruct z; [intros _..|lia]; apply str_of_N_ascii. Qed.

Lemma str_of_Z_nonempty z : str_of_Z z <> [].
Proof. destruct z; cbn [str_of_Z]; [apply str_of_N_nonempty..|discriminate]. Qed.

(** ** Stage 42: the ids assigned by the renumbering *)

Lemma dict_get_set_eq k v d : Stage42.dict_get k (Stage42.dict_set k v d) = Some v.
Proof.
  induction d as [|[k' v'] d IH]; cbn [Stage42.dict_set Stage42.dict_get].
  - rewrite bool_decide_eq_true_2 by reflexivity. reflexivity.
  - destruct (bool_decide (k' = k)) eqn:E; cbn [Stage42.dict_get]; rewrite E; [reflexivity|exact IH].
Qed.

Lemma dict_get_set_ne k k' v d :
  k <> k' -> Stage42.dict_get k' (Stage42.dict_set k v d) = Stage42.dict_get k' d.
Proof.
  intros Hne. induction d as [|[k0 v0] d IH]; cbn [Stage42.dict_set Stage42.dict_get].
  - rewrite bool_decide_eq_false_2 by exact Hne. reflexivity.
  - destruct (bool_decide (k0 = k)) eqn:E; cbn [Stage42.dict_get].
    + apply bool_decide_eq_true_1 in E. subst k0.
      rewrite bool_decide_eq_false_2 by exact Hne. reflexivity.
    + rewrite IH. reflexivity.
Qed.

Lemma dict_set_same k v d : Stage42.dict_get k d = Some v -> Stage42.dict_set k v d = d.
Proof.
  induction d as [|[k0 v0] d IH]; cbn [Stage42.dict_set Stage42.dict_get]; [discriminate|].
  destruct (bool_decide (k0 = k)) eqn:E.
  - intros [= ->]. reflexivity.
  - intros H. rewrite (IH H). reflexivity.
Qed.

(** The id a token carries after [rewrite_token]. *)
Definition new_id_of (id_map : gmap (list N) (list N)) (t : Stage42.TokenLine) : list N :=
  match id_map !! Stage42.get_tid t with
  | Some v => v
  | None => Stage42.get_tid t
  end.

Lemma id_neq_head : Stage42.ID <> Stage42.HEAD_ID. Proof. discriminate. Qed.
Lemma id_neq_rel : Stage42.ID <> Stage42.REL. Proof. discriminate. Qed.
Lemma head_neq_rel : Stage42.HEAD_ID <> Stage42.REL. Proof. discriminate. Qed.

Lemma rewrite_token_tid id_map t :
  Stage42.get_tid (fst (Stage42.rewrite_token id_map t)) = new_id_of id_map t.
Proof.
  unfold Stage42.rewrite_token, Stage42.get_tid at 1, new_id_of, Stage42.get_tid.
  cbn [fst Stage42.attrs].
  set (tid := match Stage42.dict_get Stage42.ID (Stage42.attrs t) with Some v => v | None => [] end).
  set (nid := match id_map !! tid with Some v => v | None => tid end).
  set (a1 := Stage42.dict_set Stage42.ID nid (Stage42.attrs t)).
  set (a2 := Stage42.dict_set Stage42.HEAD_ID _ a1).
  assert (H2 : Stage42.dict_get Stage42.ID a2 = Some nid).
  { unfold a2. rewrite dict_get_set_ne by (intros E; symmetry in E; exact (id_neq_head E)).
    apply dict_get_set_eq. }
  destruct (Stage42.dict_get Stage42.REL a2).
  - rewrite dict_get_set_ne by (intros E; symmetry in E; exact (id_neq_rel E)).
    rewrite H2. reflexivity.
  - rewrite H2. reflexivity.
Qed.

(** The ids of the atomic (non-hyphenated) tokens, in order. *)
Definition atomic_ids (toks : list Stage42.TokenLine) : list (list N) :=
  List.filter (fun tid => negb (Stage42.is_hyphen_id tid)) (List.map Stage42.get_tid toks).

Definition ids_present (toks : list Stage42.TokenLine) : Prop :=
  Forall (fun t => truthy (Stage42.get_tid t) = true) toks.

Lemma atomic_ids_app l1 l2 : atomic_ids (l1 ++ l2) = atomic_ids l1 ++ atomic_ids l2.
Proof. unfold atomic_ids. rewrite List.map_app, List.filter_app. reflexivity. Qed.

Lemma assign_keeps toks m c k v :
  m !! k = Some v -> Stage42.assign_ids toks m c !! k = Some v.
Proof.
  revert m c. induction toks as [|t toks IH]; intros m c H; cbn [Stage42.assign_ids]; [exact H|].
  destruct (negb (truthy (Stage42.get_tid t))); [apply IH, H|].
  destruct (negb (Stage42.is_hyphen_id (Stage42.get_tid t))); cbn [andb]; [|apply IH, H].
  destruct (bool_decide (is_Some (m !! Stage42.get_tid t))) eqn:E; cbn [negb]; [apply IH, H|].
  apply IH. apply bool_decide_eq_false_1 in E.
  rewrite lookup_insert_ne; [exact H|]. intros Heq. apply E. rewrite Heq, H. eauto.
Qed.

Lemma assign_keys toks m c k v :
  Stage42.assign_ids toks m c !! k = Some v ->
  m !! k = Some v \/ Stage42.is_hyphen_id k = false.
Proof.
  revert m c. induction toks as [|t toks IH]; intros m c; cbn [Stage42.assign_ids]; [auto|].
  destruct (negb (truthy (Stage42.get_tid t))); [apply IH|].
  destruct (negb (Stage42.is_hyphen_id (Stage42.get_tid t))) eqn:Hh; cbn [andb]; [|apply IH].
  destruct (bool_decide (is_Some (m !! Stage42.get_tid t))); cbn [negb]; [apply IH|].
  intros H. apply IH in H as [H|H]; [|auto].
  destruct (decide (Stage42.get_tid t = k)) as [<-|Hne].
  - right. apply negb_true_iff in Hh. exact Hh.
  - rewrite lookup_insert_ne in H by exact Hne. auto.
Qed.

Lemma assign_lookup toks :
  forall m c,
    ids_present toks ->
    List.NoDup (atomic_ids toks) ->
    (forall a, In a (atomic_ids toks) -> m !! a = None) ->
    forall j a, List.nth_error (atomic_ids toks) j = Some a ->
      Stage42.assign_ids toks m c !! a = Some (str_of_Z (c + Z.of_nat j)).
Proof.
  induction toks as [|t toks IH]; intros m c Hp Hnd Hfree j a Hj.
  - destruct j; discriminate Hj.
  - apply Forall_cons_iff in Hp as [Ht Hp].
    cbn [Stage42.assign_ids]. rewrite Ht. cbn [negb].
    unfold atomic_ids in Hnd, Hfree, Hj. cbn [List.map List.filter] in Hnd, Hfree, Hj.
    fold (atomic_ids toks) in Hnd, Hfree, Hj.
    destruct (negb (Stage42.is_hyphen_id (Stage42.get_tid t))) eqn:Hh; cbn [andb].
    + assert (Hnone : m !! Stage42.get_tid t = None) by (apply Hfree; left; reflexivity).
      rewrite bool_decide_eq_false_2 by (rewrite Hnone; intros [x Hx]; discriminate Hx).
      cbn [negb]. apply List.NoDup_cons_iff in Hnd as [Hnotin Hnd].
      destruct j as [|j].
      * injection Hj as <-. rewrite Z.add_0_r. apply assign_keeps. apply lookup_insert_eq.
      * cbn [List.nth_error] in Hj.
        replace (c + Z.of_nat (S j))%Z with (c + 1 + Z.of_nat j)%Z by lia.
        apply (IH _ _ Hp Hnd); [|exact Hj].
        intros a' Ha'. rewrite lookup_insert_ne.
        -- apply Hfree. right. exact Ha'.
        -- intros E. apply Hnotin. rewrite E. exact Ha'.
    + apply (IH _ _ Hp Hnd Hfree j a Hj).
Qed.

Lemma map_hyphen_nonhyphen toks m k :
  Stage42.is_hyphen_id k = false -> Stage42.map_hyphen_ids toks m !! k = m !! k.
Proof.
  intros Hk. revert m. induction toks as [|t toks IH]; intros m; cbn [Stage42.map_hyphen_ids];
    [reflexivity|].
  destruct (negb (truthy (Stage42.get_tid t)) || negb (Stage42.is_hyphen_id (Stage42.get_tid t)))
    eqn:E; [apply IH|].
  apply orb_false_elim in E as [_ E]. apply negb_false_iff in E.
  destruct (split1 Stage42.HYPHEN (Stage42.get_tid t)) as [|a [|b [|? ?]]]; try apply IH.
  destruct (m !! a); [|apply IH]. destruct (m !! b); [|apply IH].
  rewrite IH. apply lookup_insert_ne. intros E'. rewrite E' in E. congruence.
Qed.

Lemma is_hyphen_app a b : Stage42.is_hyphen_id (a ++ Stage42.HYPHEN ++ b) = true.
Proof.
  unfold Stage42.is_hyphen_id, Stage42.HYPHEN. rewrite contains_char, existsb_app.
  cbn [app existsb]. rewrite N.eqb_refl. cbn [orb]. apply orb_true_r.
Qed.

Lemma map_hyphen_values toks m :
  (forall k v, m !! k = Some v -> Stage42.is_hyphen_id k = true -> Stage42.is_hyphen_id v = true) ->
  forall k v, Stage42.map_hyphen_ids toks m !! k = Some v ->
              Stage42.is_hyphen_id k = true -> Stage42.is_hyphen_id v = true.
Proof.
  revert m. induction toks as [|t toks IH]; intros m Hm; cbn [Stage42.map_hyphen_ids];
    [exact Hm|].
  destruct (negb (truthy (Stage42.get_tid t)) || negb (Stage42.is_hyphen_id (Stage42.get_tid t)));
    [apply IH, Hm|].
  destruct (split1 Stage42.HYPHEN (Stage42.get_tid t)) as [|a [|b [|? ?]]]; try apply IH, Hm.
  destruct (m !! a); [|apply IH, Hm]. destruct (m !! b); [|apply IH, Hm].
  apply IH. intros k v Hk Hh.
  destruct (decide (Stage42.get_tid t = k)) as [<-|Hne].
  - rewrite lookup_insert_eq in Hk. injection Hk as <-. apply is_hyphen_app.
  - rewrite lookup_insert_ne in Hk by exact Hne. exact (Hm k v Hk Hh).
Qed.

Lemma build_hyphen_values toks k v :
  Stage42.build_id_mapping toks !! k = Some v ->
  Stage42.is_hyphen_id k = true -> Stage42.is_hyphen_id v = true.
Proof.
  unfold Stage42.build_id_mapping. apply map_hyphen_values.
  intros k' v' H Hh. apply assign_keys in H as [H|H].
  - rewrite lookup_empty in H. discriminate H.
  - congruence.
Qed.

Lemma build_atomic_lookup toks j a :
  ids_present toks -> List.NoDup (atomic_ids toks) ->
  List.nth_error (atomic_ids toks) j = Some a ->
  Stage42.build_id_mapping toks !! a = Some (str_of_Z (1 + Z.of_nat j)).
Proof.
  intros Hp Hnd Hj. unfold Stage42.build_id_mapping.
  assert (Ha : Stage42.is_hyphen_id a = false).
  { apply List.nth_error_In in Hj. unfold atomic_ids in Hj.
    apply List.filter_In in Hj as [_ Hj]. apply negb_true_iff in Hj. exact Hj. }
  rewrite map_hyphen_nonhyphen by exact Ha.
  apply assign_lookup; auto.
Qed.

Definition decimal (k : nat) : list N := str_of_Z (Z.of_nat k).

Lemma decimal_not_hyphen k : Stage42.is_hyphen_id (decimal k) = false.
Proof. apply digits_no_hyphen, str_of_Z_nonneg_digits. lia. Qed.

Definition tids_atomic (tids : list (list N)) : list (list N) :=
  List.filter (fun tid => negb (Stage42.is_hyphen_id tid)) tids.

Lemma atomic_ids_cons t toks :
  atomic_ids (t :: toks)
  = (if Stage42.is_hyphen_id (Stage42.get_tid t) then [] else [Stage42.get_tid t]) ++ atomic_ids toks.
Proof.
  unfold atomic_ids. cbn [List.map List.filter].
  destruct (Stage42.is_hyphen_id (Stage42.get_tid t)); reflexivity.
Qed.

Lemma renumber_suffix toks :
  ids_present toks -> List.NoDup (atomic_ids toks) ->
  forall suf pre, toks = pre ++ suf ->
    atomic_ids (List.map (fun t => fst (Stage42.rewrite_token (Stage42.build_id_mapping toks) t)) suf)
    = List.map decimal (seq (1 + List.length (atomic_ids pre)) (List.length (atomic_ids suf))).
Proof.
  intros Hp Hnd. induction suf as [|t suf IH]; intros pre Heq; [reflexivity|].
  specialize (IH (pre ++ [t])). rewrite <- app_assoc in IH. specialize (IH Heq).
  rewrite atomic_ids_app, (atomic_ids_cons t []) in IH.
  cbn [List.map]. rewrite !atomic_ids_cons, rewrite_token_tid.
  destruct (Stage42.is_hyphen_id (Stage42.get_tid t)) eqn:Hh.
  - change (atomic_ids []) with (@nil (list N)) in IH. rewrite !app_nil_r in IH.
    assert (Hn : Stage42.is_hyphen_id (new_id_of (Stage42.build_id_mapping toks) t) = true).
    { unfold new_id_of. destruct (_ !! _) eqn:E; [|exact Hh].
      exact (build_hyphen_values toks _ _ E Hh). }
    rewrite Hn. exact IH.
  - assert (Hl : Stage42.build_id_mapping toks !! Stage42.get_tid t
                 = Some (decimal (1 + List.length (atomic_ids pre)))).
    { unfold decimal. rewrite Nat2Z.inj_add. apply build_atomic_lookup; auto.
      rewrite Heq, atomic_ids_app. rewrite List.nth_error_app2 by lia.
      rewrite Nat.sub_diag, atomic_ids_cons, Hh. reflexivity. }
    unfold new_id_of. rewrite Hl, decimal_not_hyphen.
    cbn [app List.length seq List.map]. f_equal. rewrite IH.
    change (atomic_ids []) with (@nil (list N)). rewrite List.length_app. cbn [List.length app].
    replace (1 + (List.length (atomic_ids pre) + 1))%nat
      with (S (1 + List.length (atomic_ids pre)))%nat by lia.
    reflexivity.
Qed.

(** C1 (amended). When every token carries a non-empty id and the ids of
    the atomic (non-hyphenated) tokens are pairwise distinct, whatever
    their order or spelling, the renumbering gives the atomic tokens the
    ids 1, 2, ..., N in order, N being their number. *)
Theorem renumber_ids_sequential (toks : list Stage42.TokenLine) :
  ids_present toks ->
  List.NoDup (atomic_ids toks) ->
  atomic_ids (fst (Stage42.renumber toks))
  = List.map decimal (seq 1 (List.length (atomic_ids toks))).
Proof.
  intros Hp Hnd. unfold Stage42.renumber. cbn [fst]. rewrite List.map_map.
  apply (renumber_suffix toks Hp Hnd toks []). reflexivity.
Qed.

Definition kv (k v : string) : list N * list N := (lit k, lit v).

Definition token42 (kvs : list (list N * list N)) : Stage42.TokenLine :=
  Stage42.mkTokenLine (lit "  ") kvs (List.map fst kvs).

(** Out-of-order and placeholder ids: 5, 3-7, 3, X, 7 become 1, 2-4, 2, 3, 4. *)
Lemma renumber_ids_sequential_witness :
  List.map Stage42.get_tid
    (fst (Stage42.renumber
            [token42 [kv "id" "5"; kv "head-id" "3"]; token42 [kv "id" "3-7"];
             token42 [kv "id" "3"]; token42 [kv "id" "X"; kv "head-id" "5"];
             token42 [kv "id" "7"; kv "head-id" "X"]]))
  = [lit "1"; lit "2-4"; lit "2"; lit "3"; lit "4"]
  /\ atomic_ids
       (fst (Stage42.renumber
            [token42 [kv "id" "5"; kv "head-id" "3"]; token42 [kv "id" "3-7"];
             token42 [kv "id" "3"]; token42 [kv "id" "X"; kv "head-id" "5"];
             token42 [kv "id" "7"; kv "head-id" "X"]]))
     = [lit "1"; lit "2"; lit "3"; lit "4"].
Proof.
  split; [vm_compute; reflexivity|].
  apply (renumber_ids_sequential
           [token42 [kv "id" "5"; kv "head-id" "3"]; token42 [kv "id" "3-7"];
            token42 [kv "id" "3"]; token42 [kv "id" "X"; kv "head-id" "5"];
            token42 [kv "id" "7"; kv "head-id" "X"]]).
  - repeat constructor.
  - vm_compute. repeat constructor; cbn; intuition discriminate.
Defined.

(** C1 as stated fails: two tokens that share the old id 5 both receive
    the new id 1; the atomic ids of the output are 1, 1, 2 and not 1, 2, 3. *)
Lemma renumber_ids_sequential_counterexample :
  atomic_ids
    (fst (Stage42.renumber
            [token42 [kv "id" "5"; kv "form" "a"]; token42 [kv "id" "5"; kv "form" "b"];
             token42 [kv "id" "3"; kv "form" "c"]]))
  = [lit "1"; lit "1"; lit "2"]
  /\ atomic_ids
       (fst (Stage42.renumber
            [token42 [kv "id" "5"; kv "form" "a"]; token42 [kv "id" "5"; kv "form" "b"];
             token42 [kv "id" "3"; kv "form" "c"]]))
     <> List.map decimal (seq 1 3).
Proof. split; [vm_compute; reflexivity|]. vm_compute. intros E. discriminate E. Qed.

(** ** Stages 42 and 07: heads that are not in the id map *)

Lemma rewrite_token_head id_map t :
  Stage42.dict_get Stage42.HEAD_ID (Stage42.attrs (fst (Stage42.rewrite_token id_map t)))
  = Some (Stage42.map_head_id (Stage42.dict_get Stage42.HEAD_ID (Stage42.attrs t)) id_map
            (Stage42.is_hyphen_id (new_id_of id_map t))).
Proof.
  unfold Stage42.rewrite_token, new_id_of, Stage42.get_tid. cbn [fst Stage42.attrs].
  set (tid := match Stage42.dict_get Stage42.ID (Stage42.attrs t) with Some v => v | None => [] end).
  set (nid := match id_map !! tid with Some v => v | None => tid end).
  rewrite (dict_get_set_ne Stage42.ID Stage42.HEAD_ID) by exact id_neq_head.
  set (a2 := Stage42.dict_set Stage42.HEAD_ID _ _).
  assert (H2 : Stage42.dict_get Stage42.HEAD_ID a2
               = Some (Stage42.map_head_id (Stage42.dict_get Stage42.HEAD_ID (Stage42.attrs t))
                         id_map (Stage42.is_hyphen_id nid))).
  { unfold a2. apply dict_get_set_eq. }
  destruct (Stage42.dict_get Stage42.REL a2).
  - rewrite dict_get_set_ne by (intros E; symmetry in E; exact (head_neq_rel E)). exact H2.
  - exact H2.
Qed.

Lemma map_head_id_dangling id_map h b :
  truthy h = true -> h <> lit "_" -> id_map !! h = None ->
  Stage42.map_head_id (Some h) id_map b = h.
Proof.
  intros Ht Hu Hn. unfold Stage42.map_head_id. rewrite Ht. cbn [negb orb].
  rewrite bool_decide_eq_false_2 by exact Hu. rewrite Hn. reflexivity.
Qed.

(** The tokens that the loop of stage 07 keeps: those whose id contains a
    hyphen or is a decimal number; every other token falls through the
    two tests and is left out of [new_list]. *)
Definition kept07 (tk : Stage07.Tok) : bool :=
  contains Stage07.HYPHEN (Stage07.id tk) || isdigit (Stage07.id tk).

(** Whether [h] is the number of a decimal id of the sentence: only such
    numbers become keys of [old_id_map]. *)
Definition is_old_id (toks : list Stage07.Tok) (h : Z) : bool :=
  existsb (fun t => isdigit (Stage07.id t) &&
                    match int (Stage07.id t) with
                    | Some v => (v =? h)%Z
                    | None => false
                    end) toks.

Definition same_but_id (tk tk' : Stage07.Tok) : Prop :=
  tk' = Stage07.with_id (Stage07.id tk') tk.

Lemma insert_key_cases (m : gmap Z str) k v h :
  <[k := v]> m !! h <> None -> h = k \/ m !! h <> None.
Proof.
  destruct (decide (k = h)) as [->|Hne]; [left; reflexivity|].
  rewrite lookup_insert_ne by exact Hne. right. assumption.
Qed.

Lemma renumber_loop_kept toks :
  forall next_id pend exp_old sub_new m new_list m',
    Stage07.renumber_loop toks next_id pend exp_old sub_new m = Some (new_list, m') ->
    Forall2 same_but_id (List.filter kept07 toks) new_list /\
    forall h, m' !! h <> None -> m !! h <> None \/ is_old_id toks h = true.
Proof.
  induction toks as [|tk rest IH]; intros next_id pend exp_old sub_new m new_list m' H.
  - cbn [Stage07.renumber_loop] in H. injection H as <- <-.
    split; [constructor|]. intros h Hh. left. exact Hh.
  - cbn [Stage07.renumber_loop] in H. cbv zeta in H.
    match type of H with
    | context [match pend with O => ?o | S _ => _ end] => set (outer := o) in H
    end.
    assert (Hold : forall v h, isdigit (Stage07.id tk) = true -> int (Stage07.id tk) = Some v ->
                     h = v -> is_old_id (tk :: rest) h = true).
    { intros v h Hd Hv ->. cbn [is_old_id existsb]. rewrite Hd, Hv, Z.eqb_refl. reflexivity. }
    assert (Hmono : forall h, is_old_id rest h = true -> is_old_id (tk :: rest) h = true).
    { intros h Hh. cbn [is_old_id existsb]. unfold is_old_id in Hh. rewrite Hh.
      apply orb_true_r. }
    assert (Houter : forall nl mm, outer = Some (nl, mm) ->
              Forall2 same_but_id (List.filter kept07 (tk :: rest)) nl /\
              forall h, mm !! h <> None -> m !! h <> None \/ is_old_id (tk :: rest) h = true).
    { intros nl mm Ho. unfold outer in Ho. cbn [List.filter]. unfold kept07 at 1.
      destruct (contains Stage07.HYPHEN (Stage07.id tk)) eqn:Hc.
      - destruct (Stage07.int_pair (Stage07.id tk)) as [[a b]|]; [|discriminate].
        destruct (Stage07.renumber_loop rest _ _ _ _ m) as [[o mo]|] eqn:Hr; [|discriminate].
        injection Ho as <- <-. destruct (IH _ _ _ _ _ _ _ Hr) as [HF Hk].
        cbn [orb]. split; [constructor; [reflexivity|exact HF]|].
        intros h Hh. destruct (Hk h Hh) as [?|?]; [left|right]; auto.
      - destruct (isdigit (Stage07.id tk)) eqn:Hd.
        + destruct (int (Stage07.id tk)) as [old_num|] eqn:Hi; [|discriminate].
          destruct (Stage07.renumber_loop rest _ _ _ _ _) as [[o mo]|] eqn:Hr; [|discriminate].
          injection Ho as <- <-. destruct (IH _ _ _ _ _ _ _ Hr) as [HF Hk].
          cbn [orb]. split; [constructor; [reflexivity|exact HF]|].
          intros h Hh. destruct (Hk h Hh) as [Hm|?]; [|right; auto].
          destruct (insert_key_cases _ _ _ _ Hm) as [->|?]; [right|left; assumption].
          exact (Hold old_num old_num eq_refl eq_refl eq_refl).
        + cbn [orb]. destruct (IH _ _ _ _ _ _ _ Ho) as [HF Hk].
          split; [exact HF|].
          intros h Hh. destruct (Hk h Hh) as [?|?]; [left|right]; auto. }
    clearbody outer.
    destruct pend as [|pend']; [exact (Houter _ _ H)|].
    destruct (isdigit (Stage07.id tk)) eqn:Hd; [|exact (Houter _ _ H)].
    destruct (int (Stage07.id tk)) as [v|] eqn:Hi; [|discriminate].
    destruct (v =? exp_old)%Z eqn:Hv; [|exact (Houter _ _ H)].
    apply Z.eqb_eq in Hv. subst v.
    destruct (Stage07.renumber_loop rest _ _ _ _ _) as [[o mo]|] eqn:Hr; [|discriminate].
    injection H as <- <-. destruct (IH _ _ _ _ _ _ _ Hr) as [HF Hk].
    cbn [List.filter]. unfold kept07 at 1. rewrite Hd, orb_true_r.
    split; [constructor; [reflexivity|exact HF]|].
    intros h Hh. destruct (Hk h Hh) as [Hm|?]; [|right; auto].
    destruct (insert_key_cases _ _ _ _ Hm) as [->|?]; [right|left; assumption].
    exact (Hold exp_old exp_old eq_refl eq_refl eq_refl).
Qed.

Lemma remap_heads_Forall2 m l out :
  Stage07.remap_heads m l = Some out ->
  Forall2 (fun tk tk' => Stage07.remap_head m tk = Some tk') l out.
Proof.
  revert out. induction l as [|x l IH]; intros out H.
  - injection H as <-. constructor.
  - cbn [Stage07.remap_heads] in H.
    destruct (Stage07.remap_head m x) as [x'|] eqn:Hx; [|discriminate].
    destruct (Stage07.remap_heads m l) as [l'|] eqn:Hl; [|discriminate].
    injection H as <-. constructor; [exact Hx|exact (IH l' eq_refl)].
Qed.

Lemma Forall2_nth_error {A B} (P : A -> B -> Prop) l k :
  Forall2 P l k ->
  forall i x, List.nth_error l i = Some x -> exists y, List.nth_error k i = Some y /\ P x y.
Proof.
  induction 1 as [|x y l k Hxy _ IH]; intros i a Hi.
  - destruct i; discriminate Hi.
  - destruct i as [|i].
    + injection Hi as <-. exists y. auto.
    + exact (IH i a Hi).
Qed.

Lemma same_but_id_head tk tk1 :
  same_but_id tk tk1 ->
  tk1 = Stage07.with_id (Stage07.id tk1) (Stage07.with_head (Stage07.head tk1) tk).
Proof. unfold same_but_id. intros H. rewrite H. destruct tk; reflexivity. Qed.

Lemma same_but_id_with_head tk tk1 v :
  same_but_id tk tk1 ->
  Stage07.with_head v tk1
  = Stage07.with_id (Stage07.id (Stage07.with_head v tk1))
      (Stage07.with_head (Stage07.head (Stage07.with_head v tk1)) tk).
Proof. unfold same_but_id. intros H. rewrite H. destruct tk; reflexivity. Qed.

(** C2 (amended). A head that is not in the old-to-new id map is passed
    through unchanged on its token and never repaired, and neither stage
    reports it.  Stage 42 drops no token: the result carries the head in
    the head-id attribute of the token at the same position.  Stage 07,
    whenever it returns, keeps exactly the tokens whose id contains a
    hyphen or is a decimal number, in order and with every field but id
    and head as it was, and on a kept token a head that is not a decimal
    number, or that is the number of no decimal id of the sentence,
    stays; a token with any other id is left out of the result together
    with its head. *)
Theorem dangling_head_passes_through :
  (forall toks i t h,
     List.nth_error toks i = Some t ->
     Stage42.dict_get Stage42.HEAD_ID (Stage42.attrs t) = Some h ->
     truthy h = true -> h <> lit "_" ->
     Stage42.build_id_mapping toks !! h = None ->
     exists t', List.nth_error (fst (Stage42.renumber toks)) i = Some t' /\
                Stage42.dict_get Stage42.HEAD_ID (Stage42.attrs t') = Some h)
  /\
  (forall toks out,
     Stage07.renumber_tokens toks = Some out ->
     List.length out = List.length (List.filter kept07 toks) /\
     forall i tk,
       List.nth_error (List.filter kept07 toks) i = Some tk ->
       exists tk',
         List.nth_error out i = Some tk' /\
         tk' = Stage07.with_id (Stage07.id tk') (Stage07.with_head (Stage07.head tk') tk) /\
         (isdigit (Stage07.head tk) = false -> Stage07.head tk' = Stage07.head tk) /\
         (forall h, int (Stage07.head tk) = Some h -> is_old_id toks h = false ->
                    Stage07.head tk' = Stage07.head tk)).
Proof.
  split.
  - intros toks i t h Hi Hh Ht Hu Hn.
    unfold Stage42.renumber. cbn [fst]. rewrite List.map_map.
    rewrite List.nth_error_map, Hi. cbn [option_map]. eexists. split; [reflexivity|].
    rewrite rewrite_token_head, Hh, map_head_id_dangling; auto.
  - intros toks out H. unfold Stage07.renumber_tokens in H.
    destruct (Stage07.renumber_loop toks 1 0 0%Z 0%Z ∅) as [[new_list m]|] eqn:Hloop;
      [|discriminate].
    destruct (renumber_loop_kept toks _ _ _ _ _ _ _ Hloop) as [HF Hk].
    pose proof (remap_heads_Forall2 m new_list out H) as HR.
    split.
    { rewrite (Forall2_length _ _ _ HF). symmetry. exact (Forall2_length _ _ _ HR). }
    intros i tk Hi.
    destruct (Forall2_nth_error _ _ _ HF i tk Hi) as (tk1 & Hi1 & Hs).
    destruct (Forall2_nth_error _ _ _ HR i tk1 Hi1) as (tk' & Hi' & Hr).
    exists tk'. split; [exact Hi'|].
    unfold Stage07.remap_head in Hr.
    pose proof (same_but_id_head tk tk1 Hs) as Hsame.
    assert (Hhead : Stage07.head tk1 = Stage07.head tk).
    { unfold same_but_id in Hs. rewrite Hs. reflexivity. }
    destruct (contains Stage07.HYPHEN (Stage07.id tk1)).
    { injection Hr as <-. split; [exact Hsame|]. split; intros; exact Hhead. }
    rewrite Hhead in Hr.
    destruct (isdigit (Stage07.head tk)) eqn:Hd.
    + destruct (int (Stage07.head tk)) as [h0|] eqn:Hint; [|discriminate].
      destruct (m !! h0) as [mapped|] eqn:Hm.
      * destruct (truthy mapped).
        -- injection Hr as <-. split; [exact (same_but_id_with_head tk tk1 mapped Hs)|].
           split; [discriminate|].
           intros h [= <-] Hno. exfalso.
           destruct (Hk h0) as [He|Ho].
           ++ rewrite Hm. discriminate.
           ++ apply He. apply lookup_empty.
           ++ congruence.
        -- injection Hr as <-. split; [exact Hsame|]. split; intros; exact Hhead.
      * injection Hr as <-. split; [exact Hsame|]. split; intros; exact Hhead.
    + injection Hr as <-. split; [exact Hsame|]. split; intros; exact Hhead.
Qed.

Definition tok07 (i f h r : string) : Stage07.Tok :=
  Stage07.mkTok (lit i) (lit f) (lit f) (lit "X") (lit "_") (lit "_") (lit h) (lit r)
                (lit "_") (lit "_").

(** A head 9 in a two-token sentence, in both stages; in stage 07 the
    sentence has a token 4.1 between the two, which is left out. *)
Lemma dangling_head_passes_through_witness :
  (exists t', List.nth_error
                (fst (Stage42.renumber [token42 [kv "id" "4"; kv "head-id" "9"];
                                        token42 [kv "id" "6"; kv "head-id" "4"]])) 0 = Some t' /\
              Stage42.dict_get Stage42.HEAD_ID (Stage42.attrs t') = Some (lit "9"))
  /\
  (Stage07.renumber_tokens [tok07 "4" "a" "9" "dep"; tok07 "4.1" "x" "9" "dep";
                            tok07 "6" "b" "4" "dep"]
   = Some [tok07 "1" "a" "9" "dep"; tok07 "2" "b" "1" "dep"] /\
   exists tk', List.nth_error [tok07 "1" "a" "9" "dep"; tok07 "2" "b" "1" "dep"] 0 = Some tk' /\
               Stage07.head tk' = lit "9").
Proof.
  destruct dangling_head_passes_through as [H42 H07]. split.
  - apply (H42 [token42 [kv "id" "4"; kv "head-id" "9"]; token42 [kv "id" "6"; kv "head-id" "4"]]
               0%nat (token42 [kv "id" "4"; kv "head-id" "9"]) (lit "9")).
    + reflexivity.
    + reflexivity.
    + reflexivity.
    + intros E. discriminate E.
    + vm_compute. reflexivity.
  - split; [vm_compute; reflexivity|].
    destruct (H07 [tok07 "4" "a" "9" "dep"; tok07 "4.1" "x" "9" "dep"; tok07 "6" "b" "4" "dep"]
                  [tok07 "1" "a" "9" "dep"; tok07 "2" "b" "1" "dep"])
      as [_ Hpass].
    + vm_compute. reflexivity.
    + destruct (Hpass 0%nat (tok07 "4" "a" "9" "dep") eq_refl) as (tk' & Hi & _ & _ & Hd).
      exists tk'. split; [exact Hi|].
      apply (Hd 9%Z); vm_compute; reflexivity.
Defined.

Definition quoted (k v : string) : list N := lit k ++ [61; 34] ++ lit v ++ [34].

Definition token_line (kvs : list (list N)) : list N :=
  lit "  <token " ++ join [32] kvs ++ lit " />".

(** C2 as stated fails: the head 9 of the only token refers to no id; the
    stage returns it in place and prints nothing about it, with or
    without [verbose]; stage 07 likewise returns the token unchanged, and
    it leaves out a token with the id 1.1 together with its head. *)
Lemma dangling_head_passes_through_counterexample :
  Stage42.build_id_mapping [token42 [kv "id" "1"; kv "head-id" "9"]] !! lit "9" = None
  /\ Stage42.renumber [token42 [kv "id" "1"; kv "head-id" "9"]]
     = ([token42 [kv "id" "1"; kv "head-id" "9"]], [])
  /\ Stage42.process_sentence (token_line [quoted "id" "1"; quoted "head-id" "9"])
     = (token_line [quoted "id" "1"; quoted "head-id" "9"], [])
  /\ Stage07.renumber_tokens [tok07 "1" "a" "9" "dep"] = Some [tok07 "1" "a" "9" "dep"]
  /\ Stage07.renumber_tokens [tok07 "1" "a" "0" "root"; tok07 "1.1" "b" "9" "dep"]
     = Some [tok07 "1" "a" "0" "root"].
Proof. vm_compute. repeat split; reflexivity. Qed.

(** ** Stages 03 and 18: lines with the wrong number of columns *)





Definition columns (cs : list string) : list N := join [9] (List.map lit cs).

Definition good_line : list N := columns ["1"; "a"; "a"; "X"; "_"; "_"; "0"; "root"; "_"; "_"]%string.
Definition short_line : list N := columns ["2"; "b"; "b"; "X"; "_"; "_"; "1"; "dep"; "_"]%string.
Definition long_line : list N :=
  columns ["2"; "b"; "b"; "X"; "_"; "_"; "1"; "dep"; "_"; "_"; "extra"]%string.

(** ** Stage 42: renumbering a renumbered sentence *)

Lemma startswith_spec s p : startswith s p = true -> s = p ++ List.skipn (List.length p) s.
Proof.
  revert s. induction p as [|a p IH]; intros s H; [reflexivity|].
  destruct s as [|b s]; [discriminate|]. cbn [startswith] in H.
  apply andb_prop in H as [Hab Hs]. apply N.eqb_eq in Hab. subst b.
  cbn [List.length List.skipn app]. f_equal. exact (IH s Hs).
Qed.

Lemma split1_go_two sep acc s a b :
  split1_go sep acc s = [a; b] -> rev acc ++ s = a ++ sep ++ b.
Proof.
  revert acc. induction s as [|c s IH]; intros acc; cbn [split1_go]; [discriminate|].
  destruct (startswith (c :: s) sep) eqn:E.
  - intros [= <- <-]. f_equal. apply startswith_spec, E.
  - intros H. apply IH in H. cbn [rev] in H. rewrite <- app_assoc in H. exact H.
Qed.

Lemma split1_two sep s a b : split1 sep s = [a; b] -> s = a ++ sep ++ b.
Proof. intros H. apply split1_go_two in H. exact H. Qed.

(** An id map that sends every key to itself. *)
Definition identity_map (m : gmap (list N) (list N)) : Prop :=
  forall k v, m !! k = Some v -> v = k.

Lemma map_hyphen_identity toks m :
  identity_map m -> identity_map (Stage42.map_hyphen_ids toks m).
Proof.
  revert m. induction toks as [|t toks IH]; intros m Hm; cbn [Stage42.map_hyphen_ids];
    [exact Hm|].
  destruct (negb (truthy (Stage42.get_tid t)) || negb (Stage42.is_hyphen_id (Stage42.get_tid t)));
    [apply IH, Hm|].
  destruct (split1 Stage42.HYPHEN (Stage42.get_tid t)) as [|a [|b [|? ?]]] eqn:Hs;
    try apply IH, Hm.
  destruct (m !! a) as [a'|] eqn:Ha; [|apply IH, Hm].
  destruct (m !! b) as [b'|] eqn:Hb; [|apply IH, Hm].
  apply IH. intros k v Hk.
  destruct (decide (Stage42.get_tid t = k)) as [<-|Hne].
  - rewrite lookup_insert_eq in Hk. injection Hk as <-.
    rewrite (Hm a a' Ha), (Hm b b' Hb). symmetry.
    exact (split1_two Stage42.HYPHEN _ a b Hs).
  - rewrite lookup_insert_ne in Hk by exact Hne. exact (Hm k v Hk).
Qed.

Lemma assign_dom toks m c k v :
  Stage42.assign_ids toks m c !! k = Some v ->
  m !! k = Some v \/ In k (atomic_ids toks).
Proof.
  revert m c. induction toks as [|t toks IH]; intros m c; cbn [Stage42.assign_ids]; [auto|].
  rewrite atomic_ids_cons.
  destruct (negb (truthy (Stage42.get_tid t))).
  { intros H. apply IH in H as [H|H]; [auto|]. right. apply in_or_app. auto. }
  destruct (Stage42.is_hyphen_id (Stage42.get_tid t)) eqn:Hh; cbn [negb andb].
  { intros H. apply IH in H as [H|H]; [auto|]. right. apply in_or_app. auto. }
  destruct (bool_decide (is_Some (m !! Stage42.get_tid t))); cbn [negb].
  { intros H. apply IH in H as [H|H]; [auto|]. right. apply in_or_app. auto. }
  intros H. apply IH in H as [H|H].
  - destruct (decide (Stage42.get_tid t = k)) as [<-|Hne].
    + right. left. reflexivity.
    + rewrite lookup_insert_ne in H by exact Hne. auto.
  - right. apply in_or_app. auto.
Qed.

Lemma NoDup_decimals a n : List.NoDup (List.map decimal (seq a n)).
Proof.
  apply List.NoDup_map_NoDup_ForallPairs; [|apply List.seq_NoDup].
  intros x y _ _ H. unfold decimal in H. apply str_of_Z_inj in H. lia.
Qed.

Lemma nth_error_seq_val a n j x : List.nth_error (seq a n) j = Some x -> x = (a + j)%nat.
Proof.
  revert a j. induction n as [|n IH]; intros a j; [destruct j; discriminate|].
  destruct j as [|j]; cbn [seq List.nth_error].
  - intros [= <-]. lia.
  - intros H. apply IH in H. lia.
Qed.

(** The atomic ids are already 1..N in order, and no id is missing. *)
Definition normalized42 (toks : list Stage42.TokenLine) : Prop :=
  ids_present toks /\
  atomic_ids toks = List.map decimal (seq 1 (List.length (atomic_ids toks))).

Lemma build_identity toks : normalized42 toks -> identity_map (Stage42.build_id_mapping toks).
Proof.
  intros [Hp Hn]. unfold Stage42.build_id_mapping. apply map_hyphen_identity.
  intros k v Hk.
  assert (Hnd : List.NoDup (atomic_ids toks)) by (rewrite Hn; apply NoDup_decimals).
  pose proof Hk as Hk'. apply assign_dom in Hk' as [Hk'|Hin].
  - rewrite lookup_empty in Hk'. discriminate.
  - apply List.In_nth_error in Hin as [j Hj].
    rewrite (assign_lookup toks ∅ 1%Z Hp Hnd (fun a _ => lookup_empty a) j k Hj) in Hk.
    injection Hk as <-.
    rewrite Hn in Hj. rewrite List.nth_error_map in Hj.
    destruct (List.nth_error (seq 1 _) j) as [x|] eqn:Hx; [|discriminate].
    injection Hj as <-. apply nth_error_seq_val in Hx.
    subst x. unfold decimal. f_equal. lia.
Qed.

Lemma map_rel_identity m r : identity_map m -> Stage42.map_rel_attr r m = r.
Proof.
  intros Hm. unfold Stage42.map_rel_attr.
  destruct (negb (contains Stage42.COLON r)); [reflexivity|].
  destruct (split1 Stage42.COLON r) as [|lead [|rest [|? ?]]] eqn:Hs; try reflexivity.
  destruct (m !! lead) as [v|] eqn:Hl; [|reflexivity].
  rewrite (Hm lead v Hl). symmetry. exact (split1_two Stage42.COLON _ lead rest Hs).
Qed.

Lemma map_head_idem m ho b :
  identity_map m ->
  Stage42.map_head_id (Some (Stage42.map_head_id ho m b)) m b = Stage42.map_head_id ho m b.
Proof.
  intros Hm.
  assert (Hdef : Stage42.map_head_id (Some (if b then lit "_" else lit "0")) m b
                 = (if b then lit "_" else lit "0")).
  { destruct b; [reflexivity|]. unfold Stage42.map_head_id.
    change (negb (truthy (lit "0")) || bool_decide (lit "0" = lit "_")) with false. cbv iota.
    destruct (m !! lit "0") as [v|] eqn:E; [exact (Hm _ _ E)|reflexivity]. }
  destruct ho as [h|].
  2:{ change (Stage42.map_head_id None m b) with (if b then lit "_" else lit "0"). exact Hdef. }
  destruct (negb (truthy h) || bool_decide (h = lit "_")) eqn:Hc.
  { assert (E : Stage42.map_head_id (Some h) m b = (if b then lit "_" else lit "0")).
    { unfold Stage42.map_head_id. rewrite Hc. reflexivity. }
    rewrite E. exact Hdef. }
  assert (Hh : Stage42.map_head_id (Some h) m b = h).
  { unfold Stage42.map_head_id. rewrite Hc.
    destruct (m !! h) as [v|] eqn:E; [exact (Hm _ _ E)|reflexivity]. }
  rewrite Hh. exact Hh.
Qed.

Lemma rewrite_token_id_attr id_map t :
  Stage42.dict_get Stage42.ID (Stage42.attrs (fst (Stage42.rewrite_token id_map t)))
  = Some (new_id_of id_map t).
Proof.
  pose proof (rewrite_token_tid id_map t) as H. unfold Stage42.get_tid at 1 in H.
  unfold Stage42.rewrite_token, new_id_of, Stage42.get_tid in *. cbn [fst Stage42.attrs] in *.
  set (tid := match Stage42.dict_get Stage42.ID (Stage42.attrs t) with Some v => v | None => [] end) in *.
  set (nid := match id_map !! tid with Some v => v | None => tid end) in *.
  set (a2 := Stage42.dict_set Stage42.HEAD_ID _ _) in *.
  assert (H2 : Stage42.dict_get Stage42.ID a2 = Some nid).
  { unfold a2. rewrite dict_get_set_ne by (intros E; symmetry in E; exact (id_neq_head E)).
    apply dict_get_set_eq. }
  destruct (Stage42.dict_get Stage42.REL a2).
  - rewrite dict_get_set_ne by (intros E; symmetry in E; exact (id_neq_rel E)). exact H2.
  - exact H2.
Qed.

Lemma rewrite_token_rel id_map t :
  Stage42.dict_get Stage42.REL (Stage42.attrs (fst (Stage42.rewrite_token id_map t))) = None
  \/ exists r, Stage42.dict_get Stage42.REL (Stage42.attrs (fst (Stage42.rewrite_token id_map t)))
               = Some (Stage42.map_rel_attr r id_map).
Proof.
  unfold Stage42.rewrite_token. cbn [fst Stage42.attrs].
  set (a2 := Stage42.dict_set Stage42.HEAD_ID _ _).
  destruct (Stage42.dict_get Stage42.REL a2) as [r|] eqn:E.
  - right. exists r. apply dict_get_set_eq.
  - left. exact E.
Qed.

(** A token whose attributes already hold what [rewrite_token] writes. *)
Lemma rewrite_token_noop m t i h :
  identity_map m ->
  Stage42.dict_get Stage42.ID (Stage42.attrs t) = Some i ->
  Stage42.dict_get Stage42.HEAD_ID (Stage42.attrs t) = Some h ->
  Stage42.map_head_id (Some h) m (Stage42.is_hyphen_id i) = h ->
  fst (Stage42.rewrite_token m t) = t.
Proof.
  intros Hm Hi Hh Hmap. unfold Stage42.rewrite_token. cbn [fst]. rewrite Hi.
  assert (Hn : match m !! i with Some v => v | None => i end = i).
  { destruct (m !! i) as [v|] eqn:E; [exact (Hm _ _ E)|reflexivity]. }
  rewrite Hn, (dict_set_same _ _ _ Hi), Hh, Hmap, (dict_set_same _ _ _ Hh).
  destruct t as [ind a o]. cbn [Stage42.attrs Stage42.indent Stage42.order] in *.
  destruct (Stage42.dict_get Stage42.REL a) as [r|] eqn:Hr; [|reflexivity].
  rewrite (map_rel_identity m r Hm), (dict_set_same _ _ _ Hr). reflexivity.
Qed.

Lemma new_id_identity m t : identity_map m -> new_id_of m t = Stage42.get_tid t.
Proof.
  intros Hm. unfold new_id_of.
  destruct (m !! Stage42.get_tid t) as [v|] eqn:E; [exact (Hm _ _ E)|reflexivity].
Qed.

Lemma rewrite_token_twice m t :
  identity_map m ->
  fst (Stage42.rewrite_token m (fst (Stage42.rewrite_token m t))) = fst (Stage42.rewrite_token m t).
Proof.
  intros Hm.
  apply (rewrite_token_noop m _ _ _ Hm (rewrite_token_id_attr m t) (rewrite_token_head m t)).
  apply map_head_idem, Hm.
Qed.

Lemma assign_ids_ext l1 l2 m c :
  List.map Stage42.get_tid l1 = List.map Stage42.get_tid l2 ->
  Stage42.assign_ids l1 m c = Stage42.assign_ids l2 m c.
Proof.
  revert l2 m c. induction l1 as [|t l1 IH]; intros [|t2 l2] m c H; try discriminate H;
    [reflexivity|].
  cbn [List.map] in H. injection H as Ht Hl. cbn [Stage42.assign_ids]. rewrite <- Ht.
  destruct (negb (truthy (Stage42.get_tid t))); [apply IH, Hl|].
  destruct (_ && _); apply IH, Hl.
Qed.

Lemma map_hyphen_ids_ext l1 l2 m :
  List.map Stage42.get_tid l1 = List.map Stage42.get_tid l2 ->
  Stage42.map_hyphen_ids l1 m = Stage42.map_hyphen_ids l2 m.
Proof.
  revert l2 m. induction l1 as [|t l1 IH]; intros [|t2 l2] m H; try discriminate H;
    [reflexivity|].
  cbn [List.map] in H. injection H as Ht Hl. cbn [Stage42.map_hyphen_ids]. rewrite <- Ht.
  destruct (_ || _); [apply IH, Hl|].
  destruct (split1 Stage42.HYPHEN (Stage42.get_tid t)) as [|a [|b [|? ?]]]; try apply IH, Hl.
  destruct (m !! a); [|apply IH, Hl]. destruct (m !! b); apply IH, Hl.
Qed.

Lemma build_id_mapping_ext l1 l2 :
  List.map Stage42.get_tid l1 = List.map Stage42.get_tid l2 ->
  Stage42.build_id_mapping l1 = Stage42.build_id_mapping l2.
Proof.
  intros H. unfold Stage42.build_id_mapping.
  rewrite (assign_ids_ext l1 l2 _ _ H). apply map_hyphen_ids_ext, H.
Qed.

Lemma renumber_fst toks :
  fst (Stage42.renumber toks)
  = List.map (fun t => fst (Stage42.rewrite_token (Stage42.build_id_mapping toks) t)) toks.
Proof. unfold Stage42.renumber. cbn [fst]. apply List.map_map. Qed.

Lemma renumber42_idempotent toks :
  normalized42 toks ->
  fst (Stage42.renumber (fst (Stage42.renumber toks))) = fst (Stage42.renumber toks).
Proof.
  intros Hn. pose proof (build_identity toks Hn) as Hm.
  rewrite (renumber_fst toks).
  set (m := Stage42.build_id_mapping toks) in *.
  set (out := List.map (fun t => fst (Stage42.rewrite_token m t)) toks).
  assert (Hsame : Stage42.build_id_mapping out = m).
  { apply build_id_mapping_ext. unfold out. rewrite List.map_map. apply List.map_ext.
    intros t. rewrite rewrite_token_tid. apply new_id_identity, Hm. }
  rewrite (renumber_fst out), Hsame. unfold out. rewrite List.map_map. apply List.map_ext.
  intros t. apply rewrite_token_twice, Hm.
Qed.

(** ** Stage 03: renumbering a renumbered sentence *)

Lemma split_go_char_none c acc x :
  existsb (N.eqb c) x = false -> split_go [c] 0 acc x = [rev acc ++ x].
Proof.
  revert acc. induction x as [|a x IH]; intros acc H; cbn [split_go].
  - rewrite app_nil_r. reflexivity.
  - cbn [existsb] in H. apply orb_false_elim in H as [Ha Hx].
    cbn [startswith]. rewrite Ha. cbn [andb]. rewrite (IH _ Hx). cbn [rev].
    rewrite <- app_assoc. reflexivity.
Qed.

Lemma split_go_char_app c acc x y :
  existsb (N.eqb c) x = false ->
  split_go [c] 0 acc (x ++ c :: y) = (rev acc ++ x) :: split_go [c] 0 [] y.
Proof.
  revert acc. induction x as [|a x IH]; intros acc H; cbn [split_go app].
  - cbn [startswith]. rewrite N.eqb_refl. rewrite app_nil_r. destruct y; reflexivity.
  - cbn [existsb] in H. apply orb_false_elim in H as [Ha Hx].
    cbn [startswith]. rewrite Ha. cbn [andb]. rewrite (IH _ Hx). cbn [rev].
    rewrite <- app_assoc. reflexivity.
Qed.

Lemma digits_no_char c s :
  is_asciidigit c = false -> forallb is_asciidigit s = true -> existsb (N.eqb c) s = false.
Proof.
  intros Hc. induction s as [|a s IH]; [reflexivity|]. cbn [forallb existsb].
  intros H. apply andb_prop in H as [Ha Hs]. rewrite (IH Hs), orb_false_r.
  apply N.eqb_neq. intros ->. congruence.
Qed.

Lemma range_id_hyphen a b : contains Stage03.HYPHEN (Stage03.range_id a b) = true.
Proof.
  unfold Stage03.range_id, Stage03.HYPHEN. rewrite contains_char, existsb_app.
  cbn [app existsb]. rewrite N.eqb_refl. apply orb_true_r.
Qed.

Lemma range_id_split a b :
  (0 <= a)%Z -> (0 <= b)%Z ->
  split Stage03.HYPHEN (Stage03.range_id a b) = [str_of_Z a; str_of_Z b].
Proof.
  intros Ha Hb. unfold split, Stage03.range_id, Stage03.HYPHEN. cbn [app].
  rewrite split_go_char_app
    by (apply digits_no_char; [reflexivity|apply str_of_Z_nonneg_digits, Ha]).
  rewrite split_go_char_none
    by (apply digits_no_char; [reflexivity|apply str_of_Z_nonneg_digits, Hb]).
  reflexivity.
Qed.

Lemma range_id_int_pair a b :
  (0 <= a)%Z -> (0 <= b)%Z -> Stage03.int_pair (Stage03.range_id a b) = Some (a, b).
Proof.
  intros Ha Hb. unfold Stage03.int_pair. rewrite (range_id_split a b Ha Hb).
  rewrite !int_str_of_Z. reflexivity.
Qed.

Lemma range_id_digits a b :
  (0 <= a)%Z -> (0 <= b)%Z ->
  isdigit (replace Stage03.HYPHEN [] (Stage03.range_id a b)) = true.
Proof.
  intros Ha Hb. unfold replace. rewrite (range_id_split a b Ha Hb). cbn [join app].
  apply digits_isdigit.
  - pose proof (str_of_Z_nonempty a). destruct (str_of_Z a); [congruence|discriminate].
  - rewrite forallb_app, !str_of_Z_nonneg_digits by assumption. reflexivity.
Qed.

Lemma str_of_Z_no_hyphen z : (0 <= z)%Z -> contains Stage03.HYPHEN (str_of_Z z) = false.
Proof. intros H. apply digits_no_hyphen, str_of_Z_nonneg_digits, H. Qed.

Lemma isdigit_str_of_Z z : (0 <= z)%Z -> isdigit (str_of_Z z) = true.
Proof.
  intros H. apply digits_isdigit; [apply str_of_Z_nonempty|apply str_of_Z_nonneg_digits, H].
Qed.

Lemma record_old_decimal c m :
  (0 <= c)%Z -> Stage03.record_old (str_of_Z c) c m = Some (<[c := c]> m).
Proof.
  intros H. unfold Stage03.record_old. rewrite (isdigit_str_of_Z c H), int_str_of_Z. reflexivity.
Qed.

Lemma with_id_same tk : Stage03.with_id (Stage03.id tk) tk = tk.
Proof. destruct tk; reflexivity. Qed.

(** The sentence is already numbered: walking it as the first pass does,
    with [c] the next id and [pend] the sub-tokens still owed to a span,
    every atomic token carries the next id and every span line carries
    the range of exactly the ids that follow.  The result is the id
    after the last one. *)
Fixpoint norm_end (tokens : list Stage03.Token) (c : Z) (pend : nat) : option Z :=
  match tokens with
  | [] => Some c
  | tk :: rest =>
      match pend with
      | S p =>
          if bool_decide (Stage03.id tk = str_of_Z c) then norm_end rest (c + 1) p else None
      | O =>
          match Stage03._mwt_span tk with
          | Some span =>
              if bool_decide (1 <= span)%Z &&
                 bool_decide (Stage03.id tk = Stage03.range_id c (c + span - 1))
              then norm_end rest c (Z.to_nat span)
              else None
          | None =>
              if contains Stage03.HYPHEN (Stage03.id tk) then
                match Stage03.int_pair (Stage03.id tk) with
                | Some (a, b) =>
                    if bool_decide (a = c) && bool_decide (c <= b)%Z &&
                       bool_decide (Stage03.id tk = Stage03.range_id a b)
                    then norm_end rest c (Z.to_nat (b - a + 1))
                    else None
                | None => None
                end
              else if bool_decide (Stage03.id tk = str_of_Z c) then norm_end rest (c + 1) 0
                   else None
          end
      end
  end.

Definition normalized03 (tokens : list Stage03.Token) : Prop := is_Some (norm_end tokens 1 0).

(** The heads for which [isdigit] holds are strings [int] accepts. *)
Definition heads_ok (tokens : list Stage03.Token) : Prop :=
  Forall (fun tk => isdigit (Stage03.head tk) = true -> is_Some (int (Stage03.head tk))) tokens.

Lemma norm_end_le tokens c pend e : norm_end tokens c pend = Some e -> (c <= e)%Z.
Proof.
  revert c pend. induction tokens as [|tk rest IH]; intros c pend; cbn [norm_end].
  - intros [= <-]. lia.
  - destruct pend as [|p].
    + destruct (Stage03._mwt_span tk) as [span|].
      * destruct (_ && _); [|discriminate]. apply IH.
      * destruct (contains _ _).
        -- destruct (Stage03.int_pair _) as [[a b]|]; [|discriminate].
           destruct (_ && _); [|discriminate]. apply IH.
        -- destruct (bool_decide _); [|discriminate]. intros H. apply IH in H. lia.
    + destruct (bool_decide _); [|discriminate]. intros H. apply IH in H. lia.
Qed.

Lemma pass1_normalized tokens :
  forall c pend e next_id sub_id m,
    norm_end tokens c pend = Some e ->
    (0 <= c)%Z ->
    next_id = (c + Z.of_nat pend)%Z ->
    (pend <> 0%nat -> sub_id = c) ->
    exists m',
      Stage03.pass1 tokens next_id pend sub_id m = Some (tokens, m') /\
      forall k, m' !! k = if bool_decide (c <= k < e)%Z then Some k else m !! k.
Proof.
  induction tokens as [|tk rest IH]; intros c pend e next_id sub_id m Hn Hc Hnext Hsub.
  - cbn [norm_end] in Hn. injection Hn as <-. exists m. split; [reflexivity|].
    intros k. rewrite bool_decide_eq_false_2 by lia. reflexivity.
  - cbn [norm_end] in Hn. cbn [Stage03.pass1]. destruct pend as [|p].
    + rewrite Z.add_0_r in Hnext. subst next_id.
      destruct (Stage03._mwt_span tk) as [span|] eqn:Hspan.
      * destruct (bool_decide (1 <= span)%Z) eqn:H1; [|discriminate].
        destruct (bool_decide (Stage03.id tk = _)) eqn:H2; [|discriminate].
        cbn [andb] in Hn. apply bool_decide_eq_true_1 in H1, H2.
        destruct (IH c (Z.to_nat span) e (c + span)%Z c m Hn Hc) as (m' & Hp & Hm');
          [lia|reflexivity|].
        rewrite Hp. exists m'. split; [|exact Hm'].
        rewrite <- H2, with_id_same. reflexivity.
      * destruct (contains Stage03.HYPHEN (Stage03.id tk)) eqn:Hh.
        -- destruct (Stage03.int_pair (Stage03.id tk)) as [[a b]|] eqn:Hip; [|discriminate].
           destruct (bool_decide (a = c)) eqn:H1; [|discriminate].
           destruct (bool_decide (c <= b)%Z) eqn:H2; [|discriminate].
           destruct (bool_decide (Stage03.id tk = _)) eqn:H3; [|discriminate].
           cbn [andb] in Hn. apply bool_decide_eq_true_1 in H1, H2, H3. subst a.
           assert (Hd : isdigit (replace Stage03.HYPHEN [] (Stage03.id tk)) = true).
           { rewrite H3. apply range_id_digits; lia. }
           rewrite Hd. cbn [andb].
           destruct (IH c (Z.to_nat (b - c + 1)) e (c + (b - c + 1))%Z c m Hn Hc)
             as (m' & Hp & Hm'); [lia|reflexivity|].
           rewrite Hp. exists m'. split; [|exact Hm'].
           replace (c + (b - c + 1) - 1)%Z with b by lia.
           rewrite <- H3, with_id_same. reflexivity.
        -- cbn [andb].
           destruct (bool_decide (Stage03.id tk = str_of_Z c)) eqn:H1; [|discriminate].
           apply bool_decide_eq_true_1 in H1.
           rewrite H1, (record_old_decimal c m Hc).
           destruct (IH (c + 1)%Z 0%nat e (c + 1)%Z 0%Z (<[c := c]> m) Hn) as (m' & Hp & Hm');
             [lia|lia|congruence|].
           rewrite Hp. exists m'. split.
           ++ rewrite <- H1, with_id_same. reflexivity.
           ++ intros k. rewrite Hm'. apply norm_end_le in Hn.
              destruct (decide (k = c)) as [->|Hk].
              ** rewrite bool_decide_eq_false_2 by lia. rewrite lookup_insert_eq.
                 rewrite bool_decide_eq_true_2 by lia. reflexivity.
              ** rewrite lookup_insert_ne by congruence.
                 destruct (bool_decide (c + 1 <= k < e)%Z) eqn:E.
                 --- apply bool_decide_eq_true_1 in E.
                     rewrite bool_decide_eq_true_2 by lia. reflexivity.
                 --- apply bool_decide_eq_false_1 in E.
                     rewrite bool_decide_eq_false_2 by lia. reflexivity.
    + destruct (bool_decide (Stage03.id tk = str_of_Z c)) eqn:H1; [|discriminate].
      apply bool_decide_eq_true_1 in H1. rewrite (Hsub ltac:(discriminate)).
      rewrite H1, (record_old_decimal c m Hc).
      destruct (IH (c + 1)%Z p e next_id (c + 1)%Z (<[c := c]> m) Hn) as (m' & Hp & Hm');
        [lia|lia|reflexivity|].
      rewrite Hp. exists m'. split.
      * rewrite <- H1, with_id_same. reflexivity.
      * intros k. rewrite Hm'. apply norm_end_le in Hn.
        destruct (decide (k = c)) as [->|Hk].
        -- rewrite bool_decide_eq_false_2 by lia. rewrite lookup_insert_eq.
           rewrite bool_decide_eq_true_2 by lia. reflexivity.
        -- rewrite lookup_insert_ne by congruence.
           destruct (bool_decide (c + 1 <= k < e)%Z) eqn:E.
           ++ apply bool_decide_eq_true_1 in E.
              rewrite bool_decide_eq_true_2 by lia. reflexivity.
           ++ apply bool_decide_eq_false_1 in E.
              rewrite bool_decide_eq_false_2 by lia. reflexivity.
Qed.

Lemma norm_end_ext x y c pend :
  List.map Stage03.id x = List.map Stage03.id y ->
  List.map Stage03._mwt_span x = List.map Stage03._mwt_span y ->
  norm_end x c pend = norm_end y c pend.
Proof.
  revert y c pend. induction x as [|a x IH]; intros [|b y] c pend Hi Hs;
    try discriminate Hi; [reflexivity|].
  cbn [List.map] in Hi, Hs. injection Hi as Hi1 Hi2. injection Hs as Hs1 Hs2.
  cbn [norm_end]. rewrite <- Hi1, <- Hs1.
  destruct pend as [|p].
  - destruct (Stage03._mwt_span a) as [span|].
    + destruct (_ && _); [apply IH; assumption|reflexivity].
    + destruct (contains _ _).
      * destruct (Stage03.int_pair _) as [[? ?]|]; [|reflexivity].
        destruct (_ && _); [apply IH; assumption|reflexivity].
      * destruct (bool_decide _); [apply IH; assumption|reflexivity].
  - destruct (bool_decide _); [apply IH; assumption|reflexivity].
Qed.

(** In a numbered sentence an id is a range or the decimal of a number
    between the first and the last id. *)
Lemma norm_end_ids x c pend e :
  norm_end x c pend = Some e ->
  forall tk, In tk x ->
    contains Stage03.HYPHEN (Stage03.id tk) = true \/
    exists j, (c <= j < e)%Z /\ Stage03.id tk = str_of_Z j.
Proof.
  revert c pend. induction x as [|a x IH]; intros c pend Hn tk Hin; [destruct Hin|].
  cbn [norm_end] in Hn.
  assert (Hrest : forall c' p', norm_end x c' p' = Some e -> (c <= c')%Z -> In tk x ->
            contains Stage03.HYPHEN (Stage03.id tk) = true \/
            exists j, (c <= j < e)%Z /\ Stage03.id tk = str_of_Z j).
  { intros c' p' H Hle Hi. destruct (IH c' p' H tk Hi) as [Hh|(j & Hj & Hid)]; [auto|].
    right. exists j. split; [lia|exact Hid]. }
  assert (Hatom : forall p', Stage03.id a = str_of_Z c -> norm_end x (c + 1) p' = Some e ->
            contains Stage03.HYPHEN (Stage03.id tk) = true \/
            exists j, (c <= j < e)%Z /\ Stage03.id tk = str_of_Z j).
  { intros p' Hid H. destruct Hin as [<-|Hin].
    - right. exists c. apply norm_end_le in H. split; [lia|exact Hid].
    - apply (Hrest _ _ H); [lia|exact Hin]. }
  assert (Hspan : forall p' r, Stage03.id a = r -> contains Stage03.HYPHEN r = true ->
            norm_end x c p' = Some e ->
            contains Stage03.HYPHEN (Stage03.id tk) = true \/
            exists j, (c <= j < e)%Z /\ Stage03.id tk = str_of_Z j).
  { intros p' r Hid Hr H. destruct Hin as [<-|Hin].
    - left. rewrite Hid. exact Hr.
    - apply (Hrest _ _ H); [lia|exact Hin]. }
  destruct pend as [|p].
  - destruct (Stage03._mwt_span a) as [span|].
    + destruct (bool_decide (1 <= span)%Z); [|discriminate].
      destruct (bool_decide (Stage03.id a = _)) eqn:H2; [|discriminate].
      apply bool_decide_eq_true_1 in H2. cbn [andb] in Hn.
      exact (Hspan _ _ H2 (range_id_hyphen _ _) Hn).
    + destruct (contains Stage03.HYPHEN (Stage03.id a)) eqn:Hh.
      * destruct (Stage03.int_pair _) as [[a0 b0]|]; [|discriminate].
        destruct (_ && _); [|discriminate]. exact (Hspan _ _ eq_refl Hh Hn).
      * destruct (bool_decide _) eqn:H1; [|discriminate].
        apply bool_decide_eq_true_1 in H1. exact (Hatom _ H1 Hn).
  - destruct (bool_decide _) eqn:H1; [|discriminate].
    apply bool_decide_eq_true_1 in H1. exact (Hatom _ H1 Hn).
Qed.

(** An atomic token of a numbered sentence is the first token equal to it. *)
Lemma index_own x :
  forall c pend e k tk,
    norm_end x c pend = Some e -> (0 <= c)%Z ->
    x !! k = Some tk -> contains Stage03.HYPHEN (Stage03.id tk) = false ->
    Stage03.index_of tk x = Some k.
Proof.
  induction x as [|a x IH]; intros c pend e k tk Hn Hc Hk Hh; [discriminate Hk|].
  destruct k as [|k].
  - cbn in Hk. injection Hk as ->. cbn [Stage03.index_of].
    rewrite bool_decide_eq_true_2 by reflexivity. reflexivity.
  - cbn in Hk. cbn [Stage03.index_of].
    assert (Hin : In tk x) by (apply list_elem_of_In, list_elem_of_lookup; eauto).
    cbn [norm_end] in Hn. destruct pend as [|p].
    + destruct (Stage03._mwt_span a) as [span|] eqn:Hsp.
      * destruct (bool_decide (1 <= span)%Z); [|discriminate].
        destruct (bool_decide (Stage03.id a = _)) eqn:E; [|discriminate].
        apply bool_decide_eq_true_1 in E. cbn [andb] in Hn.
        rewrite (IH _ _ e k tk Hn Hc Hk Hh).
        rewrite bool_decide_eq_false_2; [reflexivity|].
        intros ->. rewrite E, range_id_hyphen in Hh. discriminate.
      * destruct (contains Stage03.HYPHEN (Stage03.id a)) eqn:Ha.
        -- destruct (Stage03.int_pair _) as [[a0 b0]|]; [|discriminate].
           destruct (_ && _); [|discriminate].
           rewrite (IH _ _ e k tk Hn Hc Hk Hh).
           rewrite bool_decide_eq_false_2; [reflexivity|]. intros ->. congruence.
        -- destruct (bool_decide _) eqn:E; [|discriminate].
           rewrite (IH _ _ e k tk Hn ltac:(lia) Hk Hh).
           rewrite bool_decide_eq_false_2; [reflexivity|]. intros ->.
           apply bool_decide_eq_true_1 in E.
           destruct (norm_end_ids x _ _ e Hn tk Hin) as [Hx|(j & Hj & Hid)]; [congruence|].
           rewrite E in Hid. apply str_of_Z_inj in Hid. lia.
    + destruct (bool_decide _) eqn:E; [|discriminate].
      rewrite (IH _ _ e k tk Hn ltac:(lia) Hk Hh).
      rewrite bool_decide_eq_false_2; [reflexivity|]. intros ->.
      apply bool_decide_eq_true_1 in E.
      destruct (norm_end_ids x _ _ e Hn tk Hin) as [Hx|(j & Hj & Hid)]; [congruence|].
      rewrite E in Hid. apply str_of_Z_inj in Hid. lia.
Qed.

Lemma scan_back_ext x y n :
  List.map Stage03.id x = List.map Stage03.id y ->
  Stage03.scan_back x n = Stage03.scan_back y n.
Proof.
  intros H. induction n as [|q IH]; [reflexivity|]. cbn [Stage03.scan_back].
  assert (Hq : Stage03.id <$> (x !! q) = Stage03.id <$> (y !! q)).
  { rewrite <- !list_lookup_fmap. change (Stage03.id <$> x) with (List.map Stage03.id x).
    change (Stage03.id <$> y) with (List.map Stage03.id y). rewrite H. reflexivity. }
  destruct (x !! q) as [a|], (y !! q) as [b|]; try discriminate Hq; [|reflexivity].
  injection Hq as ->. rewrite IH. reflexivity.
Qed.

Lemma scan_back_some x n q :
  Stage03.scan_back x n = Some q ->
  exists t, x !! q = Some t /\ contains Stage03.HYPHEN (Stage03.id t) = false.
Proof.
  induction n as [|m IH]; cbn [Stage03.scan_back]; [discriminate|].
  destruct (x !! m) as [t|] eqn:E; [|discriminate].
  destruct (contains Stage03.HYPHEN (Stage03.id t)) eqn:Hh; [exact IH|].
  intros [= <-]. eauto.
Qed.

Lemma with_head_id v tk : Stage03.id (Stage03.with_head v tk) = Stage03.id tk.
Proof. reflexivity. Qed.

Lemma with_head_twice v tk :
  Stage03.with_head v (Stage03.with_head v tk) = Stage03.with_head v tk.
Proof. reflexivity. Qed.

Lemma insert_with_head_shape (res : list Stage03.Token) k tk v :
  res !! k = Some tk ->
  List.map Stage03.id (<[k := Stage03.with_head v tk]> res) = List.map Stage03.id res /\
  List.map Stage03._mwt_span (<[k := Stage03.with_head v tk]> res)
    = List.map Stage03._mwt_span res.
Proof.
  intros Hk. split.
  - change (Stage03.id <$> <[k := Stage03.with_head v tk]> res = Stage03.id <$> res).
    rewrite list_fmap_insert. apply list_insert_id. rewrite list_lookup_fmap, Hk. reflexivity.
  - change (Stage03._mwt_span <$> <[k := Stage03.with_head v tk]> res
            = Stage03._mwt_span <$> res).
    rewrite list_fmap_insert. apply list_insert_id. rewrite list_lookup_fmap, Hk. reflexivity.
Qed.

(** One step of the second pass rewrites at most the head of the token
    it visits. *)
Lemma fix_head_keeps m (res res' : list Stage03.Token) k :
  Stage03.fix_head m res k = Some res' ->
  List.map Stage03.id res' = List.map Stage03.id res /\
  List.map Stage03._mwt_span res' = List.map Stage03._mwt_span res /\
  forall j, j <> k -> res' !! j = res !! j.
Proof.
  unfold Stage03.fix_head.
  assert (Hsame : Some res = Some res' ->
     List.map Stage03.id res' = List.map Stage03.id res /\
     List.map Stage03._mwt_span res' = List.map Stage03._mwt_span res /\
     forall j, j <> k -> res' !! j = res !! j).
  { intros [= <-]. auto. }
  assert (Hins : forall tk v, res !! k = Some tk ->
     Some (<[k := Stage03.with_head v tk]> res) = Some res' ->
     List.map Stage03.id res' = List.map Stage03.id res /\
     List.map Stage03._mwt_span res' = List.map Stage03._mwt_span res /\
     forall j, j <> k -> res' !! j = res !! j).
  { intros tk v Hk [= <-]. destruct (insert_with_head_shape res k tk v Hk) as [H1 H2].
    split; [exact H1|]. split; [exact H2|].
    intros j Hj. apply list_lookup_insert_ne. congruence. }
  destruct (res !! k) as [tk|] eqn:Hk; [|exact Hsame].
  destruct (contains _ _); [exact Hsame|].
  destruct (isdigit _).
  - destruct (int _) as [oh|]; [|discriminate].
    destruct (m !! oh); [apply (Hins tk _ eq_refl)|exact Hsame].
  - destruct (Stage03.is_placeholder _); [|exact Hsame].
    destruct (Stage03.index_of _ _) as [k'|]; [|discriminate].
    destruct (Stage03.scan_back _ _) as [q|]; [|exact Hsame].
    destruct (res !! q); [apply (Hins tk _ eq_refl)|exact Hsame].
Qed.

Section SecondPass.

Variable e : Z.
Variable m : gmap Z Z.
Hypothesis m_spec : forall k, m !! k = if bool_decide (1 <= k < e)%Z then Some k else None.

Definition numbered (l : list Stage03.Token) : Prop := norm_end l 1 0 = Some e.

Lemma numbered_atomic l tq :
  numbered l -> In tq l -> contains Stage03.HYPHEN (Stage03.id tq) = false ->
  exists j, Stage03.id tq = str_of_Z j /\ (0 <= j)%Z /\ m !! j = Some j.
Proof.
  intros Hl Hin Hh. destruct (norm_end_ids l 1 0 e Hl tq Hin) as [Hx|(j & Hj & Hid)];
    [congruence|].
  exists j. split; [exact Hid|]. split; [lia|].
  rewrite m_spec, bool_decide_eq_true_2 by exact Hj. reflexivity.
Qed.

(** A token whose head is the decimal of a mapped id is left as it is. *)
Lemma fix_head_decimal (z : list Stage03.Token) k tk j :
  z !! k = Some (Stage03.with_head (str_of_Z j) tk) ->
  (0 <= j)%Z -> m !! j = Some j ->
  Stage03.fix_head m z k = Some z.
Proof.
  intros Hk Hj Hm. unfold Stage03.fix_head. rewrite Hk.
  destruct (contains _ _); [reflexivity|].
  change (Stage03.head (Stage03.with_head (str_of_Z j) tk)) with (str_of_Z j).
  rewrite (isdigit_str_of_Z j Hj), int_str_of_Z, Hm, with_head_twice.
  rewrite list_insert_id by exact Hk. reflexivity.
Qed.

(** What a step writes at position [k] is not changed when the step is
    taken again, on any numbered sentence with the same ids. *)
Lemma step_stable (res res' z : list Stage03.Token) k :
  numbered res -> numbered z ->
  List.map Stage03.id z = List.map Stage03.id res ->
  Stage03.fix_head m res k = Some res' ->
  z !! k = res' !! k ->
  Stage03.fix_head m z k = Some z.
Proof.
  intros Hres Hz Hids Hstep Hzk.
  unfold Stage03.fix_head in Hstep.
  destruct (res !! k) as [tk|] eqn:Hk.
  2:{ injection Hstep as <-. unfold Stage03.fix_head. rewrite Hzk, Hk. reflexivity. }
  assert (Hlen : (k < List.length res)%nat) by (apply lookup_lt_Some in Hk; exact Hk).
  destruct (contains Stage03.HYPHEN (Stage03.id tk)) eqn:Hh.
  { injection Hstep as <-. unfold Stage03.fix_head. rewrite Hzk, Hk, Hh. reflexivity. }
  destruct (isdigit (Stage03.head tk)) eqn:Hd.
  - destruct (int (Stage03.head tk)) as [oh|] eqn:Hi; [|discriminate].
    destruct (m !! oh) as [n|] eqn:Hm.
    + injection Hstep as <-. rewrite list_lookup_insert_eq in Hzk by exact Hlen.
      pose proof Hm as Hm'. rewrite m_spec in Hm'.
      destruct (bool_decide (1 <= oh < e)%Z) eqn:E; [|discriminate].
      injection Hm' as <-. apply bool_decide_eq_true_1 in E.
      apply (fix_head_decimal z k tk oh Hzk); [lia|exact Hm].
    + injection Hstep as <-. unfold Stage03.fix_head. rewrite Hzk, Hk, Hh, Hd, Hi, Hm.
      reflexivity.
  - destruct (Stage03.is_placeholder (Stage03.head tk)) eqn:Hp.
    2:{ injection Hstep as <-. unfold Stage03.fix_head. rewrite Hzk, Hk, Hh, Hd, Hp.
        reflexivity. }
    rewrite (index_own res 1 0 e k tk Hres ltac:(lia) Hk Hh) in Hstep.
    destruct (Stage03.scan_back res k) as [q|] eqn:Hq.
    + destruct (scan_back_some res k q Hq) as (tq & Htq & Hhq).
      rewrite Htq in Hstep. injection Hstep as <-.
      rewrite list_lookup_insert_eq in Hzk by exact Hlen.
      assert (Hin : In tq res) by (apply list_elem_of_In, list_elem_of_lookup; eauto).
      destruct (numbered_atomic res tq Hres Hin Hhq) as (j & Hid & Hj & Hmj).
      rewrite Hid in Hzk. exact (fix_head_decimal z k tk j Hzk Hj Hmj).
    + injection Hstep as <-. rewrite Hk in Hzk.
      unfold Stage03.fix_head. rewrite Hzk, Hh, Hd, Hp.
      rewrite (index_own z 1 0 e k tk Hz ltac:(lia) Hzk Hh).
      rewrite (scan_back_ext z res k Hids), Hq. reflexivity.
Qed.

Lemma pass2_stable ks :
  forall res y,
    List.NoDup ks -> numbered res ->
    Stage03.pass2 m ks res = Some y ->
    numbered y /\ List.map Stage03.id y = List.map Stage03.id res /\
    (forall j, ~ In j ks -> y !! j = res !! j) /\
    (forall k, In k ks ->
       forall z, numbered z -> List.map Stage03.id z = List.map Stage03.id res ->
                 z !! k = y !! k -> Stage03.fix_head m z k = Some z).
Proof.
  induction ks as [|k ks IH]; intros res y Hnd Hres Hp.
  - injection Hp as <-. split; [exact Hres|]. split; [reflexivity|]. split; [reflexivity|].
    intros k [].
  - cbn [Stage03.pass2] in Hp.
    destruct (Stage03.fix_head m res k) as [res1|] eqn:Hstep; [|discriminate].
    apply List.NoDup_cons_iff in Hnd as [Hnotin Hnd].
    destruct (fix_head_keeps m res res1 k Hstep) as (Hid1 & Hsp1 & Hothers).
    assert (Hres1 : numbered res1).
    { unfold numbered. rewrite (norm_end_ext res1 res 1 0 Hid1 Hsp1). exact Hres. }
    destruct (IH res1 y Hnd Hres1 Hp) as (Hy & Hidy & Hout & Hin).
    split; [exact Hy|]. split; [congruence|]. split.
    + intros j Hj. rewrite Hout by (intros H; apply Hj; right; exact H).
      apply Hothers. intros ->. apply Hj. left. reflexivity.
    + intros k' [<-|Hk'] z Hz Hidz Hzk.
      * apply (step_stable res res1 z k Hres Hz Hidz Hstep).
        rewrite Hzk. apply Hout, Hnotin.
      * apply (Hin k' Hk' z Hz); [congruence|exact Hzk].
Qed.

Lemma pass2_fixed ks (y : list Stage03.Token) :
  (forall k, In k ks -> Stage03.fix_head m y k = Some y) -> Stage03.pass2 m ks y = Some y.
Proof.
  induction ks as [|k ks IH]; intros H; [reflexivity|].
  cbn [Stage03.pass2]. rewrite (H k (or_introl eq_refl)). apply IH.
  intros k' Hk'. apply H. right. exact Hk'.
Qed.

Lemma index_of_self tk (l : list Stage03.Token) k :
  l !! k = Some tk -> is_Some (Stage03.index_of tk l).
Proof.
  revert k. induction l as [|a l IH]; intros k Hk; [discriminate Hk|].
  cbn [Stage03.index_of]. destruct (bool_decide (a = tk)) eqn:E; [eauto|].
  destruct k as [|k]; cbn in Hk.
  - injection Hk as ->. rewrite bool_decide_eq_true_2 in E by reflexivity. discriminate.
  - destruct (IH k Hk) as [i ->]. cbn. eauto.
Qed.

Lemma fix_head_total (res : list Stage03.Token) k :
  (forall tk, res !! k = Some tk ->
     isdigit (Stage03.head tk) = true -> is_Some (int (Stage03.head tk))) ->
  is_Some (Stage03.fix_head m res k).
Proof.
  intros Hok. unfold Stage03.fix_head. destruct (res !! k) as [tk|] eqn:Hk; [|eauto].
  destruct (contains _ _); [eauto|].
  destruct (isdigit (Stage03.head tk)) eqn:Hd.
  - destruct (Hok tk eq_refl Hd) as [oh ->]. destruct (m !! oh); eauto.
  - destruct (Stage03.is_placeholder _); [|eauto].
    destruct (index_of_self tk res k Hk) as [k' ->].
    destruct (Stage03.scan_back res k'); [|eauto]. destruct (res !! n); eauto.
Qed.

Lemma pass2_total ks :
  forall res : list Stage03.Token,
    List.NoDup ks ->
    (forall k tk, In k ks -> res !! k = Some tk ->
       isdigit (Stage03.head tk) = true -> is_Some (int (Stage03.head tk))) ->
    is_Some (Stage03.pass2 m ks res).
Proof.
  induction ks as [|k ks IH]; intros res Hnd Hok; [eauto|].
  cbn [Stage03.pass2]. apply List.NoDup_cons_iff in Hnd as [Hnotin Hnd].
  destruct (fix_head_total res k (fun tk => Hok k tk (or_introl eq_refl))) as [res1 Hstep].
  rewrite Hstep. apply IH; [exact Hnd|].
  intros k' tk Hk' Hl. destruct (fix_head_keeps m res res1 k Hstep) as (_ & _ & Hothers).
  rewrite Hothers in Hl by (intros ->; exact (Hnotin Hk')).
  apply (Hok k' tk); [right; exact Hk'|exact Hl].
Qed.

End SecondPass.

Lemma renumber03_normalized tokens e :
  norm_end tokens 1 0 = Some e ->
  exists m,
    (forall k, m !! k = if bool_decide (1 <= k < e)%Z then Some k else None) /\
    Stage03.renumber_preserving_mwts tokens
    = Stage03.pass2 m (seq 0 (List.length tokens)) tokens.
Proof.
  intros He.
  destruct (pass1_normalized tokens 1 0 e 1 0 ∅ He) as (m & Hp & Hm);
    [lia|reflexivity|congruence|].
  exists m. split.
  - intros k. rewrite Hm, lookup_empty. reflexivity.
  - unfold Stage03.renumber_preserving_mwts. rewrite Hp. reflexivity.
Qed.

Lemma renumber03_again tokens y :
  normalized03 tokens ->
  Stage03.renumber_preserving_mwts tokens = Some y ->
  Stage03.renumber_preserving_mwts y = Some y.
Proof.
  intros [e He] Hy.
  destruct (renumber03_normalized tokens e He) as (m & Hm & Hr). rewrite Hr in Hy.
  destruct (pass2_stable e m Hm _ tokens y (List.seq_NoDup _ _) He Hy)
    as (Hny & Hids & _ & Hstable).
  destruct (renumber03_normalized y e Hny) as (m' & Hm' & Hr').
  assert (m' = m) as ->.
  { apply map_eq. intros k. rewrite Hm, Hm'. reflexivity. }
  rewrite Hr'. apply pass2_fixed. intros k Hk.
  apply Hstable; [|exact Hny|exact Hids|reflexivity].
  assert (Hlen : List.length y = List.length tokens).
  { rewrite <- (List.length_map Stage03.id y), Hids. apply List.length_map. }
  rewrite <- Hlen. exact Hk.
Qed.

Lemma renumber03_total tokens :
  normalized03 tokens -> heads_ok tokens ->
  is_Some (Stage03.renumber_preserving_mwts tokens).
Proof.
  intros [e He] Hok.
  destruct (renumber03_normalized tokens e He) as (m & Hm & ->).
  apply pass2_total; [apply List.seq_NoDup|].
  intros k tk _ Hk. unfold heads_ok in Hok. rewrite List.Forall_forall in Hok.
  apply Hok. apply list_elem_of_In, list_elem_of_lookup. eauto.
Qed.

(** C7. Renumbering is idempotent on a sentence that is already numbered.
    Stage 42: when every token has an id and the atomic ids are 1..N in
    order, the pass applied to its own output returns that output.
    Stage 03: when the atomic ids are 1..N in order and every span line
    carries the range of the ids that follow it, the pass succeeds and
    the pass applied to its result returns that result (whenever the
    first application returns, and it does as soon as every head for
    which [isdigit] holds is a string [int] accepts). *)
Theorem renumbering_idempotent :
  (forall toks,
     normalized42 toks ->
     fst (Stage42.renumber (fst (Stage42.renumber toks))) = fst (Stage42.renumber toks))
  /\
  (forall tokens,
     normalized03 tokens ->
     (forall y, Stage03.renumber_preserving_mwts tokens = Some y ->
                Stage03.renumber_preserving_mwts y = Some y) /\
     (heads_ok tokens ->
      exists y, Stage03.renumber_preserving_mwts tokens = Some y /\
                Stage03.renumber_preserving_mwts y = Some y)).
Proof.
  split; [exact renumber42_idempotent|].
  intros tokens Hn. split.
  - intros y. apply renumber03_again, Hn.
  - intros Hok. destruct (renumber03_total tokens Hn Hok) as [y Hy].
    exists y. split; [exact Hy|]. exact (renumber03_again tokens y Hn Hy).
Qed.

Definition tok03 (i f h r : string) (span : option Z) : Stage03.Token :=
  Stage03.mkToken (lit i) (lit f) (lit f) (lit "X") (lit "_") (lit "_") (lit h) (lit r)
                  (lit "_") (lit "_") span.

Definition numbered42 : list Stage42.TokenLine :=
  [token42 [kv "id" "1"; kv "head-id" "2"; kv "rel" "2:x"]; token42 [kv "id" "2-3"];
   token42 [kv "id" "2"]; token42 [kv "id" "3"; kv "head-id" "2"]].

Definition numbered03 : list Stage03.Token :=
  [tok03 "1" "a" "2" "dep" None; tok03 "2-3" "bc" "_" "_" None;
   tok03 "2" "b" "0" "root" None; tok03 "3" "c" "BASE" "punct" None].

(** A four-line sentence with a span, numbered 1, 2-3, 2, 3, in both stages. *)
Lemma renumbering_idempotent_witness :
  fst (Stage42.renumber (fst (Stage42.renumber numbered42))) = fst (Stage42.renumber numbered42)
  /\ exists y, Stage03.renumber_preserving_mwts numbered03 = Some y /\
               Stage03.renumber_preserving_mwts y = Some y.
Proof.
  destruct renumbering_idempotent as [H42 H03]. split.
  - apply H42. split.
    + repeat constructor.
    + vm_compute. reflexivity.
  - apply (H03 numbered03).
    + vm_compute. eauto.
    + repeat constructor; vm_compute; intros H; try discriminate H; eauto.
Defined.

(** ** Stage 03: reading back what the serializer writes *)

Definition no_linebreak (s : list N) : bool := forallb (fun c => negb (is_linebreak c)) s.
Definition nonblank (s : list N) : bool := existsb (fun c => negb (isspace c)) s.
Definition field_ok (s : list N) : bool :=
  forallb (fun c => negb (c =? 9) && negb (is_linebreak c)) s.

Definition fields (t : Stage03.Token) : list (list N) :=
  [Stage03.id t; Stage03.form t; Stage03.lemma t; Stage03.upos t; Stage03.xpos t;
   Stage03.feats t; Stage03.head t; Stage03.deprel t; Stage03.deps t; Stage03.misc t].

(** A token as the parser makes it: ten columns free of tabs and line
    boundaries, not all blank, the first not starting a comment. *)
Definition wf_token (t : Stage03.Token) : Prop :=
  Stage03._mwt_span t = None /\
  forallb field_ok (fields t) = true /\
  startswith (Stage03.id t) Stage03.HASH = false /\
  nonblank (Stage03.to_line t) = true.

Definition wf_meta (m : list N) : Prop :=
  startswith m Stage03.HASH = true /\ no_linebreak m = true.

Definition lines_of (s : Stage03.Sentence) : list (list N) :=
  Stage03.meta s ++ List.map Stage03.to_line (Stage03.tokens s).

Definition wf_sentence (s : Stage03.Sentence) : Prop :=
  Forall wf_meta (Stage03.meta s) /\ Forall wf_token (Stage03.tokens s) /\ lines_of s <> [].

(** A line of the serializer: not empty, not blank, without line boundary. *)
Definition line_ok (l : list N) : Prop := no_linebreak l = true /\ nonblank l = true.

Lemma no_linebreak_no_nl l : no_linebreak l = true -> existsb (N.eqb 10) l = false.
Proof.
  induction l as [|c l IH]; [reflexivity|]. unfold no_linebreak. cbn [forallb existsb].
  intros H. apply andb_prop in H as [Hc Hl]. rewrite (IH Hl), orb_false_r.
  apply N.eqb_neq. intros <-. discriminate Hc.
Qed.

Lemma nonblank_nonempty l : nonblank l = true -> l <> [].
Proof. destruct l; [discriminate|discriminate]. Qed.

Lemma line_ok_head l : line_ok l -> exists c r, l = c :: r /\ c <> 10.
Proof.
  intros [Hnl Hnb]. destruct l as [|c r]; [discriminate|]. exists c, r. split; [reflexivity|].
  unfold no_linebreak in Hnl. cbn [forallb] in Hnl. apply andb_prop in Hnl as [Hc _].
  intros ->. discriminate Hc.
Qed.

Definition SEP : list N := Stage03.NL ++ Stage03.NL.

Lemma split_sep_line l acc c rest :
  existsb (N.eqb 10) l = false -> c <> 10 ->
  split_go SEP 0 acc (l ++ 10 :: c :: rest) = split_go SEP 0 (10 :: rev l ++ acc) (c :: rest).
Proof.
  revert acc. induction l as [|a l IH]; intros acc Hl Hc.
  - cbn [app split_go]. cbn [SEP Stage03.NL app startswith].
    rewrite N.eqb_refl. cbn [andb].
    assert (E : (10 =? c) = false) by (apply N.eqb_neq; congruence). rewrite E. reflexivity.
  - cbn [existsb] in Hl. apply orb_false_elim in Hl as [Ha Hl].
    cbn [app split_go]. cbn [SEP Stage03.NL app startswith]. rewrite Ha. cbn [andb].
    rewrite (IH _ Hl Hc). cbn [rev]. rewrite <- app_assoc. reflexivity.
Qed.

Lemma split_sep_last l acc :
  existsb (N.eqb 10) l = false ->
  split_go SEP 0 acc (l ++ [10]) = [rev acc ++ l ++ [10]].
Proof.
  revert acc. induction l as [|a l IH]; intros acc Hl.
  - cbn [app split_go]. cbn [SEP Stage03.NL app startswith].
    rewrite N.eqb_refl. cbn [andb rev]. reflexivity.
  - cbn [existsb] in Hl. apply orb_false_elim in Hl as [Ha Hl].
    cbn [app split_go]. cbn [SEP Stage03.NL app startswith]. rewrite Ha. cbn [andb].
    rewrite (IH _ Hl). cbn [rev]. rewrite <- !app_assoc. reflexivity.
Qed.

Lemma split_sep_cut l acc rest :
  existsb (N.eqb 10) l = false ->
  split_go SEP 0 acc (l ++ 10 :: 10 :: rest) = (rev acc ++ l) :: split_go SEP 0 [] rest.
Proof.
  revert acc. induction l as [|a l IH]; intros acc Hl.
  - cbn [app split_go]. cbn [SEP Stage03.NL app startswith List.length Nat.pred].
    rewrite !N.eqb_refl. cbn [andb]. rewrite app_nil_r. destruct rest; reflexivity.
  - cbn [existsb] in Hl. apply orb_false_elim in Hl as [Ha Hl].
    cbn [app split_go]. cbn [SEP Stage03.NL app startswith]. rewrite Ha. cbn [andb].
    rewrite (IH _ Hl). cbn [rev]. rewrite <- !app_assoc. reflexivity.
Qed.

Definition terminated (lines : list (list N)) : list N :=
  List.concat (List.map (fun l => l ++ Stage03.NL) lines).

Lemma split_lines_last lines :
  lines <> [] -> Forall line_ok lines ->
  forall acc, split_go SEP 0 acc (terminated lines)
              = [rev acc ++ join Stage03.NL lines ++ Stage03.NL].
Proof.
  induction lines as [|l lines IH]; intros Hne Hok acc; [congruence|].
  apply Forall_cons_iff in Hok as [[Hnl Hnb] Hok]. unfold terminated. cbn [List.map List.concat].
  fold (terminated lines). destruct lines as [|l2 lines].
  - cbn [terminated List.map List.concat join]. rewrite app_nil_r.
    unfold Stage03.NL. apply split_sep_last, no_linebreak_no_nl, Hnl.
  - pose proof Hok as Hok'. apply Forall_cons_iff in Hok' as [Hl2 _].
    destruct (line_ok_head l2 Hl2) as (c & r & -> & Hc).
    unfold terminated at 1. cbn [List.map List.concat]. fold (terminated lines).
    rewrite <- !app_assoc. cbn [Stage03.NL app].
    rewrite split_sep_line by (try apply no_linebreak_no_nl; assumption).
    replace (c :: r ++ 10 :: terminated lines) with (terminated ((c :: r) :: lines))
      by (unfold terminated; cbn [List.map List.concat Stage03.NL];
          rewrite <- app_assoc; reflexivity).
    rewrite (IH ltac:(discriminate) Hok). cbn [rev join Stage03.NL].
    rewrite rev_app_distr, rev_involutive. cbn [rev app].
    rewrite <- !app_assoc. reflexivity.
Qed.

Lemma split_lines_cut lines :
  lines <> [] -> Forall line_ok lines ->
  forall acc rest, split_go SEP 0 acc (terminated lines ++ 10 :: rest)
                   = (rev acc ++ join Stage03.NL lines) :: split_go SEP 0 [] rest.
Proof.
  induction lines as [|l lines IH]; intros Hne Hok acc rest; [congruence|].
  apply Forall_cons_iff in Hok as [[Hnl Hnb] Hok]. unfold terminated. cbn [List.map List.concat].
  fold (terminated lines). destruct lines as [|l2 lines].
  - cbn [terminated List.map List.concat join]. rewrite app_nil_r.
    rewrite <- app_assoc. cbn [Stage03.NL app].
    apply split_sep_cut, no_linebreak_no_nl, Hnl.
  - pose proof Hok as Hok'. apply Forall_cons_iff in Hok' as [Hl2 _].
    destruct (line_ok_head l2 Hl2) as (c & r & -> & Hc).
    unfold terminated at 1. cbn [List.map List.concat]. fold (terminated lines).
    rewrite <- !app_assoc. cbn [Stage03.NL app].
    rewrite split_sep_line by (try apply no_linebreak_no_nl; assumption).
    replace (c :: r ++ 10 :: terminated lines ++ 10 :: rest)
      with (terminated ((c :: r) :: lines) ++ 10 :: rest)
      by (unfold terminated; cbn [List.map List.concat Stage03.NL];
          rewrite <- !app_assoc; reflexivity).
    rewrite (IH ltac:(discriminate) Hok). cbn [rev join Stage03.NL].
    rewrite rev_app_distr, rev_involutive. cbn [rev app].
    rewrite <- !app_assoc. reflexivity.
Qed.

Lemma splitlines_go_line l acc rest :
  no_linebreak l = true ->
  splitlines_go acc (l ++ 10 :: rest) = (rev acc ++ l) :: splitlines_go [] rest.
Proof.
  revert acc. induction l as [|a l IH]; intros acc Hl.
  - cbn [app splitlines_go]. change (is_linebreak 10) with true. cbv iota.
    change (10 =? 13) with false. cbv iota. rewrite app_nil_r. reflexivity.
  - unfold no_linebreak in Hl. cbn [forallb] in Hl. apply andb_prop in Hl as [Ha Hl].
    cbn [app splitlines_go]. apply negb_true_iff in Ha. rewrite Ha.
    rewrite (IH _ Hl). cbn [rev]. rewrite <- app_assoc. reflexivity.
Qed.

Lemma splitlines_go_end l acc :
  no_linebreak l = true -> l <> [] -> splitlines_go acc l = [rev acc ++ l].
Proof.
  revert acc. induction l as [|a l IH]; intros acc Hl Hne; [congruence|].
  unfold no_linebreak in Hl. cbn [forallb] in Hl. apply andb_prop in Hl as [Ha Hl].
  cbn [splitlines_go]. apply negb_true_iff in Ha. rewrite Ha.
  destruct l as [|b l].
  - cbn [splitlines_go rev app]. reflexivity.
  - rewrite (IH _ Hl ltac:(discriminate)). cbn [rev]. rewrite <- app_assoc. reflexivity.
Qed.

Lemma splitlines_join lines :
  Forall line_ok lines ->
  splitlines (join Stage03.NL lines) = lines /\
  (lines <> [] -> splitlines (join Stage03.NL lines ++ Stage03.NL) = lines).
Proof.
  unfold splitlines. induction lines as [|l lines IH]; intros Hok; [split; [reflexivity|congruence]|].
  apply Forall_cons_iff in Hok as [[Hnl Hnb] Hok]. destruct (IH Hok) as [IH1 IH2].
  destruct lines as [|l2 lines].
  - cbn [join]. split.
    + apply splitlines_go_end; [exact Hnl|apply nonblank_nonempty, Hnb].
    + intros _. unfold Stage03.NL. rewrite splitlines_go_line by exact Hnl. reflexivity.
  - change (join Stage03.NL (l :: l2 :: lines))
      with (l ++ 10 :: join Stage03.NL (l2 :: lines)).
    split.
    + rewrite splitlines_go_line by exact Hnl. cbn [rev app]. f_equal. exact IH1.
    + intros _. rewrite <- app_assoc. cbn [app].
      rewrite splitlines_go_line by exact Hnl. cbn [rev app].
      f_equal. apply IH2. discriminate.
Qed.

Lemma existsb_rev {A} (f : A -> bool) l : existsb f (rev l) = existsb f l.
Proof.
  induction l as [|a l IH]; [reflexivity|]. cbn [rev existsb].
  rewrite existsb_app, IH. cbn [existsb]. rewrite orb_false_r. apply orb_comm.
Qed.

Lemma lstrip_keeps f s :
  existsb (fun c => negb (f c)) s = true ->
  existsb (fun c => negb (f c)) (lstrip_by f s) = true.
Proof.
  induction s as [|c s IH]; [discriminate|]. cbn [existsb lstrip_by].
  destruct (f c) eqn:E; cbn [negb orb].
  - exact IH.
  - intros _. cbn [existsb]. rewrite E. reflexivity.
Qed.

Lemma strip_truthy s : nonblank s = true -> truthy (strip s) = true.
Proof.
  intros H. unfold strip, rstrip_by.
  assert (H' : existsb (fun c => negb (isspace c))
                 (rev (lstrip_by isspace (rev (lstrip_by isspace s)))) = true).
  { rewrite existsb_rev. apply lstrip_keeps. rewrite existsb_rev. apply lstrip_keeps, H. }
  destruct (rev _); [discriminate|reflexivity].
Qed.

Lemma nonblank_app_l a b : nonblank a = true -> nonblank (a ++ b) = true.
Proof. intros H. unfold nonblank. rewrite existsb_app. unfold nonblank in H. rewrite H. reflexivity. Qed.

Lemma nonblank_app_r a b : nonblank b = true -> nonblank (a ++ b) = true.
Proof.
  intros H. unfold nonblank. rewrite existsb_app. unfold nonblank in H. rewrite H.
  apply orb_true_r.
Qed.

Lemma nonblank_join lines :
  lines <> [] -> Forall line_ok lines -> nonblank (join Stage03.NL lines) = true.
Proof.
  intros Hne Hok. destruct lines as [|l lines]; [congruence|].
  apply Forall_cons_iff in Hok as [[_ Hnb] _].
  destruct lines; [exact Hnb|]. cbn [join]. apply nonblank_app_l, Hnb.
Qed.

(** *** Lines of a well-formed sentence *)

Lemma field_ok_no_tab f : field_ok f = true -> existsb (N.eqb 9) f = false.
Proof.
  induction f as [|c f IH]; [reflexivity|]. unfold field_ok. cbn [forallb existsb].
  intros H. apply andb_prop in H as [Hc Hf]. apply andb_prop in Hc as [Hc _].
  rewrite (IH Hf), orb_false_r. rewrite N.eqb_sym. apply negb_true_iff, Hc.
Qed.

Lemma field_ok_no_linebreak f : field_ok f = true -> no_linebreak f = true.
Proof.
  unfold field_ok, no_linebreak. apply forallb_impl. intros c H.
  apply andb_prop in H as [_ H]. exact H.
Qed.

Lemma no_linebreak_app a b :
  no_linebreak a = true -> no_linebreak b = true -> no_linebreak (a ++ b) = true.
Proof. unfold no_linebreak. intros Ha Hb. rewrite forallb_app, Ha, Hb. reflexivity. Qed.

Lemma no_linebreak_join_tab fs :
  forallb field_ok fs = true -> no_linebreak (join Stage03.TAB fs) = true.
Proof.
  induction fs as [|f fs IH]; [reflexivity|]. cbn [forallb]. intros H.
  apply andb_prop in H as [Hf Hfs]. destruct fs as [|g fs].
  - cbn [join]. apply field_ok_no_linebreak, Hf.
  - change (join Stage03.TAB (f :: g :: fs)) with (f ++ Stage03.TAB ++ join Stage03.TAB (g :: fs)).
    apply no_linebreak_app; [apply field_ok_no_linebreak, Hf|].
    apply no_linebreak_app; [reflexivity|apply IH, Hfs].
Qed.

Lemma split_join_tab fs :
  fs <> [] -> forallb field_ok fs = true -> split Stage03.TAB (join Stage03.TAB fs) = fs.
Proof.
  unfold split. induction fs as [|f fs IH]; intros Hne H; [congruence|].
  cbn [forallb] in H. apply andb_prop in H as [Hf Hfs]. destruct fs as [|g fs].
  - cbn [join]. unfold Stage03.TAB. rewrite split_go_char_none by (apply field_ok_no_tab, Hf).
    reflexivity.
  - change (join Stage03.TAB (f :: g :: fs)) with (f ++ 9 :: join Stage03.TAB (g :: fs)).
    unfold Stage03.TAB at 1. rewrite split_go_char_app by (apply field_ok_no_tab, Hf).
    cbn [rev app]. f_equal. apply IH; [discriminate|exact Hfs].
Qed.

Lemma to_line_ok t : wf_token t -> line_ok (Stage03.to_line t).
Proof.
  intros (_ & Hf & _ & Hnb). split; [|exact Hnb].
  unfold Stage03.to_line. apply (no_linebreak_join_tab (fields t) Hf).
Qed.

Lemma from_to_line t : wf_token t -> Stage03.from_line (Stage03.to_line t) = Some t.
Proof.
  intros Hwf. pose proof (to_line_ok t Hwf) as [Hnl _].
  destruct Hwf as (Hsp & Hf & _ & _).
  unfold Stage03.from_line.
  assert (Hr : rstrip_chars Stage03.NL (Stage03.to_line t) = Stage03.to_line t).
  { unfold rstrip_chars. apply rstrip_by_none. revert Hnl. unfold no_linebreak.
    apply forallb_impl. intros c Hc. unfold has_char, Stage03.NL. cbn [existsb].
    rewrite orb_false_r. apply negb_true_iff, N.eqb_neq. intros ->. discriminate Hc. }
  rewrite Hr. change (Stage03.to_line t) with (join Stage03.TAB (fields t)).
  rewrite (split_join_tab (fields t) ltac:(discriminate) Hf). unfold fields.
  destruct t. cbn in Hsp. subst. reflexivity.
Qed.

Lemma to_line_not_comment t :
  wf_token t -> startswith (Stage03.to_line t) Stage03.HASH = false.
Proof.
  intros (_ & _ & Hid & _). unfold Stage03.to_line.
  change (join Stage03.TAB _) with (Stage03.id t ++ 9 :: join Stage03.TAB (List.tl (fields t))).
  destruct (Stage03.id t) as [|c r]; [reflexivity|].
  cbn [app startswith Stage03.HASH] in *.
  destruct (35 =? c); [|reflexivity]. destruct r; discriminate Hid.
Qed.

Lemma meta_ok m : wf_meta m -> line_ok m.
Proof.
  intros [Hs Hnl]. split; [exact Hnl|]. destruct m as [|c r]; [discriminate|].
  cbn [startswith Stage03.HASH] in Hs. apply andb_prop in Hs as [Hc _].
  apply N.eqb_eq in Hc. subst c. reflexivity.
Qed.

Lemma lines_of_ok s : wf_sentence s -> Forall line_ok (lines_of s).
Proof.
  intros (Hm & Ht & _). unfold lines_of. apply List.Forall_app. split.
  - revert Hm. apply List.Forall_impl. exact meta_ok.
  - apply List.Forall_map. revert Ht. apply List.Forall_impl. exact to_line_ok.
Qed.

Lemma filter_all {A} (f : A -> bool) l : Forall (fun x => f x = true) l -> List.filter f l = l.
Proof.
  induction 1 as [|x l Hx _ IH]; [reflexivity|]. cbn [List.filter]. rewrite Hx, IH. reflexivity.
Qed.

Lemma filter_none {A} (f : A -> bool) l : Forall (fun x => f x = false) l -> List.filter f l = [].
Proof.
  induction 1 as [|x l Hx _ IH]; [reflexivity|]. cbn [List.filter]. rewrite Hx, IH. reflexivity.
Qed.

Lemma parse_to_lines toks :
  Forall wf_token toks -> Stage03.parse_lines (List.map Stage03.to_line toks) = toks.
Proof.
  induction 1 as [|t toks Ht _ IH]; [reflexivity|].
  cbn [List.map Stage03.parse_lines]. rewrite (from_to_line t Ht), IH. reflexivity.
Qed.

(** The sentence read from the lines of a well-formed sentence. *)
Lemma read_lines s :
  wf_sentence s ->
  Stage03.mkSentence
    (List.filter (fun ln => startswith ln Stage03.HASH)
       (List.filter (fun ln => truthy (strip ln)) (lines_of s)))
    (Stage03.parse_lines
       (List.filter (fun ln => negb (startswith ln Stage03.HASH))
          (List.filter (fun ln => truthy (strip ln)) (lines_of s))))
  = s.
Proof.
  intros Hwf. pose proof (lines_of_ok s Hwf) as Hok. destruct Hwf as (Hm & Ht & _).
  rewrite (filter_all (fun ln => truthy (strip ln)))
    by (revert Hok; apply List.Forall_impl; intros l [_ Hnb]; apply strip_truthy, Hnb).
  unfold lines_of. rewrite !List.filter_app.
  rewrite (filter_all (fun ln => startswith ln Stage03.HASH) (Stage03.meta s))
    by (revert Hm; apply List.Forall_impl; intros m [H _]; exact H).
  rewrite (filter_none (fun ln => startswith ln Stage03.HASH))
    by (apply List.Forall_map; revert Ht; apply List.Forall_impl; intros t; apply to_line_not_comment).
  rewrite (filter_none (fun ln => negb (startswith ln Stage03.HASH)) (Stage03.meta s))
    by (revert Hm; apply List.Forall_impl; intros m [H _]; rewrite H; reflexivity).
  rewrite (filter_all (fun ln => negb (startswith ln Stage03.HASH)))
    by (apply List.Forall_map; revert Ht; apply List.Forall_impl; intros t H;
        rewrite (to_line_not_comment t H); reflexivity).
  rewrite app_nil_r. cbn [app]. rewrite (parse_to_lines _ Ht). destruct s; reflexivity.
Qed.

Lemma read_block_join s :
  wf_sentence s ->
  Stage03.read_block (join Stage03.NL (lines_of s)) = s /\
  Stage03.read_block (join Stage03.NL (lines_of s) ++ Stage03.NL) = s.
Proof.
  intros Hwf. pose proof (lines_of_ok s Hwf) as Hok.
  destruct (splitlines_join (lines_of s) Hok) as [H1 H2].
  destruct Hwf as (Hm & Ht & Hne). specialize (H2 Hne).
  unfold Stage03.read_block. rewrite H1, H2.
  split; apply read_lines; repeat split; assumption.
Qed.

(** The blocks between blank lines of the text of [s :: rest]. *)
Fixpoint blocks (s : Stage03.Sentence) (rest : list Stage03.Sentence) : list (list N) :=
  match rest with
  | [] => [join Stage03.NL (lines_of s) ++ Stage03.NL]
  | s2 :: rest' => join Stage03.NL (lines_of s) :: blocks s2 rest'
  end.

Lemma write_sentence_terminated s : Stage03.write_sentence s = terminated (lines_of s).
Proof.
  unfold Stage03.write_sentence, terminated, lines_of.
  rewrite List.map_app, List.concat_app, List.map_map. reflexivity.
Qed.

Lemma split_written s rest :
  Forall wf_sentence (s :: rest) ->
  split SEP (Stage03.write_sentence s ++ Stage03.write_conllu_go false rest) = blocks s rest.
Proof.
  unfold split. revert s. induction rest as [|s2 rest IH]; intros s Hwf.
  - apply Forall_cons_iff in Hwf as [Hs _]. cbn [Stage03.write_conllu_go blocks].
    rewrite app_nil_r, write_sentence_terminated.
    rewrite split_lines_last; [reflexivity|apply Hs|apply lines_of_ok, Hs].
  - apply Forall_cons_iff in Hwf as [Hs Hrest]. cbn [Stage03.write_conllu_go blocks].
    rewrite write_sentence_terminated. cbn [Stage03.NL app].
    rewrite split_lines_cut; [|apply Hs|apply lines_of_ok, Hs].
    cbn [rev app]. f_equal. apply IH, Hrest.
Qed.

Lemma read_blocks s rest :
  Forall wf_sentence (s :: rest) ->
  List.map Stage03.read_block (List.filter (fun b => truthy (strip b)) (blocks s rest))
  = s :: rest.
Proof.
  revert s. induction rest as [|s2 rest IH]; intros s Hwf;
    apply Forall_cons_iff in Hwf as [Hs Hrest]; cbn [blocks List.filter].
  - rewrite strip_truthy.
    + cbn [List.map]. f_equal. apply read_block_join, Hs.
    + apply nonblank_app_l, nonblank_join; [apply Hs|apply lines_of_ok, Hs].
  - rewrite strip_truthy by (apply nonblank_join; [apply Hs|apply lines_of_ok, Hs]).
    cbn [List.map]. f_equal; [apply read_block_join, Hs|apply IH, Hrest].
Qed.

Lemma read_write sents :
  Forall wf_sentence sents -> Stage03.read_conllu (Stage03.write_conllu sents) = sents.
Proof.
  intros Hwf. unfold Stage03.read_conllu, Stage03.write_conllu.
  destruct sents as [|s rest]; [reflexivity|].
  cbn [Stage03.write_conllu_go app]. fold SEP.
  rewrite (split_written s rest Hwf). apply read_blocks, Hwf.
Qed.

(** C5 (amended). A file in the layout of the serializer of stage 03 is
    reproduced byte for byte by parsing and serializing without edit.
    The layout: sentences separated by one blank line; each sentence a
    non-empty run of comment lines, which start with the comment sign,
    followed by token lines of exactly ten tab-separated columns; every
    line ended by a line feed; no column holds a tab; no column and no
    comment holds a character at which [splitlines] ends a line (LF, CR,
    VT, FF, FS, GS, RS, NEL, U+2028, U+2029); the first column does not
    start with the comment sign; every token line has a character that
    is not whitespace.  The sentences read are those written, the tokens
    being as the parser makes them, without the internal span marker. *)
Theorem roundtrip_canonical (sents : list Stage03.Sentence) :
  Forall wf_sentence sents ->
  Stage03.read_conllu (Stage03.write_conllu sents) = sents /\
  Stage03.write_conllu (Stage03.read_conllu (Stage03.write_conllu sents))
  = Stage03.write_conllu sents.
Proof.
  intros Hwf. pose proof (read_write sents Hwf) as H. split; [exact H|].
  rewrite H. reflexivity.
Qed.

Definition canonical_sents : list Stage03.Sentence :=
  [Stage03.mkSentence [lit "# sent_id = 1"; lit "# text = a b"]
     [tok03 "1" "a" "2" "dep" None; tok03 "2" "b" "0" "root" None];
   Stage03.mkSentence [lit "# sent_id = 2"]
     [tok03 "1" "c" "0" "root" None]].

(** Two sentences with their comment lines. *)
Lemma roundtrip_canonical_witness :
  Stage03.read_conllu (Stage03.write_conllu canonical_sents) = canonical_sents /\
  Stage03.write_conllu (Stage03.read_conllu (Stage03.write_conllu canonical_sents))
  = Stage03.write_conllu canonical_sents.
Proof.
  apply roundtrip_canonical.
  repeat constructor; try discriminate; vm_compute; reflexivity.
Defined.

(** A comment with the line separator U+2028 in it, before a token line. *)
Definition separator_block : list N :=
  lit "# a" ++ [8232] ++ lit "b" ++ [10] ++ good_line ++ [10].

Definition sentence_block12 : list N :=
  lit "<sentence>" ++ [10] ++ lit "<token form=a />" ++ [10] ++ lit "</sentence>" ++ [10].

(** C5 as stated fails.  In stage 03 a token line with nine columns does
    not come back, and an eleven-column line comes back cut to ten; a
    comment is cut at the line separator U+2028 and what follows it on
    the line is lost.  Stage 12 gives nothing back: its module holds a
    string with the prefix frf (line 49) and is rejected when it is
    compiled. *)
Lemma roundtrip_counterexample :
  Stage03.write_conllu (Stage03.read_conllu (good_line ++ [10] ++ short_line ++ [10]))
    = good_line ++ [10]
  /\ Stage03.write_conllu (Stage03.read_conllu (long_line ++ [10]))
     = columns ["2"; "b"; "b"; "X"; "_"; "_"; "1"; "dep"; "_"; "_"]%string ++ [10]
  /\ Stage03.write_conllu (Stage03.read_conllu separator_block)
     = lit "# a" ++ [10] ++ good_line ++ [10]
  /\ good_line ++ [10] <> good_line ++ [10] ++ short_line ++ [10]
  /\ valid_prefix Stage12.REPLACEMENT_PREFIX = false
  /\ Stage12.process_file (sentence_block12 ++ sentence_block12) = None.
Proof.
  split; [vm_compute; reflexivity|]. split; [vm_compute; reflexivity|].
  split; [vm_compute; reflexivity|].
  split; [vm_compute; intros E; discriminate E|].
  split; reflexivity.
Qed.

(** ** Stage 00: the module and its replacement string *)

Lemma loaded_rejected {A} prefixes (body : option A) :
  forallb valid_prefix prefixes = false -> loaded prefixes body = None.
Proof. unfold loaded. intros ->. reflexivity. Qed.

Lemma stage00_prefixes : forallb valid_prefix Stage00.literal_prefixes = false.
Proof. reflexivity. Qed.

Definition line00 (kvs : list (list N)) : list N := lit "<token " ++ join [32] kvs ++ lit " />".

(** A file of one sentence without any ibrew-z token. *)
Definition plain_file00 : list N :=
  line00 [quoted "id" "1"; quoted "head-id" "0"; quoted "relation" "root"; quoted "lemma" "a"]
  ++ [10] ++ Stage00.SENTENCE_DELIM ++ [10].

(** C10 (code bug). The stage returns for no input.  The replacement
    string of [set_attr] (line 51) is written with the prefix frf, which
    is no string prefix (the sibling stage 40 writes the same string with
    the prefix rf): it gives no string, the module is rejected when it is
    compiled, and neither [set_attr] nor [transform_sentence] nor
    [update_and_split_token] returns, also for a file of one sentence
    without any ibrew-z token, which the claim and the docstring of the
    module have returned unchanged. *)
Theorem ibrew_split_module_rejected :
  valid_prefix Stage00.REPLACEMENT_PREFIX = false
  /\ valid_prefix "rf" = true
  /\ (forall value, group_literal Stage00.REPLACEMENT_PREFIX value = None)
  /\ (forall line name value, Stage00.set_attr line name value = None)
  /\ (forall block, Stage00.transform_sentence block = None)
  /\ (forall text, Stage00.update_and_split_token text = None)
  /\ Stage00.update_and_split_token plain_file00 <> Some plain_file00.
Proof.
  split; [reflexivity|]. split; [reflexivity|]. split; [reflexivity|].
  split; [intros; apply loaded_rejected, stage00_prefixes|].
  split; [intros; apply loaded_rejected, stage00_prefixes|].
  split; [intros; apply loaded_rejected, stage00_prefixes|].
  unfold Stage00.update_and_split_token.
  rewrite (loaded_rejected _ _ stage00_prefixes). discriminate.
Qed.

(** ** Stage 40: replacement templates that compile *)

Definition lits (v : list N) : list Re.piece := List.map (fun c => Re.Lit [c]) v.

Lemma expand_lits v gs : Re.expand (lits v) gs = v.
Proof.
  unfold Re.expand, lits. induction v as [|c v IH]; [reflexivity|].
  cbn [List.map List.concat Re.piece_text app]. f_equal. exact IH.
Qed.

Lemma expand_cons p ps gs : Re.expand (p :: ps) gs = Re.piece_text gs p ++ Re.expand ps gs.
Proof. reflexivity. Qed.

Lemma expand_app ps qs gs : Re.expand (ps ++ qs) gs = Re.expand ps gs ++ Re.expand qs gs.
Proof. unfold Re.expand. rewrite List.map_app, List.concat_app. reflexivity. Qed.

(** A template without backslash stands for itself. *)
Lemma parse_plain tpl :
  has_char 92 tpl = false ->
  forall fuel n, (List.length tpl <= fuel)%nat -> Re.parse_template fuel n tpl = Some (lits tpl).
Proof.
  induction tpl as [|c r IH]; intros H fuel n Hf.
  - destruct fuel; reflexivity.
  - destruct fuel as [|f]; [cbn in Hf; lia|]. cbn [List.length] in Hf.
    unfold has_char in H. cbn [existsb] in H. apply orb_false_elim in H as [Hc Hr].
    cbn [Re.parse_template]. unfold Re.BACKSLASH. rewrite N.eqb_sym, Hc. cbn [negb].
    rewrite (IH Hr f n ltac:(lia)). reflexivity.
Qed.

Lemma compile_plain n tpl :
  has_char 92 tpl = false -> Re.compile_template n tpl = Some (lits tpl).
Proof. intros H. unfold Re.compile_template. apply parse_plain; [exact H|lia]. Qed.

(** A value that may stand between the two group references: no
    backslash, and no digit first. *)
Definition safe (v : list N) : bool :=
  negb (has_char 92 v) &&
  match v with
  | c :: _ => negb (Re.is_asciidigit c)
  | [] => true
  end.

Lemma parse_value_group v :
  has_char 92 v = false ->
  forall fuel, (List.length v < fuel)%nat ->
    Re.parse_template fuel 2 (v ++ [92; 50]) = Some (lits v ++ [Re.Group 2]).
Proof.
  induction v as [|c r IH]; intros H fuel Hf.
  - destruct fuel as [|f]; [cbn in Hf; lia|]. reflexivity.
  - destruct fuel as [|f]; [cbn in Hf; lia|]. cbn [List.length] in Hf.
    unfold has_char in H. cbn [existsb] in H. apply orb_false_elim in H as [Hc Hr].
    cbn [app Re.parse_template]. unfold Re.BACKSLASH. rewrite N.eqb_sym, Hc. cbn [negb].
    rewrite (IH Hr f ltac:(lia)). reflexivity.
Qed.

Lemma parse_group_head f v :
  match v with c :: _ => Re.is_asciidigit c = false | [] => True end ->
  Re.parse_template (S f) 2 (92 :: 49 :: v ++ [92; 50])
  = Re.group_ref 2 1 (Re.parse_template f 2 (v ++ [92; 50])).
Proof.
  intros Hd. cbn [Re.parse_template].
  change (negb (92 =? Re.BACKSLASH)) with false. cbv iota.
  change (49 =? 103) with false. change (49 =? 48) with false.
  change (Re.is_asciidigit 49) with true. cbv iota.
  destruct v as [|d r]; [reflexivity|]. cbn [app]. rewrite Hd. reflexivity.
Qed.

Lemma compile_group v :
  safe v = true ->
  Re.compile_template 2 ([92; 49] ++ v ++ [92; 50])
  = Some (Re.Group 1 :: lits v ++ [Re.Group 2]).
Proof.
  unfold safe. intros H. apply andb_prop in H as [Hb Hd]. apply negb_true_iff in Hb.
  unfold Re.compile_template. cbn [app List.length].
  rewrite parse_group_head.
  - rewrite parse_value_group; [reflexivity|exact Hb|].
    rewrite List.length_app. cbn. lia.
  - destruct v; [exact I|]. apply negb_true_iff, Hd.
Qed.

Lemma expand_group v g0 g1 g2 :
  Re.expand (Re.Group 1 :: lits v ++ [Re.Group 2]) [g0; g1; g2] = g1 ++ v ++ g2.
Proof.
  rewrite expand_cons, expand_app, expand_lits. cbn. rewrite app_nil_r. reflexivity.
Qed.

Lemma has_char_app c a b : has_char c (a ++ b) = has_char c a || has_char c b.
Proof. apply existsb_app. Qed.

(** ** Stage 40: one root after the collapse *)

Lemma startswith_app_long x y p :
  (List.length p <= List.length x)%nat -> startswith (x ++ y) p = startswith x p.
Proof.
  revert x. induction p as [|a p IH]; intros x H; [destruct x, y; reflexivity|].
  destruct x as [|b x]; [cbn in H; lia|]. cbn [app startswith].
  rewrite IH by (cbn in H; lia). reflexivity.
Qed.

Lemma startswith_self p y : startswith (p ++ y) p = true.
Proof.
  induction p as [|a p IH]; [destruct y; reflexivity|].
  cbn [app startswith]. rewrite N.eqb_refl. exact IH.
Qed.

Lemma skipn_self (p y : list N) : List.skipn (List.length p) (p ++ y) = y.
Proof. induction p; [reflexivity|]. exact IHp. Qed.

Lemma until_quote_value acc v b :
  has_char Re.QUOTE v = false -> Re.until_quote acc (v ++ Re.QUOTE :: b) = Some (rev acc ++ v, b).
Proof.
  revert acc. induction v as [|c v IH]; intros acc H.
  - cbn [app Re.until_quote]. rewrite N.eqb_refl, app_nil_r. reflexivity.
  - unfold has_char in H. cbn [existsb] in H. apply orb_false_elim in H as [Hc Hv].
    cbn [app Re.until_quote]. rewrite N.eqb_sym, Hc. rewrite (IH _ Hv). cbn [rev].
    rewrite <- app_assoc. reflexivity.
Qed.

(** The pattern does not occur at any position of [pre] in [pre ++ pat]. *)
Fixpoint clean_prefix (pat pre : list N) : bool :=
  match pre with
  | [] => true
  | _ :: pre' => negb (startswith (pre ++ pat) pat) && clean_prefix pat pre'
  end.

(** The character before the position that follows [pre]. *)
Definition prev_after (prev : option N) (pre : list N) : option N :=
  fold_left (fun _ c => Some c) pre prev.

Lemma search_attr_eq name prev s :
  Re.search_attr name prev s =
  match
    (if Re.word_boundary prev (List.hd_error s) && startswith s (Re.attr_open name)
     then option_map fst (Re.until_quote [] (List.skipn (List.length (Re.attr_open name)) s))
     else None)
  with
  | Some v => Some v
  | None =>
      match s with
      | [] => None
      | c :: s' => Re.search_attr name (Some c) s'
      end
  end.
Proof. destruct s; reflexivity. Qed.

Lemma search_attr_open_eq name prev s :
  Re.search_attr_open name prev s =
  (Re.word_boundary prev (List.hd_error s) && startswith s (Re.attr_open name)) ||
  match s with
  | [] => false
  | c :: s' => Re.search_attr_open name (Some c) s'
  end.
Proof. destruct s; reflexivity. Qed.

Lemma sub_attr_eq name tpl s :
  Re.sub_attr name tpl s =
  match
    (if startswith s (Re.attr_open name)
     then Re.until_quote [] (List.skipn (List.length (Re.attr_open name)) s)
     else None)
  with
  | Some (v, rest) =>
      Re.expand tpl [Re.attr_open name ++ v ++ [Re.QUOTE]; Re.attr_open name; [Re.QUOTE]] ++ rest
  | None =>
      match s with
      | [] => []
      | c :: s' => c :: Re.sub_attr name tpl s'
      end
  end.
Proof. destruct s; reflexivity. Qed.

Lemma hd_error_open name rest :
  List.hd_error (Re.attr_open name ++ rest) = List.hd_error (Re.attr_open name).
Proof. unfold Re.attr_open. destruct name; reflexivity. Qed.

Section Decomposed.

Variables (name pre v b : list N).
Hypothesis clean : clean_prefix (Re.attr_open name) pre = true.
Hypothesis no_quote : has_char Re.QUOTE v = false.

Let line := pre ++ Re.attr_open name ++ v ++ Re.QUOTE :: b.

Lemma clean_step c pre' rest :
  clean_prefix (Re.attr_open name) (c :: pre') = true ->
  startswith ((c :: pre') ++ Re.attr_open name ++ rest) (Re.attr_open name) = false.
Proof.
  cbn [clean_prefix]. intros H. apply andb_prop in H as [H _]. apply negb_true_iff in H.
  rewrite app_assoc, startswith_app_long; [exact H|].
  rewrite List.length_app. lia.
Qed.

Lemma search_attr_decomposed prev :
  Re.word_boundary (prev_after prev pre) (List.hd_error (Re.attr_open name)) = true ->
  Re.search_attr name prev line = Some v.
Proof.
  unfold line. clear line. revert prev clean.
  induction pre as [|c pre' IH]; intros prev Hclean Hb.
  - cbn [app]. rewrite search_attr_eq, hd_error_open. cbn [prev_after fold_left] in Hb.
    rewrite Hb, startswith_self, skipn_self. cbn [andb].
    rewrite (until_quote_value [] v b no_quote). reflexivity.
  - rewrite search_attr_eq. rewrite (clean_step c pre' _ Hclean), andb_false_r.
    cbn [app]. apply IH; [|exact Hb].
    cbn [clean_prefix] in Hclean. apply andb_prop in Hclean as [_ H]. exact H.
Qed.

Lemma search_attr_open_decomposed prev :
  Re.word_boundary (prev_after prev pre) (List.hd_error (Re.attr_open name)) = true ->
  Re.search_attr_open name prev line = true.
Proof.
  unfold line. clear line. revert prev clean.
  induction pre as [|c pre' IH]; intros prev Hclean Hb.
  - cbn [app]. rewrite search_attr_open_eq, hd_error_open. cbn [prev_after fold_left] in Hb.
    rewrite Hb, startswith_self. reflexivity.
  - rewrite search_attr_open_eq. rewrite (clean_step c pre' _ Hclean), andb_false_r.
    cbn [app orb]. apply IH; [|exact Hb].
    cbn [clean_prefix] in Hclean. apply andb_prop in Hclean as [_ H]. exact H.
Qed.

Lemma sub_attr_decomposed tpl :
  Re.sub_attr name tpl line
  = pre ++ Re.expand tpl [Re.attr_open name ++ v ++ [Re.QUOTE]; Re.attr_open name; [Re.QUOTE]] ++ b.
Proof.
  unfold line. clear line. revert clean.
  induction pre as [|c pre' IH]; intros Hclean.
  - cbn [app]. rewrite sub_attr_eq, startswith_self, skipn_self.
    rewrite (until_quote_value [] v b no_quote). reflexivity.
  - rewrite sub_attr_eq. rewrite (clean_step c pre' _ Hclean).
    cbn [app]. f_equal. apply IH.
    cbn [clean_prefix] in Hclean. apply andb_prop in Hclean as [_ H]. exact H.
Qed.

End Decomposed.

(** *** Insertion after an attribute *)

Lemma sub_slash_gt_eq tpl s :
  Re.sub_slash_gt tpl s =
  (let r := lstrip_by isspace s in
   if startswith r [47; 62]
   then Re.expand tpl [List.firstn (List.length s - List.length r + 2) s] ++ List.skipn 2 r
   else match s with
        | [] => []
        | c :: s' => c :: Re.sub_slash_gt tpl s'
        end).
Proof. destruct s; reflexivity. Qed.

Lemma no_tag_end_ahead a b :
  has_char 62 a = false ->
  startswith (lstrip_by isspace (a ++ Re.QUOTE :: b)) [47; 62] = false.
Proof.
  induction a as [|c a IH]; intros H.
  - reflexivity.
  - unfold has_char in H. cbn [existsb] in H. apply orb_false_elim in H as [Hc Ha].
    cbn [app lstrip_by]. destruct (isspace c); [exact (IH Ha)|].
    cbn [startswith]. destruct (47 =? c); [|reflexivity]. cbn [andb].
    destruct a as [|d a].
    + reflexivity.
    + cbn [app startswith]. unfold has_char in Ha. cbn [existsb] in Ha.
      apply orb_false_elim in Ha as [Hd _]. rewrite Hd. reflexivity.
Qed.

Lemma sub_slash_gt_after tpl a b :
  has_char 62 a = false ->
  Re.sub_slash_gt tpl (a ++ Re.QUOTE :: b) = a ++ Re.QUOTE :: Re.sub_slash_gt tpl b.
Proof.
  induction a as [|c a IH]; intros H.
  - cbn [app]. rewrite sub_slash_gt_eq. cbn zeta.
    change (lstrip_by isspace (Re.QUOTE :: b)) with (Re.QUOTE :: b). reflexivity.
  - rewrite sub_slash_gt_eq. cbn zeta. rewrite (no_tag_end_ahead (c :: a) b H).
    cbn [app]. f_equal. apply IH.
    unfold has_char in H. cbn [existsb] in H. apply orb_false_elim in H as [_ Ha]. exact Ha.
Qed.

Lemma sub_gt_after tpl a b :
  has_char 62 a = false ->
  Re.sub_gt tpl (a ++ Re.QUOTE :: b) = a ++ Re.QUOTE :: Re.sub_gt tpl b.
Proof.
  induction a as [|c a IH]; intros H.
  - reflexivity.
  - unfold has_char in H. cbn [existsb] in H. apply orb_false_elim in H as [Hc Ha].
    cbn [app Re.sub_gt]. rewrite N.eqb_sym, Hc. f_equal. exact (IH Ha).
Qed.

Lemma contains_after sub a b :
  (forall rest, startswith (Re.QUOTE :: rest) sub = false) ->
  (forall c rest, c <> 62 -> (forall d r', rest = d :: r' -> d <> 62) ->
                  startswith (c :: rest) sub = false) ->
  has_char 62 a = false ->
  contains sub (a ++ Re.QUOTE :: b) = contains sub b.
Proof.
  intros Hq Hc. induction a as [|c a IH]; intros H.
  - cbn [app contains]. rewrite Hq. reflexivity.
  - unfold has_char in H. cbn [existsb] in H. apply orb_false_elim in H as [Hc' Ha].
    cbn [app contains]. rewrite (IH Ha). rewrite Hc; [reflexivity| |].
    + apply N.eqb_neq in Hc'. congruence.
    + intros d r' E. destruct a as [|x a']; cbn [app] in E; injection E as <- _.
      * discriminate.
      * unfold has_char in Ha. cbn [existsb] in Ha. apply orb_false_elim in Ha as [Hx _].
        apply N.eqb_neq in Hx. congruence.
Qed.

Lemma contains_slash_gt_after a b :
  has_char 62 a = false -> contains [47; 62] (a ++ Re.QUOTE :: b) = contains [47; 62] b.
Proof.
  apply contains_after.
  - intros rest. reflexivity.
  - intros c rest _ Hrest. cbn [startswith]. destruct (47 =? c); [|reflexivity].
    destruct rest as [|d r']; [reflexivity|]. cbn [andb startswith].
    specialize (Hrest d r' eq_refl). apply N.eqb_neq in Hrest.
    rewrite N.eqb_sym in Hrest. rewrite Hrest. reflexivity.
Qed.

Lemma contains_gt_after a b :
  has_char 62 a = false -> contains [62] (a ++ Re.QUOTE :: b) = contains [62] b.
Proof.
  apply contains_after.
  - intros rest. destruct rest; reflexivity.
  - intros c rest Hc _. cbn [startswith]. apply N.eqb_neq in Hc.
    rewrite N.eqb_sym, Hc. reflexivity.
Qed.

(** *** Demoting one root line *)

Definition rel_attr (v : list N) : list N := Re.attr_open Stage40.RELATION ++ v ++ [Re.QUOTE].

(** The text after the relation attribute once [set_attr] has added the
    head-id attribute to a line that had none. *)
Definition insert_head (p b : list N) : list N :=
  if contains [47; 62] b
  then Re.sub_slash_gt (lits (Re.attr_text Stage40.HEAD_ID p ++ [32; 47; 62])) b
  else if contains [62] b
       then Re.sub_gt (lits (Re.attr_text Stage40.HEAD_ID p ++ [62])) b
       else b ++ Re.attr_text Stage40.HEAD_ID p.

(** A root line as the format has it: the first text [relation=(quote)]
    of the line opens the relation attribute with the value root, at a
    word boundary and before any closing bracket, and the line has no
    head-id attribute. *)
Definition demotable (tok pre b : list N) : Prop :=
  tok = pre ++ rel_attr Stage40.ROOT ++ b /\
  clean_prefix (Re.attr_open Stage40.RELATION) pre = true /\
  Re.word_boundary (prev_after None pre) (Some 114) = true /\
  has_char 62 pre = false /\
  Stage40.has_attr tok Stage40.HEAD_ID = false.

Definition demoted (p pre b : list N) : list N :=
  pre ++ rel_attr Stage40.CCOMP ++ insert_head p b.

Definition root_line (tok : list N) : bool :=
  bool_decide (Stage40.get_attr tok Stage40.RELATION = Some Stage40.ROOT).

Definition count_roots (lines : list (list N)) : nat := List.length (List.filter root_line lines).

Lemma rel_attr_app v b :
  rel_attr v ++ b = Re.attr_open Stage40.RELATION ++ v ++ Re.QUOTE :: b.
Proof. unfold rel_attr. rewrite <- !app_assoc. reflexivity. Qed.

Lemma get_relation pre v b :
  clean_prefix (Re.attr_open Stage40.RELATION) pre = true ->
  Re.word_boundary (prev_after None pre) (Some 114) = true ->
  has_char Re.QUOTE v = false ->
  Stage40.get_attr (pre ++ rel_attr v ++ b) Stage40.RELATION = Some v.
Proof.
  intros Hc Hb Hv. rewrite rel_attr_app.
  apply (search_attr_decomposed Stage40.RELATION pre v b Hc Hv None). exact Hb.
Qed.

Lemma set_head_id tok pre b p :
  demotable tok pre b -> has_char 92 p = false ->
  Stage40.set_attr tok Stage40.HEAD_ID p
  = Some (pre ++ rel_attr Stage40.ROOT ++ insert_head p b).
Proof.
  intros (-> & Hc & Hb & Hgt & Hno) Hp.
  unfold Stage40.set_attr, Re.set_attr. unfold Stage40.has_attr in Hno. rewrite Hno.
  assert (Hplain : forall tail, has_char 92 tail = false ->
            has_char 92 (Re.attr_text Stage40.HEAD_ID p ++ tail) = false).
  { intros tail Ht. unfold Re.attr_text, Re.attr_open.
    rewrite !has_char_app, Hp, Ht. reflexivity. }
  set (a := pre ++ Re.attr_open Stage40.RELATION ++ Stage40.ROOT).
  assert (Ha : has_char 62 a = false).
  { unfold a. rewrite !has_char_app, Hgt. reflexivity. }
  assert (Hline : forall tail, pre ++ rel_attr Stage40.ROOT ++ tail = a ++ Re.QUOTE :: tail).
  { intros tail. unfold a, rel_attr. rewrite <- !app_assoc. reflexivity. }
  rewrite !Hline. unfold insert_head.
  rewrite (contains_slash_gt_after a b Ha), (contains_gt_after a b Ha).
  destruct (contains [47; 62] b).
  - rewrite compile_plain by (apply Hplain; reflexivity). cbn [option_map].
    rewrite (sub_slash_gt_after _ a b Ha). reflexivity.
  - destruct (contains [62] b).
    + rewrite compile_plain by (apply Hplain; reflexivity). cbn [option_map].
      rewrite (sub_gt_after _ a b Ha). reflexivity.
    + rewrite <- app_assoc. reflexivity.
Qed.

Lemma set_relation_ccomp pre b1 :
  clean_prefix (Re.attr_open Stage40.RELATION) pre = true ->
  Re.word_boundary (prev_after None pre) (Some 114) = true ->
  Stage40.set_attr (pre ++ rel_attr Stage40.ROOT ++ b1) Stage40.RELATION Stage40.CCOMP
  = Some (pre ++ rel_attr Stage40.CCOMP ++ b1).
Proof.
  intros Hc Hb. unfold Stage40.set_attr, Re.set_attr, Re.has_attr. rewrite rel_attr_app.
  rewrite (search_attr_open_decomposed Stage40.RELATION pre Stage40.ROOT b1 Hc None Hb).
  change ([Re.BACKSLASH; 49] ++ Stage40.CCOMP ++ [Re.BACKSLASH; 50])
    with ([92; 49] ++ Stage40.CCOMP ++ [92; 50]).
  rewrite (compile_group Stage40.CCOMP eq_refl). cbn [option_map].
  rewrite (sub_attr_decomposed Stage40.RELATION pre Stage40.ROOT b1 Hc eq_refl).
  rewrite expand_group. unfold rel_attr. rewrite <- ?app_assoc. reflexivity.
Qed.

Lemma ccomp_not_root tok :
  Stage40.get_attr tok Stage40.RELATION = Some Stage40.CCOMP -> root_line tok = false.
Proof.
  intros H. unfold root_line. rewrite H. apply bool_decide_eq_false_2. discriminate.
Qed.

(** *** The demotion loop *)

Definition prev_id (prev : nat * list N) (roots : list (nat * list N)) (k : nat) : option (list N) :=
  match k with
  | O => Some (snd prev)
  | S k' => snd <$> roots !! k'
  end.

Lemma demote_spec roots :
  forall prev tokens,
    List.NoDup (List.map fst roots) ->
    truthy (snd prev) = true -> has_char 92 (snd prev) = false ->
    (forall i id, In (i, id) roots ->
       truthy id = true /\ has_char 92 id = false /\
       exists tok pre b, tokens !! i = Some tok /\ demotable tok pre b) ->
    exists out log,
      Stage40.demote prev roots tokens = Some (out, log) /\
      List.length out = List.length tokens /\
      (forall j, ~ In j (List.map fst roots) -> out !! j = tokens !! j) /\
      (forall k i id, roots !! k = Some (i, id) ->
         exists p pre b,
           prev_id prev roots k = Some p /\
           tokens !! i = Some (pre ++ rel_attr Stage40.ROOT ++ b) /\
           demotable (pre ++ rel_attr Stage40.ROOT ++ b) pre b /\
           out !! i = Some (demoted p pre b) /\
           Stage40.get_attr (demoted p pre b) Stage40.RELATION = Some Stage40.CCOMP).
Proof.
  induction roots as [|[ci cid] roots IH]; intros [pi pid] tokens Hnd Hpt Hpb Hroots.
  - exists tokens, []. split; [reflexivity|]. split; [reflexivity|]. split; [auto|].
    intros k i id H. discriminate H.
  - cbn [List.map] in Hnd. apply List.NoDup_cons_iff in Hnd as [Hnotin Hnd].
    cbn [snd] in Hpt, Hpb.
    destruct (Hroots ci cid (or_introl eq_refl)) as (Hct & Hcb & tok & pre & b & Htok & Hdem).
    cbn [Stage40.demote]. rewrite Hpt. cbn [negb]. rewrite Htok.
    rewrite (set_head_id tok pre b pid Hdem Hpb).
    destruct Hdem as (Heq & Hc & Hb & Hgt & Hno).
    rewrite (set_relation_ccomp pre _ Hc Hb).
    fold (demoted pid pre b).
    assert (Hlen : (ci < List.length tokens)%nat) by (apply lookup_lt_Some in Htok; exact Htok).
    destruct (IH (ci, cid) (<[ci := demoted pid pre b]> tokens) Hnd Hct Hcb)
      as (out & log & Hd & Hl & Hout & Hin).
    { intros i id Hi. destruct (Hroots i id (or_intror Hi)) as (H1 & H2 & t & pr & bb & Ht & Hdm).
      split; [exact H1|]. split; [exact H2|]. exists t, pr, bb. split; [|exact Hdm].
      rewrite list_lookup_insert_ne; [exact Ht|].
      intros ->. apply Hnotin. apply (List.in_map fst _ _ Hi). }
    rewrite Hd. eexists out, _. split; [reflexivity|].
    split; [rewrite Hl; apply length_insert|]. split.
    + intros j Hj. rewrite Hout by (intros H; apply Hj; right; exact H).
      apply list_lookup_insert_ne. intros ->. apply Hj. left. reflexivity.
    + intros k i id Hk. destruct k as [|k].
      * injection Hk as <- <-. exists pid, pre, b. split; [reflexivity|].
        split; [rewrite Htok, Heq; reflexivity|]. split; [|split].
        -- rewrite <- Heq. repeat split; assumption.
        -- rewrite (Hout ci Hnotin). apply list_lookup_insert_eq. exact Hlen.
        -- exact (get_relation pre Stage40.CCOMP _ Hc Hb eq_refl).
      * cbn [lookup list_lookup] in Hk. change (roots !! k = Some (i, id)) in Hk.
        destruct (Hin k i id Hk) as (p & pr & bb & Hp & Ht & Hdm & Ho & Hr).
        exists p, pr, bb. split.
        -- destruct k as [|k']; [exact Hp|]. exact Hp.
        -- split; [|split; [exact Hdm|split; assumption]].
           rewrite list_lookup_insert_ne in Ht; [exact Ht|].
           intros ->. apply Hnotin.
           apply (List.in_map fst _ (i, id)). apply list_elem_of_In, list_elem_of_lookup. eauto.
Qed.

(** *** The collected roots *)

Lemma collect_roots_sound lines :
  forall idx i id, In (i, id) (Stage40.collect_roots idx lines) ->
    (idx <= i)%nat /\
    exists tok, lines !! (i - idx)%nat = Some tok /\ root_line tok = true /\
                Stage40.get_attr tok Stage40.ID = Some id /\ truthy id = true.
Proof.
  induction lines as [|tok lines IH]; intros idx i id H; [destruct H|].
  assert (Htl : In (i, id) (Stage40.collect_roots (S idx) lines) ->
                (idx <= i)%nat /\
                exists t, (tok :: lines) !! (i - idx)%nat = Some t /\ root_line t = true /\
                          Stage40.get_attr t Stage40.ID = Some id /\ truthy id = true).
  { intros Hin. destruct (IH _ _ _ Hin) as (Hle & t & Ht & Hrest).
    split; [lia|]. exists t. split; [|exact Hrest].
    replace (i - idx)%nat with (S (i - S idx)) by lia. exact Ht. }
  cbn [Stage40.collect_roots] in H. cbv zeta in H.
  destruct (bool_decide (Stage40.get_attr tok Stage40.RELATION = Some Stage40.ROOT)) eqn:Hroot;
    [|exact (Htl H)].
  destruct (Stage40.get_attr tok Stage40.ID) as [tid|] eqn:Hid; [|exact (Htl H)].
  destruct (truthy tid) eqn:Htid; [|exact (Htl H)].
  destruct H as [H|H]; [|exact (Htl H)].
  injection H as <- <-. split; [lia|]. exists tok.
  rewrite Nat.sub_diag. repeat split; assumption.
Qed.

Lemma collect_roots_complete lines :
  forall idx j tok id,
    lines !! j = Some tok -> root_line tok = true ->
    Stage40.get_attr tok Stage40.ID = Some id -> truthy id = true ->
    In ((idx + j)%nat, id) (Stage40.collect_roots idx lines).
Proof.
  induction lines as [|t lines IH]; intros idx j tok id Hj Hroot Hid Htid; [discriminate Hj|].
  cbn [Stage40.collect_roots]. cbv zeta.
  destruct j as [|j].
  - injection Hj as ->. unfold root_line in Hroot. rewrite Hroot, Hid, Htid.
    left. rewrite Nat.add_0_r. reflexivity.
  - assert (Hin := IH (S idx) j tok id Hj Hroot Hid Htid).
    replace (S idx + j)%nat with (idx + S j)%nat in Hin by lia.
    destruct (bool_decide _); [|exact Hin].
    destruct (Stage40.get_attr t Stage40.ID) as [tid|]; [|exact Hin].
    destruct (truthy tid); [right|]; exact Hin.
Qed.

Lemma collect_roots_nodup lines :
  forall idx, List.NoDup (List.map fst (Stage40.collect_roots idx lines)).
Proof.
  induction lines as [|tok lines IH]; intros idx; [constructor|].
  cbn [Stage40.collect_roots]. cbv zeta.
  destruct (bool_decide _); [|apply IH].
  destruct (Stage40.get_attr tok Stage40.ID) as [tid|]; [|apply IH].
  destruct (truthy tid); [|apply IH].
  cbn [List.map fst]. constructor; [|apply IH].
  intros Hin. apply List.in_map_iff in Hin as ([i id] & Hi & Hin). cbn [fst] in Hi. subst i.
  apply collect_roots_sound in Hin as [Hle _]. lia.
Qed.

Lemma process_lines_demote lines :
  Stage40.process_lines lines =
  match Stage40.collect_roots 0 lines with
  | [] => Some (lines, [])
  | first :: others => Stage40.demote first others lines
  end.
Proof.
  unfold Stage40.process_lines.
  destruct (Stage40.collect_roots 0 lines) as [|first [|second others]]; reflexivity.
Qed.

Lemma count_one {A} (f : A -> bool) (l : list A) (i0 : nat) (x : A) :
  l !! i0 = Some x -> f x = true ->
  (forall j y, l !! j = Some y -> f y = true -> j = i0) ->
  List.length (List.filter f l) = 1%nat.
Proof.
  revert i0. induction l as [|a l IH]; intros i0 Hx Hf Huniq; [discriminate Hx|].
  cbn [List.filter]. destruct i0 as [|i0].
  - injection Hx as ->. rewrite Hf. cbn [List.length]. f_equal.
    rewrite filter_none; [reflexivity|]. apply List.Forall_forall.
    intros y Hy. apply list_elem_of_In, list_elem_of_lookup in Hy as [j Hj].
    destruct (f y) eqn:E; [|reflexivity].
    specialize (Huniq (S j) y Hj E). discriminate Huniq.
  - destruct (f a) eqn:E.
    + specialize (Huniq 0%nat a eq_refl E). discriminate Huniq.
    + apply (IH i0 Hx Hf). intros j y Hj Hy.
      specialize (Huniq (S j) y Hj Hy). injection Huniq as ->. reflexivity.
Qed.

(** A root line that the collapse can work on: it has a non-empty id
    without backslash and the shape of [demotable]. *)
Definition well_formed_root (tok : list N) : Prop :=
  exists id pre b,
    Stage40.get_attr tok Stage40.ID = Some id /\ truthy id = true /\
    has_char 92 id = false /\ demotable tok pre b.

Definition well_formed_roots (lines : list (list N)) : Prop :=
  forall tok, In tok lines -> root_line tok = true -> well_formed_root tok.

Lemma collected_well_formed lines i id :
  well_formed_roots lines -> In (i, id) (Stage40.collect_roots 0 lines) ->
  truthy id = true /\ has_char 92 id = false /\
  exists tok pre b, lines !! i = Some tok /\ root_line tok = true /\ demotable tok pre b.
Proof.
  intros Hwf Hin. apply collect_roots_sound in Hin as (_ & tok & Htok & Hroot & Hid & Htid).
  rewrite Nat.sub_0_r in Htok.
  assert (Hmem : In tok lines) by (apply list_elem_of_In, list_elem_of_lookup; eauto).
  destruct (Hwf tok Hmem Hroot) as (id' & pre & b & Hid' & _ & Hbs & Hdem).
  rewrite Hid in Hid'. injection Hid' as <-.
  split; [exact Htid|]. split; [exact Hbs|]. exists tok, pre, b. auto.
Qed.

Lemma process_lines_spec lines first others :
  well_formed_roots lines ->
  Stage40.collect_roots 0 lines = first :: others ->
  exists out log,
    Stage40.process_lines lines = Some (out, log) /\
    List.length out = List.length lines /\
    (forall j, ~ In j (List.map fst others) -> out !! j = lines !! j) /\
    (forall k i id, others !! k = Some (i, id) ->
       exists p pre b,
         prev_id first others k = Some p /\
         lines !! i = Some (pre ++ rel_attr Stage40.ROOT ++ b) /\
         demotable (pre ++ rel_attr Stage40.ROOT ++ b) pre b /\
         out !! i = Some (demoted p pre b) /\
         Stage40.get_attr (demoted p pre b) Stage40.RELATION = Some Stage40.CCOMP).
Proof.
  intros Hwf Hroots. rewrite process_lines_demote, Hroots.
  assert (Hnd := collect_roots_nodup lines 0). rewrite Hroots in Hnd.
  cbn [List.map] in Hnd. apply List.NoDup_cons_iff in Hnd as [_ Hnd].
  destruct first as [fi fid].
  destruct (collected_well_formed lines fi fid Hwf) as (Hft & Hfb & _).
  { rewrite Hroots. left. reflexivity. }
  apply (demote_spec others (fi, fid) lines Hnd Hft Hfb).
  intros i id Hin.
  destruct (collected_well_formed lines i id Hwf) as (Ht & Hb & tok & pre & b & Htok & _ & Hdem).
  { rewrite Hroots. right. exact Hin. }
  split; [exact Ht|]. split; [exact Hb|]. exists tok, pre, b. auto.
Qed.

Lemma collected_of_root lines j tok :
  well_formed_roots lines -> lines !! j = Some tok -> root_line tok = true ->
  In j (List.map fst (Stage40.collect_roots 0 lines)).
Proof.
  intros Hwf Hj Hroot.
  assert (Hmem : In tok lines) by (apply list_elem_of_In, list_elem_of_lookup; eauto).
  destruct (Hwf tok Hmem Hroot) as (id & _ & _ & Hid & Htid & _).
  apply List.in_map_iff. exists (j, id). split; [reflexivity|].
  exact (collect_roots_complete lines 0 j tok id Hj Hroot Hid Htid).
Qed.

Lemma in_fst_lookup (others : list (nat * list N)) j :
  In j (List.map fst others) -> exists k id, others !! k = Some (j, id).
Proof.
  intros Hin. apply List.in_map_iff in Hin as ([i id] & Hi & Hin). cbn [fst] in Hi. subst i.
  apply list_elem_of_In, list_elem_of_lookup in Hin as [k Hk]. eauto.
Qed.

Lemma collapse_result lines :
  well_formed_roots lines ->
  (exists tok, In tok lines /\ root_line tok = true) ->
  exists out log,
    Stage40.process_lines lines = Some (out, log) /\
    List.length out = List.length lines /\
    count_roots out = 1%nat /\
    (forall j tok, lines !! j = Some tok -> root_line tok = false -> out !! j = Some tok) /\
    (exists j0 tok0, lines !! j0 = Some tok0 /\ out !! j0 = Some tok0 /\ root_line tok0 = true /\
       forall j tok, (j < j0)%nat -> lines !! j = Some tok -> root_line tok = false).
Proof.
  intros Hwf (tok & Hmem & Hroot).
  apply list_elem_of_In, list_elem_of_lookup in Hmem as [j Hj].
  assert (Hin := collected_of_root lines j tok Hwf Hj Hroot).
  destruct (Stage40.collect_roots 0 lines) as [|[fi fid] others] eqn:Hroots; [destruct Hin|].
  clear j tok Hj Hroot Hin.
  destruct (process_lines_spec lines (fi, fid) others Hwf Hroots) as (out & log & Hp & Hlen & Hout & Hdem).
  assert (Hnd := collect_roots_nodup lines 0). rewrite Hroots in Hnd.
  cbn [List.map fst] in Hnd. apply List.NoDup_cons_iff in Hnd as [Hfirst _].
  destruct (collected_well_formed lines fi fid Hwf) as (_ & _ & tok0 & _ & _ & Htok0 & Hroot0 & _).
  { rewrite Hroots. left. reflexivity. }
  assert (Hunchanged : forall j tok, lines !! j = Some tok -> root_line tok = false ->
                                     out !! j = Some tok).
  { intros j tok Hj Hnr. rewrite Hout; [exact Hj|].
    intros Hin. destruct (in_fst_lookup others j Hin) as (k & id & Hk).
    assert (Hin' : In (j, id) (Stage40.collect_roots 0 lines)).
    { rewrite Hroots. right. apply list_elem_of_In, list_elem_of_lookup. eauto. }
    apply collect_roots_sound in Hin' as (_ & t & Ht & Hr & _).
    rewrite Nat.sub_0_r, Hj in Ht. injection Ht as <-. congruence. }
  exists out, log. split; [exact Hp|]. split; [exact Hlen|]. split; [|split; [exact Hunchanged|]].
  - apply (count_one root_line out fi tok0); [rewrite (Hout fi Hfirst); exact Htok0|exact Hroot0|].
    intros j y Hy Hry.
    destruct (List.in_dec Nat.eq_dec j (List.map fst others)) as [Hin|Hnin].
    + destruct (in_fst_lookup others j Hin) as (k & id & Hk).
      destruct (Hdem k j id Hk) as (p & pre & b & _ & _ & _ & Ho & Hnr).
      rewrite Hy in Ho. injection Ho as ->. apply ccomp_not_root in Hnr. congruence.
    + rewrite (Hout j Hnin) in Hy.
      assert (Hc := collected_of_root lines j y Hwf Hy Hry). rewrite Hroots in Hc.
      cbn [List.map fst] in Hc. destruct Hc as [<-|Hc]; [reflexivity|contradiction].
  - exists fi, tok0. split; [exact Htok0|]. split; [rewrite (Hout fi Hfirst); exact Htok0|].
    split; [exact Hroot0|].
    intros j tok Hlt Hj. destruct (root_line tok) eqn:Hr; [|reflexivity]. exfalso.
    assert (Hc := collected_of_root lines j tok Hwf Hj Hr). rewrite Hroots in Hc.
    cbn [List.map fst] in Hc. destruct Hc as [->|Hc]; [lia|].
    assert (Hs : forall i, In i (List.map fst others) -> (fi < i)%nat).
    { clear -Hroots. revert Hroots. generalize 0%nat. induction lines as [|t lines IH]; intros idx H i Hi;
        [discriminate H|].
      cbn [Stage40.collect_roots] in H. cbv zeta in H.
      assert (Htail : Stage40.collect_roots (S idx) lines = (fi, fid) :: others -> (fi < i)%nat)
        by (intros E; exact (IH _ E i Hi)).
      destruct (bool_decide _); [|exact (Htail H)].
      destruct (Stage40.get_attr t Stage40.ID) as [tid|]; [|exact (Htail H)].
      destruct (truthy tid); [|exact (Htail H)].
      injection H as <- <- <-.
      apply List.in_map_iff in Hi as ([i' id'] & Hi' & Hin). cbn [fst] in Hi'. subst i'.
      apply collect_roots_sound in Hin as [Hle _]. lia. }
    specialize (Hs j Hc). lia.
Qed.

Lemma collapse_no_root lines :
  Stage40.collect_roots 0 lines = [] -> Stage40.process_lines lines = Some (lines, []).
Proof. intros H. rewrite process_lines_demote, H. reflexivity. Qed.



Definition line40 (kvs : list (list N)) : list N := lit "<token " ++ join [32] kvs ++ lit " />".

Definition two_roots : list (list N) :=
  [line40 [quoted "id" "1"; quoted "form" "a"; quoted "relation" "root"];
   line40 [quoted "id" "2"; quoted "form" "b"; quoted "head-id" "1"; quoted "relation" "obj"];
   line40 [quoted "id" "3"; quoted "form" "c"; quoted "relation" "root"]].

Lemma two_roots_well_formed : well_formed_roots two_roots.
Proof.
  intros tok [<-|[<-|[<-|[]]]] Hroot.
  - exists (lit "1"), (lit "<token " ++ quoted "id" "1" ++ lit " " ++ quoted "form" "a" ++ lit " "),
      (lit " />").
    repeat split; vm_compute; reflexivity.
  - vm_compute in Hroot. discriminate Hroot.
  - exists (lit "3"), (lit "<token " ++ quoted "id" "3" ++ lit " " ++ quoted "form" "c" ++ lit " "),
      (lit " />").
    repeat split; vm_compute; reflexivity.
Qed.

(** Stage 40, one root.  When every root line of a sentence is well
    formed and the sentence has a root line, the collapse returns a
    sentence of the same number of lines with exactly one root line. *)
Theorem collapse_leaves_one_root lines :
  well_formed_roots lines ->
  (exists tok, In tok lines /\ root_line tok = true) ->
  exists out log,
    Stage40.process_lines lines = Some (out, log) /\
    List.length out = List.length lines /\
    count_roots out = 1%nat.
Proof.
  intros Hwf Hex. destruct (collapse_result lines Hwf Hex) as (out & log & Hp & Hl & Hc & _).
  exists out, log. auto.
Qed.

Lemma collapse_leaves_one_root_witness :
  exists out log,
    Stage40.process_lines two_roots = Some (out, log) /\
    List.length out = 3%nat /\ count_roots out = 1%nat.
Proof.
  apply (collapse_leaves_one_root two_roots two_roots_well_formed).
  exists (line40 [quoted "id" "1"; quoted "form" "a"; quoted "relation" "root"]).
  split; [left; reflexivity|vm_compute; reflexivity].
Defined.

(** Stage 40, what is kept.  Under the same condition on the root
    lines, every line that is not a root line is returned unchanged at
    its position, and so is the first root line of the sentence. *)
Theorem collapse_keeps_other_lines lines :
  well_formed_roots lines ->
  exists out log,
    Stage40.process_lines lines = Some (out, log) /\
    (forall j tok, lines !! j = Some tok -> root_line tok = false -> out !! j = Some tok) /\
    (forall j tok, lines !! j = Some tok -> root_line tok = true ->
       (forall i t, (i < j)%nat -> lines !! i = Some t -> root_line t = false) ->
       out !! j = Some tok).
Proof.
  intros Hwf.
  destruct (Stage40.collect_roots 0 lines) as [|first others] eqn:Hroots.
  - exists lines, []. split; [exact (collapse_no_root lines Hroots)|]. split; auto.
  - destruct first as [fi fid].
    destruct (collected_well_formed lines fi fid Hwf) as (_ & _ & tok0 & _ & _ & Htok0 & Hroot0 & _).
    { rewrite Hroots. left. reflexivity. }
    destruct (collapse_result lines Hwf) as (out & log & Hp & _ & _ & Hkeep & j0 & t0 & Hj0 & Ho0 & Hr0 & Hbefore).
    { exists tok0. split; [|exact Hroot0]. apply list_elem_of_In, list_elem_of_lookup. eauto. }
    exists out, log. split; [exact Hp|]. split; [exact Hkeep|].
    intros j tok Hj Hr Hfirst.
    assert (j = j0) as ->.
    { destruct (Nat.lt_trichotomy j j0) as [Hlt|[E|Hgt]]; [|exact E|].
      - specialize (Hbefore j tok Hlt Hj). congruence.
      - specialize (Hfirst j0 t0 Hgt Hj0). congruence. }
    rewrite Hj in Hj0. injection Hj0 as <-. exact Ho0.
Qed.

Lemma collapse_keeps_other_lines_witness :
  exists out log,
    Stage40.process_lines two_roots = Some (out, log) /\
    out !! 0%nat = two_roots !! 0%nat /\ out !! 1%nat = two_roots !! 1%nat.
Proof.
  destruct (collapse_keeps_other_lines two_roots two_roots_well_formed) as (out & log & Hp & Hk & Hf).
  exists out, log. split; [exact Hp|]. split.
  - apply (Hf 0%nat); [reflexivity|vm_compute; reflexivity|]. intros i t Hi. lia.
  - apply (Hk 1%nat); [reflexivity|vm_compute; reflexivity].
Defined.








(** * Further properties of the stages *)

(** ** Stage 42: what the rewriting of a token line touches *)

Lemma lookup_list_map {A B} (f : A -> B) (l : list A) (i : nat) :
  List.map f l !! i = f <$> l !! i.
Proof.
  revert i. induction l as [|x l IH]; intros i; [reflexivity|].
  destruct i as [|i]; [reflexivity|]. exact (IH i).
Qed.

Lemma renumber_lookup toks i t :
  toks !! i = Some t ->
  fst (Stage42.renumber toks) !! i
  = Some (fst (Stage42.rewrite_token (Stage42.build_id_mapping toks) t)).
Proof.
  intros H. unfold Stage42.renumber. cbn [fst].
  rewrite !lookup_list_map, H. reflexivity.
Qed.

Lemma rewrite_token_frame id_map t k :
  k <> Stage42.ID -> k <> Stage42.HEAD_ID -> k <> Stage42.REL ->
  Stage42.dict_get k (Stage42.attrs (fst (Stage42.rewrite_token id_map t)))
  = Stage42.dict_get k (Stage42.attrs t).
Proof.
  intros Hid Hhead Hrel. unfold Stage42.rewrite_token. cbn [fst Stage42.attrs].
  set (a2 := Stage42.dict_set Stage42.HEAD_ID _ _).
  assert (H2 : Stage42.dict_get k a2 = Stage42.dict_get k (Stage42.attrs t)).
  { unfold a2. rewrite !dict_get_set_ne by congruence. reflexivity. }
  destruct (Stage42.dict_get Stage42.REL a2); [|exact H2].
  rewrite dict_get_set_ne by congruence. exact H2.
Qed.

(** Stage 42, the frame of the renumbering.  The rewritten sentence has
    one token for each token of the input, in order, with the same
    indentation and the same attribute order; no attribute other than
    id, head-id and rel changes its value or appears or disappears. *)
Theorem renumber_keeps_other_attrs toks i t :
  toks !! i = Some t ->
  List.length (fst (Stage42.renumber toks)) = List.length toks /\
  exists t',
    fst (Stage42.renumber toks) !! i = Some t' /\
    Stage42.indent t' = Stage42.indent t /\
    Stage42.order t' = Stage42.order t /\
    forall k, k <> Stage42.ID -> k <> Stage42.HEAD_ID -> k <> Stage42.REL ->
              Stage42.dict_get k (Stage42.attrs t') = Stage42.dict_get k (Stage42.attrs t).
Proof.
  intros H. split.
  - unfold Stage42.renumber. cbn [fst]. rewrite !List.length_map. reflexivity.
  - eexists. split; [exact (renumber_lookup toks i t H)|].
    split; [reflexivity|]. split; [reflexivity|].
    intros k. apply rewrite_token_frame.
Qed.

Definition spans42 : list Stage42.TokenLine :=
  [token42 [kv "id" "7"; kv "form" "ab"; kv "head-id" "9"];
   token42 [kv "id" "8-9"; kv "form" "cd"];
   token42 [kv "id" "8"; kv "form" "c"; kv "head-id" "_"];
   token42 [kv "id" "9"; kv "form" "d"; kv "head-id" "8"]].

Lemma renumber_keeps_other_attrs_witness :
  exists t',
    fst (Stage42.renumber spans42) !! 0%nat = Some t' /\
    Stage42.dict_get (lit "form") (Stage42.attrs t') = Some (lit "ab").
Proof.
  destruct (renumber_keeps_other_attrs spans42 0%nat
              (token42 [kv "id" "7"; kv "form" "ab"; kv "head-id" "9"]) eq_refl)
    as (_ & t' & Ht & _ & _ & Hk).
  exists t'. split; [exact Ht|]. rewrite Hk by discriminate. reflexivity.
Defined.

(** Stage 42, tokens without a head.  After the renumbering every token
    carries a head-id attribute; a token whose head-id was missing, empty
    or the underscore carries 0, or the underscore when its new id is a
    hyphenated one. *)
Theorem renumber_default_head toks i t :
  toks !! i = Some t ->
  exists t' h,
    fst (Stage42.renumber toks) !! i = Some t' /\
    Stage42.dict_get Stage42.HEAD_ID (Stage42.attrs t') = Some h /\
    (Stage42.dict_get Stage42.HEAD_ID (Stage42.attrs t) = None \/
     Stage42.dict_get Stage42.HEAD_ID (Stage42.attrs t) = Some [] \/
     Stage42.dict_get Stage42.HEAD_ID (Stage42.attrs t) = Some (lit "_") ->
     h = if Stage42.is_hyphen_id (Stage42.get_tid t') then lit "_" else lit "0").
Proof.
  intros H. eexists _, _. split; [exact (renumber_lookup toks i t H)|].
  split; [apply rewrite_token_head|].
  rewrite rewrite_token_tid. intros [E|[E|E]]; rewrite E; reflexivity.
Qed.

Lemma renumber_default_head_witness :
  exists t',
    fst (Stage42.renumber spans42) !! 2%nat = Some t' /\
    Stage42.dict_get Stage42.HEAD_ID (Stage42.attrs t') = Some (lit "0").
Proof.
  destruct (renumber_default_head spans42 2%nat
              (token42 [kv "id" "8"; kv "form" "c"; kv "head-id" "_"]) eq_refl)
    as (t' & h & Ht & Hh & Hd).
  exists t'. split; [exact Ht|]. rewrite Hh. f_equal.
  rewrite (Hd (or_intror (or_intror eq_refl))).
  vm_compute in Ht. injection Ht as <-. reflexivity.
Defined.

(** *** Hyphenated ids *)

Lemma split1_go_char c acc a b :
  has_char c a = false -> split1_go [c] acc (a ++ c :: b) = [rev acc ++ a; b].
Proof.
  revert acc. induction a as [|x a IH]; intros acc H.
  - cbn [app split1_go startswith]. rewrite N.eqb_refl. cbn [andb].
    rewrite app_nil_r. destruct b; reflexivity.
  - unfold has_char in H. cbn [existsb] in H. apply orb_false_elim in H as [Hx Ha].
    cbn [app split1_go startswith]. rewrite Hx. cbn [andb].
    rewrite (IH (x :: acc) Ha). cbn [rev]. rewrite <- app_assoc. reflexivity.
Qed.

Lemma split1_char c a b : has_char c a = false -> split1 [c] (a ++ c :: b) = [a; b].
Proof. intros H. exact (split1_go_char c [] a b H). Qed.

Lemma hyphen_has_char s : Stage42.is_hyphen_id s = has_char 45 s.
Proof. unfold Stage42.is_hyphen_id, Stage42.HYPHEN. apply contains_char. Qed.

Lemma map_hyphen_member toks a b a' b' :
  Stage42.is_hyphen_id a = false -> Stage42.is_hyphen_id b = false ->
  forall m,
    m !! a = Some a' -> m !! b = Some b' ->
    (exists t, In t toks /\ Stage42.get_tid t = a ++ Stage42.HYPHEN ++ b) \/
    m !! (a ++ Stage42.HYPHEN ++ b) = Some (a' ++ Stage42.HYPHEN ++ b') ->
    Stage42.map_hyphen_ids toks m !! (a ++ Stage42.HYPHEN ++ b)
    = Some (a' ++ Stage42.HYPHEN ++ b').
Proof.
  intros Ha Hb. induction toks as [|t toks IH]; intros m Hma Hmb Hcase.
  - destruct Hcase as [(t & [] & _)|H]. exact H.
  - cbn [Stage42.map_hyphen_ids]. cbv zeta.
    assert (Hsplit : split1 Stage42.HYPHEN (a ++ Stage42.HYPHEN ++ b) = [a; b]).
    { apply split1_char. rewrite <- hyphen_has_char. exact Ha. }
    assert (Htail : (exists t', In t' toks /\ Stage42.get_tid t' = a ++ Stage42.HYPHEN ++ b) \/
                    m !! (a ++ Stage42.HYPHEN ++ b) = Some (a' ++ Stage42.HYPHEN ++ b') \/
                    Stage42.get_tid t = a ++ Stage42.HYPHEN ++ b).
    { destruct Hcase as [(t' & [<-|Hin] & Ht')|H]; eauto. }
    destruct (decide (Stage42.get_tid t = a ++ Stage42.HYPHEN ++ b)) as [E|Hne].
    + rewrite E, is_hyphen_app. cbn [truthy negb orb].
      replace (truthy (a ++ Stage42.HYPHEN ++ b)) with true by (destruct a; reflexivity).
      cbn [negb orb]. rewrite Hsplit, Hma, Hmb.
      apply IH; [| |right; apply lookup_insert_eq].
      * rewrite lookup_insert_ne; [exact Hma|]. intros E'. rewrite <- E', is_hyphen_app in Ha. discriminate.
      * rewrite lookup_insert_ne; [exact Hmb|]. intros E'. rewrite <- E', is_hyphen_app in Hb. discriminate.
    + assert (Hrest : (exists t', In t' toks /\ Stage42.get_tid t' = a ++ Stage42.HYPHEN ++ b) \/
                      m !! (a ++ Stage42.HYPHEN ++ b) = Some (a' ++ Stage42.HYPHEN ++ b')).
      { destruct Htail as [H|[H|H]]; [left; exact H|right; exact H|contradiction]. }
      destruct (negb (truthy (Stage42.get_tid t)) || negb (Stage42.is_hyphen_id (Stage42.get_tid t)))
        eqn:Hskip; [apply IH; assumption|].
      apply orb_false_elim in Hskip as [_ Hh]. apply negb_false_iff in Hh.
      destruct (split1 Stage42.HYPHEN (Stage42.get_tid t)) as [|x [|y [|? ?]]];
        try (apply IH; assumption).
      destruct (m !! x); [|apply IH; assumption]. destruct (m !! y); [|apply IH; assumption].
      apply IH.
      * rewrite lookup_insert_ne; [exact Hma|]. intros E'. rewrite E' in Hh. congruence.
      * rewrite lookup_insert_ne; [exact Hmb|]. intros E'. rewrite E' in Hh. congruence.
      * destruct Hrest as [H|H]; [left; exact H|right].
        rewrite lookup_insert_ne; [exact H|exact Hne].
Qed.

(** Stage 42, span lines.  When every token has an id and the atomic ids
    are pairwise distinct, a token whose id is a-b, with a and b the ids
    of the atomic tokens number i and j of the sentence, receives the id
    i-j: a span line follows its members. *)
Theorem renumber_span_follows_members toks i t a b ja jb :
  ids_present toks -> List.NoDup (atomic_ids toks) ->
  toks !! i = Some t ->
  Stage42.get_tid t = a ++ Stage42.HYPHEN ++ b ->
  List.nth_error (atomic_ids toks) ja = Some a ->
  List.nth_error (atomic_ids toks) jb = Some b ->
  exists t',
    fst (Stage42.renumber toks) !! i = Some t' /\
    Stage42.get_tid t' = decimal (1 + ja) ++ Stage42.HYPHEN ++ decimal (1 + jb).
Proof.
  intros Hp Hnd Ht Htid Hja Hjb.
  eexists. split; [exact (renumber_lookup toks i t Ht)|].
  rewrite rewrite_token_tid. unfold new_id_of. rewrite Htid.
  assert (Hnh : forall j x, List.nth_error (atomic_ids toks) j = Some x ->
                            Stage42.is_hyphen_id x = false).
  { intros j x Hj. apply List.nth_error_In in Hj. unfold atomic_ids in Hj.
    apply List.filter_In in Hj as [_ Hj]. apply negb_true_iff in Hj. exact Hj. }
  assert (Hlook : forall j x, List.nth_error (atomic_ids toks) j = Some x ->
                    Stage42.assign_ids toks ∅ 1 !! x = Some (decimal (1 + j))).
  { intros j x Hj. unfold decimal. rewrite Nat2Z.inj_add.
    apply assign_lookup; auto. }
  unfold Stage42.build_id_mapping.
  rewrite (map_hyphen_member toks a b (decimal (1 + ja)) (decimal (1 + jb))
             (Hnh ja a Hja) (Hnh jb b Hjb) _ (Hlook ja a Hja) (Hlook jb b Hjb)).
  - reflexivity.
  - left. exists t. split; [|exact Htid]. apply list_elem_of_In, list_elem_of_lookup. eauto.
Qed.

Lemma renumber_span_follows_members_witness :
  exists t',
    fst (Stage42.renumber spans42) !! 1%nat = Some t' /\
    Stage42.get_tid t' = lit "2-3".
Proof.
  apply (renumber_span_follows_members spans42 1%nat (token42 [kv "id" "8-9"; kv "form" "cd"])
           (lit "8") (lit "9") 1%nat 2%nat).
  - repeat constructor.
  - vm_compute. repeat constructor; cbn; intuition discriminate.
  - reflexivity.
  - reflexivity.
  - reflexivity.
  - reflexivity.
Defined.

(** ** Stage 07: token lines, marks and numbering *)

Lemma split_join_char c fs :
  fs <> [] -> forallb (fun f => negb (has_char c f)) fs = true -> split [c] (join [c] fs) = fs.
Proof.
  unfold split. induction fs as [|f fs IH]; intros Hne H; [congruence|].
  cbn [forallb] in H. apply andb_prop in H as [Hf Hfs]. apply negb_true_iff in Hf.
  destruct fs as [|g fs].
  - cbn [join]. rewrite split_go_char_none by exact Hf. reflexivity.
  - change (join [c] (f :: g :: fs)) with (f ++ c :: join [c] (g :: fs)).
    rewrite split_go_char_app by exact Hf. cbn [rev app]. f_equal.
    apply IH; [discriminate|exact Hfs].
Qed.

Definition fields07 (t : Stage07.Tok) : list (list N) :=
  [Stage07.id t; Stage07.form t; Stage07.lemma t; Stage07.upostag t; Stage07.xpostag t;
   Stage07.feats t; Stage07.head t; Stage07.deprel t; Stage07.deps t; Stage07.misc t].

Lemma format_token_join t : Stage07.format_token t = join Stage07.TAB (fields07 t).
Proof. reflexivity. Qed.

(** Stage 07, token lines.  A token none of whose ten fields contains a
    tab is read back from its formatted line as the same token. *)
Theorem format_then_parse_token t :
  forallb (fun f => negb (has_char 9 f)) (fields07 t) = true ->
  Stage07.parse_token_line (Stage07.format_token t) = Some t.
Proof.
  intros H. unfold Stage07.parse_token_line. rewrite format_token_join.
  unfold Stage07.TAB. rewrite split_join_char by (discriminate || exact H).
  destruct t; reflexivity.
Qed.

Definition tok07f (i f h : string) : Stage07.Tok :=
  Stage07.mkTok (lit i) (lit f) (lit "_") (lit "_") (lit "_") (lit "_") (lit h) (lit "_")
                (lit "_") (lit "_").

Lemma format_then_parse_token_witness :
  Stage07.parse_token_line (Stage07.format_token (tok07f "1" "a b" "0")) = Some (tok07f "1" "a b" "0").
Proof. apply format_then_parse_token. reflexivity. Defined.

Definition has_mark (tk : Stage07.Tok) : bool :=
  existsb (fun ch => has_char ch (Stage07.form tk)) Stage07.ARM_PUNCT.

(** Stage 07, the changed flag.  Whenever the split returns, it reports a
    change exactly when the form of some token contains one of the three
    marks; and when it reports none, the tokens are returned as they
    were. *)
Theorem split_changed_iff_mark tokens out changed :
  Stage07.split_attached_punct tokens = Some (out, changed) ->
  changed = existsb has_mark tokens /\ (changed = false -> out = tokens).
Proof.
  revert out changed. induction tokens as [|tk rest IH]; intros out changed H.
  - injection H as <- <-. split; reflexivity.
  - cbn [Stage07.split_attached_punct] in H.
    destruct (Stage07.split_one tk) as [[parts ch]|] eqn:Hone; [|discriminate H].
    destruct (Stage07.split_attached_punct rest) as [[out' ch']|]; [|discriminate H].
    injection H as <- <-. destruct (IH out' ch' eq_refl) as [Hch Hsame].
    assert (Hflag : ch = has_mark tk /\ (ch = false -> parts = [tk])).
    { unfold Stage07.split_one in Hone. fold (has_mark tk) in Hone.
      destruct (has_mark tk); cbn [negb] in Hone.
      - destruct (negb (truthy _)); [injection Hone as <- <-; split; [reflexivity|discriminate]|].
        destruct (int (Stage07.id tk)); [|discriminate Hone].
        injection Hone as <- <-. split; [reflexivity|discriminate].
      - injection Hone as <- <-. split; reflexivity. }
    destruct Hflag as [-> Hparts]. cbn [existsb]. rewrite Hch. split; [reflexivity|].
    intros Hf. apply orb_false_elim in Hf as [H1 H2].
    rewrite (Hparts H1). rewrite Hch in Hsame. rewrite (Hsame H2). reflexivity.
Qed.

Lemma split_changed_iff_mark_witness :
  Stage07.split_attached_punct [tok07f "1" "a" "0"; tok07f "2" "b" "1"]
  = Some ([tok07f "1" "a" "0"; tok07f "2" "b" "1"], false).
Proof.
  destruct (Stage07.split_attached_punct [tok07f "1" "a" "0"; tok07f "2" "b" "1"])
    as [[out changed]|] eqn:H; [|vm_compute in H; discriminate H].
  destruct (split_changed_iff_mark _ out changed H) as [Hc Hs].
  vm_compute in Hc. subst changed. rewrite (Hs eq_refl). reflexivity.
Defined.

(** *** Numbering a sentence without span lines *)

(** The tokens given the ids [next], [next + 1], ... in order. *)
Fixpoint number_from (next : Z) (toks : list Stage07.Tok) : list Stage07.Tok :=
  match toks with
  | [] => []
  | tk :: rest => Stage07.with_id (str_of_Z next) tk :: number_from (next + 1) rest
  end.

Definition digit_id (tk : Stage07.Tok) : bool := isdigit (Stage07.id tk).

Definition plain07 (tokens : list Stage07.Tok) : Prop :=
  Forall (fun tk => contains Stage07.HYPHEN (Stage07.id tk) = false /\
                    (isdigit (Stage07.id tk) = true -> is_Some (int (Stage07.id tk))) /\
                    (isdigit (Stage07.head tk) = true -> is_Some (int (Stage07.head tk)))) tokens.

Lemma renumber_loop_plain tokens :
  plain07 tokens ->
  forall next m, exists m',
    Stage07.renumber_loop tokens next 0 0%Z 0%Z m
    = Some (number_from next (List.filter digit_id tokens), m').
Proof.
  induction 1 as [|tk rest (Hh & Hid & _) _ IH]; intros next m; [exists m; reflexivity|].
  cbn [Stage07.renumber_loop List.filter]. cbv zeta. rewrite Hh. unfold digit_id at 1.
  destruct (isdigit (Stage07.id tk)) eqn:Hd.
  - destruct (Hid eq_refl) as [n Hn]. rewrite Hn.
    destruct (IH (next + 1)%Z (<[n := str_of_Z next]> m)) as [m' Hm']. rewrite Hm'.
    exists m'. reflexivity.
  - exact (IH next m).
Qed.

Lemma remap_heads_plain m l :
  Forall (fun tk => isdigit (Stage07.head tk) = true -> is_Some (int (Stage07.head tk))) l ->
  exists out,
    Stage07.remap_heads m l = Some out /\
    List.map Stage07.id out = List.map Stage07.id l /\
    List.map Stage07.form out = List.map Stage07.form l.
Proof.
  induction 1 as [|tk rest Hh _ (out & Hout & Hids & Hforms)]; [exists []; auto|].
  cbn [Stage07.remap_heads]. rewrite Hout.
  assert (Hone : exists tk', Stage07.remap_head m tk = Some tk' /\
                             Stage07.id tk' = Stage07.id tk /\ Stage07.form tk' = Stage07.form tk).
  { unfold Stage07.remap_head. destruct (contains _ _); [eauto|].
    destruct (isdigit (Stage07.head tk)); [|eauto].
    destruct (Hh eq_refl) as [h ->]. destruct (m !! h) as [mapped|]; [|eauto].
    destruct (truthy mapped); eauto. }
  destruct Hone as (tk' & -> & Hid & Hform). exists (tk' :: out).
  cbn [List.map]. rewrite Hid, Hform, Hids, Hforms. auto.
Qed.

Lemma number_from_ids next toks :
  (0 <= next)%Z ->
  List.map Stage07.id (number_from next toks)
  = List.map decimal (seq (Z.to_nat next) (List.length toks)).
Proof.
  revert next. induction toks as [|tk rest IH]; intros next Hn; [reflexivity|].
  cbn [number_from List.map List.length seq]. f_equal.
  - unfold decimal. rewrite Z2Nat.id by exact Hn. reflexivity.
  - rewrite IH by lia. replace (Z.to_nat (next + 1)) with (S (Z.to_nat next)) by lia. reflexivity.
Qed.

Lemma number_from_forms next toks :
  List.map Stage07.form (number_from next toks) = List.map Stage07.form toks.
Proof.
  revert next. induction toks as [|tk rest IH]; intros next; [reflexivity|].
  cbn [number_from List.map]. rewrite IH. reflexivity.
Qed.

Lemma number_from_heads next toks :
  List.map Stage07.head (number_from next toks) = List.map Stage07.head toks.
Proof.
  revert next. induction toks as [|tk rest IH]; intros next; [reflexivity|].
  cbn [number_from List.map]. rewrite IH. reflexivity.
Qed.

(** Stage 07, numbering.  In a sentence without span lines whose ids and
    heads are accepted by [int] whenever they pass [isdigit], the tokens
    whose id is made of digits are returned in order with the ids 1, 2,
    ..., K, and every token with another id (a decimal id such as 3.1,
    an empty id) is dropped from the sentence. *)
Theorem renumber_plain_sentence tokens :
  plain07 tokens ->
  exists out,
    Stage07.renumber_tokens tokens = Some out /\
    List.map Stage07.id out
    = List.map decimal (seq 1 (List.length (List.filter digit_id tokens))) /\
    List.map Stage07.form out = List.map Stage07.form (List.filter digit_id tokens).
Proof.
  intros Hp. unfold Stage07.renumber_tokens.
  destruct (renumber_loop_plain tokens Hp 1%Z ∅) as [m' ->].
  destruct (remap_heads_plain m' (number_from 1 (List.filter digit_id tokens))) as (out & -> & Hids & Hforms).
  { apply List.Forall_forall. intros tk Hin.
    assert (Hhd : In (Stage07.head tk) (List.map Stage07.head (List.filter digit_id tokens))).
    { rewrite <- (number_from_heads 1). apply List.in_map, Hin. }
    apply List.in_map_iff in Hhd as (tk0 & Heq & Hin0). rewrite <- Heq.
    apply List.filter_In in Hin0 as [Hin0 _].
    unfold plain07 in Hp. rewrite List.Forall_forall in Hp. apply (Hp tk0 Hin0). }
  exists out. split; [reflexivity|]. split.
  - rewrite Hids. apply (number_from_ids 1). lia.
  - rewrite Hforms. apply number_from_forms.
Qed.

Lemma renumber_plain_sentence_witness :
  exists out,
    Stage07.renumber_tokens [tok07f "4" "a" "9"; tok07f "4.1" "b" "_"; tok07f "9" "c" "0"] = Some out /\
    List.map Stage07.id out = [lit "1"; lit "2"] /\
    List.map Stage07.form out = [lit "a"; lit "c"].
Proof.
  apply (renumber_plain_sentence [tok07f "4" "a" "9"; tok07f "4.1" "b" "_"; tok07f "9" "c" "0"]).
  unfold plain07.
  repeat (apply List.Forall_cons;
          [split; [reflexivity|split; intros H; vm_compute in H |- *; try discriminate H; eauto]|]).
  apply List.Forall_nil.
Defined.

(** ** Stage 18: writing and reading a sentence *)

Definition fields18 (t : Stage18.Tok) : list (list N) :=
  [Stage18.token_id t; Stage18.form t; Stage18.lemma t; Stage18.upostag t; Stage18.xpostag t;
   Stage18.feats t; Stage18.head t; Stage18.deprel t; Stage18.deps t; Stage18.misc t].

(** A field that is not empty and has neither a tab nor a line feed. *)
Definition field18_ok (f : list N) : bool :=
  truthy f && negb (has_char 9 f) && negb (has_char 10 f).

Definition starts_clean (f : list N) : bool :=
  match f with
  | c :: _ => negb (isspace c)
  | [] => false
  end.

(** A token whose ten fields are such fields, whose id starts with
    neither whitespace nor the comment sign and whose last field does not
    end in whitespace. *)
Definition wf18 (t : Stage18.Tok) : Prop :=
  forallb field18_ok (fields18 t) = true /\
  starts_clean (Stage18.token_id t) = true /\
  startswith (Stage18.token_id t) [35] = false /\
  starts_clean (rev (Stage18.misc t)) = true.

Lemma or_underscore_id f : truthy f = true -> Stage18.or_underscore f = f.
Proof. unfold Stage18.or_underscore. intros ->. reflexivity. Qed.

Lemma format_row_fields t :
  forallb field18_ok (fields18 t) = true -> Stage18.format_row t = join [9] (fields18 t).
Proof.
  intros H. unfold Stage18.format_row, fields18 in *. cbn [forallb] in H.
  repeat (apply andb_prop in H as [?H H]).
  repeat match goal with
         | Hf : field18_ok ?f = true |- _ =>
             unfold field18_ok in Hf; apply andb_prop in Hf as [Hf _];
             apply andb_prop in Hf as [Hf _]; rewrite (or_underscore_id f Hf); clear Hf
         end.
  reflexivity.
Qed.

Lemma fields_no_tab t :
  forallb field18_ok (fields18 t) = true ->
  forallb (fun f => negb (has_char 9 f)) (fields18 t) = true.
Proof.
  apply forallb_impl. intros f Hf. unfold field18_ok in Hf.
  apply andb_prop in Hf as [Hf _]. apply andb_prop in Hf as [_ Hf]. exact Hf.
Qed.

Lemma has_char_join c sep fs :
  has_char c sep = false -> forallb (fun f => negb (has_char c f)) fs = true ->
  has_char c (join sep fs) = false.
Proof.
  intros Hsep. induction fs as [|f fs IH]; intros H; [reflexivity|].
  cbn [forallb] in H. apply andb_prop in H as [Hf Hfs]. apply negb_true_iff in Hf.
  destruct fs as [|g fs]; [exact Hf|].
  change (join sep (f :: g :: fs)) with (f ++ sep ++ join sep (g :: fs)).
  rewrite !has_char_app, Hf, Hsep, (IH Hfs). reflexivity.
Qed.

Lemma row_no_newline t :
  forallb field18_ok (fields18 t) = true -> has_char 10 (Stage18.format_row t) = false.
Proof.
  intros H. rewrite (format_row_fields t H). apply has_char_join; [reflexivity|].
  revert H. apply forallb_impl. intros f Hf. unfold field18_ok in Hf.
  apply andb_prop in Hf as [_ Hf]. exact Hf.
Qed.

Lemma parse_formatted_row t : wf18 t -> Stage18.parse_line (Stage18.format_row t) = Some t.
Proof.
  intros (Hf & Hstart & Hhash & _). unfold Stage18.parse_line.
  rewrite (format_row_fields t Hf).
  assert (Hrow : join [9] (fields18 t)
                 = Stage18.token_id t ++ [9] ++ join [9] (List.tl (fields18 t))) by reflexivity.
  assert (Htruthy : truthy (join [9] (fields18 t)) = true).
  { rewrite Hrow. destruct (Stage18.token_id t); [discriminate Hstart|reflexivity]. }
  assert (Hnh : startswith (join [9] (fields18 t)) [35] = false).
  { rewrite Hrow. destruct (Stage18.token_id t) as [|c r]; [discriminate Hstart|].
    cbn [app startswith] in Hhash |- *. destruct (35 =? c); [|reflexivity].
    cbn [andb] in Hhash |- *. destruct r; discriminate Hhash || exact Hhash. }
  rewrite Htruthy, Hnh. cbn [negb orb].
  rewrite split_join_char by (discriminate || exact (fields_no_tab t Hf)).
  destruct t; reflexivity.
Qed.

Lemma parse_formatted_rows toks :
  Forall wf18 toks -> Stage18.parse_lines (List.map Stage18.format_row toks) = toks.
Proof.
  induction 1 as [|t toks Ht _ IH]; [reflexivity|].
  cbn [List.map Stage18.parse_lines]. rewrite (parse_formatted_row t Ht), IH. reflexivity.
Qed.

Lemma lstrip_clean s : starts_clean s = true -> lstrip_by isspace s = s.
Proof.
  destruct s as [|c s]; [discriminate|]. cbn [starts_clean lstrip_by].
  intros H. apply negb_true_iff in H. rewrite H. reflexivity.
Qed.

Lemma strip_clean s :
  starts_clean s = true -> starts_clean (rev s) = true -> strip s = s.
Proof.
  intros H1 H2. unfold strip, rstrip_by. rewrite (lstrip_clean s H1), (lstrip_clean _ H2).
  apply rev_involutive.
Qed.

Lemma starts_clean_app x y : starts_clean x = true -> starts_clean (x ++ y) = true.
Proof. destruct x; [discriminate|]. intros H. exact H. Qed.

Lemma join_head sep (x : list N) xs : exists tail, join sep (x :: xs) = x ++ tail.
Proof.
  destruct xs as [|y xs]; [exists []; cbn [join]; rewrite app_nil_r; reflexivity|].
  eexists. reflexivity.
Qed.

Lemma join_last sep (xs : list (list N)) x : exists front, join sep (xs ++ [x]) = front ++ x.
Proof.
  induction xs as [|y xs [front IH]]; [exists []; reflexivity|].
  destruct xs as [|z xs].
  - exists (y ++ sep). cbn [app join]. rewrite <- app_assoc. reflexivity.
  - exists (y ++ sep ++ front).
    change (join sep ((y :: z :: xs) ++ [x])) with (y ++ sep ++ join sep ((z :: xs) ++ [x])).
    rewrite IH, <- !app_assoc. reflexivity.
Qed.

Lemma block_starts_clean toks :
  toks <> [] -> Forall wf18 toks -> starts_clean (Stage18.format_conllu_sentence toks) = true.
Proof.
  intros Hne H. destruct toks as [|t toks]; [congruence|].
  apply Forall_cons_iff in H as [(Hf & Hstart & _) _].
  unfold Stage18.format_conllu_sentence. cbn [List.map].
  destruct (join_head [10] (Stage18.format_row t) (List.map Stage18.format_row toks)) as [tail ->].
  apply starts_clean_app. rewrite (format_row_fields t Hf).
  destruct (join_head [9] (Stage18.token_id t) (List.tl (fields18 t))) as [tail' E].
  change (join [9] (fields18 t)) with (join [9] (Stage18.token_id t :: List.tl (fields18 t))).
  rewrite E. apply starts_clean_app, Hstart.
Qed.

Lemma block_ends_clean toks :
  toks <> [] -> Forall wf18 toks ->
  starts_clean (rev (Stage18.format_conllu_sentence toks)) = true.
Proof.
  intros Hne H. destruct (exists_last Hne) as (front & t & ->).
  apply List.Forall_app in H as [_ H]. apply Forall_cons_iff in H as [(Hf & _ & _ & Hend) _].
  unfold Stage18.format_conllu_sentence. rewrite List.map_app. cbn [List.map].
  destruct (join_last [10] (List.map Stage18.format_row front) (Stage18.format_row t)) as [pre ->].
  rewrite rev_app_distr. apply starts_clean_app. rewrite (format_row_fields t Hf).
  change (fields18 t)
    with ([Stage18.token_id t; Stage18.form t; Stage18.lemma t; Stage18.upostag t;
           Stage18.xpostag t; Stage18.feats t; Stage18.head t; Stage18.deprel t;
           Stage18.deps t] ++ [Stage18.misc t]).
  destruct (join_last [9] [Stage18.token_id t; Stage18.form t; Stage18.lemma t; Stage18.upostag t;
                           Stage18.xpostag t; Stage18.feats t; Stage18.head t; Stage18.deprel t;
                           Stage18.deps t] (Stage18.misc t)) as [pre' ->].
  rewrite rev_app_distr. apply starts_clean_app, Hend.
Qed.

(** Stage 18, round trip.  A list of tokens whose fields are non-empty
    and free of tabs and line feeds, whose ids start with neither
    whitespace nor the comment sign and whose last fields do not end in
    whitespace, is read back unchanged from the text written for it. *)
Theorem format_then_parse_sentence toks :
  Forall wf18 toks ->
  Stage18.parse_conllu_sentence (Stage18.format_conllu_sentence toks) = toks.
Proof.
  intros H. unfold Stage18.parse_conllu_sentence.
  destruct toks as [|t toks]; [reflexivity|].
  rewrite strip_clean by (apply block_starts_clean || apply block_ends_clean; (discriminate || exact H)).
  unfold Stage18.format_conllu_sentence.
  rewrite split_join_char.
  - apply parse_formatted_rows, H.
  - discriminate.
  - rewrite forallb_forall. intros row Hrow. apply List.in_map_iff in Hrow as (t' & <- & Hin).
    rewrite List.Forall_forall in H. destruct (H t' Hin) as (Hf & _).
    rewrite (row_no_newline t' Hf). reflexivity.
Qed.

Definition tok18 (i f u fs h d : string) : Stage18.Tok :=
  Stage18.mkTok (lit i) (lit f) (lit "_") (lit u) (lit "_") (lit fs) (lit h) (lit d)
                (lit "_") (lit "_").

Lemma format_then_parse_sentence_witness :
  Stage18.parse_conllu_sentence
    (Stage18.format_conllu_sentence
       [tok18 "1" "a b" "NOUN" "Case=Nom" "2" "nsubj"; tok18 "2" "c" "VERB" "_" "0" "root"])
  = [tok18 "1" "a b" "NOUN" "Case=Nom" "2" "nsubj"; tok18 "2" "c" "VERB" "_" "0" "root"].
Proof.
  apply format_then_parse_sentence.
  repeat (apply List.Forall_cons; [repeat split; vm_compute; reflexivity|]).
  apply List.Forall_nil.
Defined.

(** ** Stages 03 and 18: a line with the wrong number of columns among others *)




Lemma parse18_empty_line : Stage18.parse_line [] = None.
Proof. reflexivity. Qed.







(** ** Stage 18: features and the merge *)

Lemma in_insert_sorted x y l : In x (Stage18.insert_sorted y l) <-> x = y \/ In x l.
Proof.
  induction l as [|z l IH]; cbn [Stage18.insert_sorted].
  - cbn. intuition.
  - destruct (Stage18.str_leb y z); cbn [In]; [intuition|]. rewrite IH. intuition.
Qed.

Lemma in_sorted x l : In x (Stage18.sorted l) <-> In x l.
Proof.
  induction l as [|y l IH]; [reflexivity|].
  unfold Stage18.sorted. cbn [fold_right]. fold (Stage18.sorted l).
  rewrite in_insert_sorted, IH. cbn [In]. intuition.
Qed.

Lemma in_set_of x l : In x (Stage18.set_of l) <-> In x l.
Proof.
  induction l as [|y l IH]; [reflexivity|]. cbn [Stage18.set_of].
  destruct (bool_decide (y ∈ l)) eqn:E.
  - apply bool_decide_eq_true_1, list_elem_of_In in E. rewrite IH. cbn [In].
    split; [auto|]. intros [<-|H]; auto.
  - cbn [In]. rewrite IH. reflexivity.
Qed.

Lemma length_insert_sorted x l :
  List.length (Stage18.insert_sorted x l) = S (List.length l).
Proof.
  induction l as [|y l IH]; [reflexivity|]. cbn [Stage18.insert_sorted].
  destruct (Stage18.str_leb x y); cbn [List.length]; [reflexivity|]. rewrite IH. reflexivity.
Qed.

Lemma length_sorted l : List.length (Stage18.sorted l) = List.length l.
Proof.
  induction l as [|y l IH]; [reflexivity|].
  unfold Stage18.sorted. cbn [fold_right]. fold (Stage18.sorted l).
  rewrite length_insert_sorted, IH. reflexivity.
Qed.

Lemma set_of_two l :
  (1 < List.length (Stage18.set_of l))%nat -> exists a b, In a l /\ In b l /\ a <> b.
Proof.
  induction l as [|x l IH]; [cbn; lia|]. cbn [Stage18.set_of].
  destruct (bool_decide (x ∈ l)) eqn:E.
  - intros H. destruct (IH H) as (a & b & Ha & Hb & Hne). exists a, b. cbn [In]. auto.
  - apply bool_decide_eq_false_1 in E. cbn [List.length]. intros H.
    destruct (Stage18.set_of l) as [|y r] eqn:Hs; [cbn in H; lia|].
    assert (Hy : In y l) by (apply (proj1 (in_set_of _ _)); rewrite Hs; left; reflexivity).
    exists x, y. cbn [In]. split; [auto|]. split; [auto|].
    intros ->. apply E, list_elem_of_In, Hy.
Qed.

Lemma feats_get_key k d vs : Stage18.feats_get k d = Some vs -> In k (List.map fst d).
Proof.
  induction d as [|[k' vs'] d IH]; cbn [Stage18.feats_get]; [discriminate|].
  destruct (bool_decide (k' = k)) eqn:E.
  - apply bool_decide_eq_true_1 in E. intros _. left. exact E.
  - intros H. right. exact (IH H).
Qed.

Lemma feats_key_get k d : In k (List.map fst d) -> exists vs, Stage18.feats_get k d = Some vs.
Proof.
  induction d as [|[k' vs'] d IH]; [intros []|]. cbn [List.map fst In Stage18.feats_get].
  destruct (bool_decide (k' = k)) eqn:E; [eauto|].
  apply bool_decide_eq_false_1 in E. intros [H|H]; [contradiction|exact (IH H)].
Qed.

Lemma in_final_pairs scraped parsed k v :
  In (k, v) (Stage18.final_pairs scraped parsed) <->
  In k (List.map fst scraped) /\ In (k, v) (Stage18.pairs_of_key scraped parsed k).
Proof.
  unfold Stage18.final_pairs. rewrite List.in_concat. split.
  - intros (l & Hl & Hin). apply List.in_map_iff in Hl as (key & <- & Hkey).
    apply (proj1 (in_sorted _ _)) in Hkey.
    assert (key = k) as ->.
    { unfold Stage18.pairs_of_key in Hin. cbv zeta in Hin.
      destruct (1 <? _)%nat.
      - destruct (Stage18.feats_get key parsed) as [[|pv ?]|].
        + apply List.in_map_iff in Hin as (? & [= <- _] & _). reflexivity.
        + destruct Hin as [[= <- _]|[]]. reflexivity.
        + apply List.in_map_iff in Hin as (? & [= <- _] & _). reflexivity.
      - destruct (Stage18.sorted _); [destruct Hin|]. destruct Hin as [[= <- _]|[]]. reflexivity. }
    auto.
  - intros [Hkey Hin]. exists (Stage18.pairs_of_key scraped parsed k). split; [|exact Hin].
    apply List.in_map. apply (proj2 (in_sorted _ _)). exact Hkey.
Qed.

Lemma final_pairs_values scraped parsed k v :
  In (k, v) (Stage18.final_pairs scraped parsed) ->
  exists vs,
    Stage18.feats_get k scraped = Some vs /\
    (In v vs \/
     (exists a b, In a vs /\ In b vs /\ a <> b) /\
     exists pvs, Stage18.feats_get k parsed = Some (v :: pvs)).
Proof.
  intros H. apply in_final_pairs in H as [Hkey Hin].
  destruct (feats_key_get k scraped Hkey) as [vs Hvs]. exists vs. split; [exact Hvs|].
  unfold Stage18.pairs_of_key in Hin. cbv zeta in Hin. rewrite Hvs in Hin.
  assert (Huniq : forall x, In (k, x) (List.map (fun v0 => (k, v0)) (Stage18.sorted (Stage18.set_of vs))) ->
                            In x vs).
  { intros x Hx. apply List.in_map_iff in Hx as (y & [= ->] & Hy).
    apply (proj1 (in_sorted _ _)) in Hy. apply (proj1 (in_set_of _ _)) in Hy. exact Hy. }
  destruct (1 <? _)%nat eqn:Hamb.
  - apply Nat.ltb_lt in Hamb. rewrite length_sorted in Hamb.
    destruct (Stage18.feats_get k parsed) as [[|pv pvs]|]; [left; auto| |left; auto].
    destruct Hin as [[= <-]|[]]. right. split; [exact (set_of_two vs Hamb)|eauto].
  - left. destruct (Stage18.sorted (Stage18.set_of vs)) as [|sv r] eqn:Hs; [destruct Hin|].
    destruct Hin as [[= <-]|[]].
    apply (proj1 (in_set_of _ _)). apply (proj1 (in_sorted _ _)). rewrite Hs. left. reflexivity.
Qed.

Definition mkfeats (s : string) : Stage18.feats_t := Stage18._parse_feats_to_dict (lit s).

Lemma feats_append_nonempty k v d :
  Forall (fun kv => snd kv <> []) d -> Forall (fun kv => snd kv <> []) (Stage18.feats_append k v d).
Proof.
  induction 1 as [|[k' vs] d Hx Hd IH]; cbn [Stage18.feats_append].
  - constructor; [discriminate|constructor].
  - destruct (bool_decide (k' = k)); constructor; try assumption.
    cbn [snd]. destruct vs; discriminate.
Qed.

Lemma parse_feats_nonempty feats :
  Forall (fun kv => snd kv <> []) (Stage18._parse_feats_to_dict feats).
Proof.
  unfold Stage18._parse_feats_to_dict. destruct (_ || _); [constructor|].
  assert (H : forall items d, Forall (fun kv : list N * list (list N) => snd kv <> []) d ->
                Forall (fun kv => snd kv <> []) (fold_left Stage18.add_item items d)).
  { induction items as [|item items IH]; intros d Hd; [exact Hd|].
    cbn [fold_left]. apply IH. unfold Stage18.add_item.
    destruct (_ || _); [exact Hd|].
    destruct (split1 [61] item) as [|a [|b [|? ?]]]; try exact Hd.
    apply feats_append_nonempty, Hd. }
  apply H. constructor.
Qed.

Lemma feats_get_in k d vs : Stage18.feats_get k d = Some vs -> In (k, vs) d.
Proof.
  induction d as [|[k' vs'] d IH]; cbn [Stage18.feats_get]; [discriminate|].
  destruct (bool_decide (k' = k)) eqn:E.
  - apply bool_decide_eq_true_1 in E. intros [= <-]. left. rewrite E. reflexivity.
  - intros H. right. exact (IH H).
Qed.

Lemma final_pairs_keys scraped_feats parsed k :
  In k (List.map fst (Stage18.final_pairs (Stage18._parse_feats_to_dict scraped_feats) parsed))
  <-> In k (List.map fst (Stage18._parse_feats_to_dict scraped_feats)).
Proof.
  set (scraped := Stage18._parse_feats_to_dict scraped_feats). split.
  - intros H. apply List.in_map_iff in H as ([k' v] & Hk & Hin). cbn [fst] in Hk. subst k'.
    apply in_final_pairs in Hin as [Hkey _]. exact Hkey.
  - intros Hkey. destruct (feats_key_get k scraped Hkey) as [vs Hvs].
    assert (Hne : vs <> []).
    { pose proof (parse_feats_nonempty scraped_feats) as Hall. fold scraped in Hall.
      rewrite List.Forall_forall in Hall. exact (Hall (k, vs) (feats_get_in k scraped vs Hvs)). }
    assert (Hex : exists v, In (k, v) (Stage18.pairs_of_key scraped parsed k)).
    { unfold Stage18.pairs_of_key. cbv zeta. rewrite Hvs.
      destruct (Stage18.sorted (Stage18.set_of vs)) as [|sv r] eqn:Hs.
      - exfalso. destruct vs as [|x vs]; [congruence|].
        assert (Hx : In x (Stage18.sorted (Stage18.set_of (x :: vs)))).
        { apply (proj2 (in_sorted _ _)). apply (proj2 (in_set_of _ _)). left. reflexivity. }
        rewrite Hs in Hx. destruct Hx.
      - destruct (1 <? _)%nat.
        + destruct (Stage18.feats_get k parsed) as [[|pv pvs]|];
            [exists sv; left; reflexivity|exists pv; left; reflexivity|exists sv; left; reflexivity].
        + exists sv. left. reflexivity. }
    destruct Hex as [v Hv]. apply List.in_map_iff. exists (k, v). split; [reflexivity|].
    apply in_final_pairs. auto.
Qed.

(** The text written for the list [final_pairs]. *)
Definition render_pairs (pairs : list (list N * list N)) : list N :=
  match pairs with
  | [] => Stage18.UNDERSCORE
  | _ => join [124] (List.map (fun kv => fst kv ++ [61] ++ snd kv) pairs)
  end.

Lemma disambiguate_merged scraped_feats parsed_feats :
  truthy scraped_feats = true -> scraped_feats <> Stage18.UNDERSCORE ->
  Stage18._parse_feats_to_dict parsed_feats <> [] ->
  Stage18.disambiguate_feats scraped_feats parsed_feats
  = render_pairs (Stage18.final_pairs (Stage18._parse_feats_to_dict scraped_feats)
                                      (Stage18._parse_feats_to_dict parsed_feats)).
Proof.
  intros Ht Hu Hp. unfold Stage18.disambiguate_feats. rewrite Ht.
  rewrite bool_decide_eq_false_2 by exact Hu. cbn [negb orb]. cbv zeta.
  destruct (Stage18._parse_feats_to_dict parsed_feats); [congruence|].
  unfold render_pairs. destruct (Stage18.final_pairs _ _); reflexivity.
Qed.

(** Stage 18, what [disambiguate_feats] returns.  Without scraped
    features (the empty string or the underscore) it is the FEATS of the
    parser as they are, or the underscore if those are blank.  With
    scraped features and no item key=value in the FEATS of the parser
    it is the scraped FEATS as they are.  Otherwise it is the text of the
    list of pairs, the underscore if there is none and else the pairs
    key=value joined by the bar, and every pair of the list has a key of
    the key=value items of the scraped FEATS; its value is one of the
    scraped values of that key, unless the scraped values of the key
    differ among themselves, in which case it may instead be the first
    value the parser gives for the key.  So a key with a single scraped
    value keeps it, whatever the parser says. *)
Theorem merged_feature_values scraped_feats parsed_feats :
  (truthy scraped_feats = false \/ scraped_feats = Stage18.UNDERSCORE ->
   Stage18.disambiguate_feats scraped_feats parsed_feats
   = if truthy parsed_feats && truthy (strip parsed_feats) then parsed_feats
     else Stage18.UNDERSCORE)
  /\
  (truthy scraped_feats = true -> scraped_feats <> Stage18.UNDERSCORE ->
   Stage18._parse_feats_to_dict parsed_feats = [] ->
   Stage18.disambiguate_feats scraped_feats parsed_feats = scraped_feats)
  /\
  (truthy scraped_feats = true -> scraped_feats <> Stage18.UNDERSCORE ->
   Stage18._parse_feats_to_dict parsed_feats <> [] ->
   Stage18.disambiguate_feats scraped_feats parsed_feats
   = render_pairs (Stage18.final_pairs (Stage18._parse_feats_to_dict scraped_feats)
                                       (Stage18._parse_feats_to_dict parsed_feats))
   /\
   forall k v,
     In (k, v) (Stage18.final_pairs (Stage18._parse_feats_to_dict scraped_feats)
                                    (Stage18._parse_feats_to_dict parsed_feats)) ->
     exists vs,
       Stage18.feats_get k (Stage18._parse_feats_to_dict scraped_feats) = Some vs /\
       (In v vs \/
        (exists a b, In a vs /\ In b vs /\ a <> b) /\
        exists pvs, Stage18.feats_get k (Stage18._parse_feats_to_dict parsed_feats)
                    = Some (v :: pvs))).
Proof.
  split; [|split].
  - intros H. unfold Stage18.disambiguate_feats.
    destruct H as [H| ->].
    + rewrite H. reflexivity.
    + rewrite bool_decide_eq_true_2 by reflexivity. rewrite orb_true_r. reflexivity.
  - intros Ht Hu Hp. unfold Stage18.disambiguate_feats. rewrite Ht.
    rewrite bool_decide_eq_false_2 by exact Hu. cbn [negb orb]. cbv zeta.
    rewrite Hp. reflexivity.
  - intros Ht Hu Hp. split; [exact (disambiguate_merged _ _ Ht Hu Hp)|].
    intros k v. apply final_pairs_values.
Qed.

(** The three cases; in the last, Case has two scraped values and takes
    that of the parser, Number has one and keeps it. *)
Lemma merged_feature_values_witness :
  Stage18.disambiguate_feats (lit "_") (lit "Case=Acc") = lit "Case=Acc"
  /\ Stage18.disambiguate_feats (lit "Case=Nom|Poss") (lit "_") = lit "Case=Nom|Poss"
  /\ Stage18.disambiguate_feats (lit "Case=Nom|Number=Sing|Case=Acc|Poss")
                                (lit "Case=Acc|Number=Plur")
     = lit "Case=Acc|Number=Sing"
  /\ exists vs,
       Stage18.feats_get (lit "Number") (mkfeats "Case=Nom|Number=Sing|Case=Acc|Poss") = Some vs /\
       (In (lit "Sing") vs \/
        (exists a b, In a vs /\ In b vs /\ a <> b) /\
        exists pvs, Stage18.feats_get (lit "Number") (mkfeats "Case=Acc|Number=Plur")
                    = Some (lit "Sing" :: pvs)).
Proof.
  split; [|split; [|split]].
  - destruct (merged_feature_values (lit "_") (lit "Case=Acc")) as (Ha & _ & _).
    rewrite Ha by (right; reflexivity). reflexivity.
  - destruct (merged_feature_values (lit "Case=Nom|Poss") (lit "_")) as (_ & Hb & _).
    apply Hb; [reflexivity|intros E; discriminate E|reflexivity].
  - destruct (merged_feature_values (lit "Case=Nom|Number=Sing|Case=Acc|Poss")
                                    (lit "Case=Acc|Number=Plur")) as (_ & _ & Hc).
    destruct Hc as [Hc _]; [reflexivity|intros E; discriminate E|intros E; discriminate E|].
    rewrite Hc. vm_compute. reflexivity.
  - destruct (merged_feature_values (lit "Case=Nom|Number=Sing|Case=Acc|Poss")
                                    (lit "Case=Acc|Number=Plur")) as (_ & _ & Hc).
    destruct Hc as [_ Hc]; [reflexivity|intros E; discriminate E|intros E; discriminate E|].
    apply (Hc (lit "Number") (lit "Sing")). vm_compute. right. left. reflexivity.
Defined.

(** Stage 18, the keys of the merged features.  When there are scraped
    features and the FEATS of the parser hold an item key=value, the
    keys of the pairs of which [disambiguate_feats] returns the text are
    exactly the keys of the key=value items of the scraped FEATS: none of
    them is lost and the parser adds none.  A scraped item without the
    equals sign gives no key and is not in the result; if no scraped item
    has one, the result is the underscore. *)
Theorem merged_feature_keys scraped_feats parsed_feats :
  truthy scraped_feats = true -> scraped_feats <> Stage18.UNDERSCORE ->
  Stage18._parse_feats_to_dict parsed_feats <> [] ->
  Stage18.disambiguate_feats scraped_feats parsed_feats
  = render_pairs (Stage18.final_pairs (Stage18._parse_feats_to_dict scraped_feats)
                                      (Stage18._parse_feats_to_dict parsed_feats))
  /\
  (forall k,
     In k (List.map fst (Stage18.final_pairs (Stage18._parse_feats_to_dict scraped_feats)
                                             (Stage18._parse_feats_to_dict parsed_feats)))
     <-> In k (List.map fst (Stage18._parse_feats_to_dict scraped_feats)))
  /\
  (Stage18._parse_feats_to_dict scraped_feats = [] ->
   Stage18.disambiguate_feats scraped_feats parsed_feats = Stage18.UNDERSCORE).
Proof.
  intros Ht Hu Hp. split; [exact (disambiguate_merged _ _ Ht Hu Hp)|].
  split; [intros k; apply final_pairs_keys|].
  intros He. rewrite (disambiguate_merged _ _ Ht Hu Hp), He. reflexivity.
Qed.

(** The scraped flag Poss has no equals sign and is not in the result. *)
Lemma merged_feature_keys_witness :
  Stage18.disambiguate_feats (lit "Case=Nom|Number=Sing|Case=Acc|Poss")
                             (lit "Case=Acc|Number=Plur")
  = lit "Case=Acc|Number=Sing"
  /\ List.map fst (mkfeats "Case=Nom|Number=Sing|Case=Acc|Poss") = [lit "Case"; lit "Number"]
  /\ Stage18.disambiguate_feats (lit "Poss") (lit "Case=Acc") = lit "_".
Proof.
  split; [|split].
  - destruct (merged_feature_keys (lit "Case=Nom|Number=Sing|Case=Acc|Poss")
                                  (lit "Case=Acc|Number=Plur")) as (Hc & _ & _);
      [reflexivity|intros E; discriminate E|intros E; discriminate E|].
    rewrite Hc. vm_compute. reflexivity.
  - reflexivity.
  - destruct (merged_feature_keys (lit "Poss") (lit "Case=Acc")) as (_ & _ & He);
      [reflexivity|intros E; discriminate E|intros E; discriminate E|].
    apply He. reflexivity.
Defined.

(** *** The merge of two sentences *)

Section MergeFacts.

Variable lower : list N -> list N.

Lemma merge_lookup scraped parsed i s :
  scraped !! i = Some s ->
  Stage18.merge_sentences lower scraped parsed !! i
  = Some (Stage18.merge_token lower (Stage18.index_by_id parsed) s).
Proof.
  intros H. unfold Stage18.merge_sentences. rewrite lookup_list_map, H. reflexivity.
Qed.

(** Stage 18, what the merge keeps.  The merged sentence has one token
    for each scraped token, in order, with the scraped id, form, lemma,
    language-specific tag, deps and misc; a scraped token whose id is not
    the id of any parsed token is returned as it is. *)
Theorem merge_keeps_scraped_columns scraped parsed i s :
  scraped !! i = Some s ->
  List.length (Stage18.merge_sentences lower scraped parsed) = List.length scraped /\
  exists t,
    Stage18.merge_sentences lower scraped parsed !! i = Some t /\
    Stage18.token_id t = Stage18.token_id s /\ Stage18.form t = Stage18.form s /\
    Stage18.lemma t = Stage18.lemma s /\ Stage18.xpostag t = Stage18.xpostag s /\
    Stage18.deps t = Stage18.deps s /\ Stage18.misc t = Stage18.misc s /\
    (Forall (fun p => Stage18.token_id p <> Stage18.token_id s) parsed -> t = s).
Proof.
  intros H. split; [unfold Stage18.merge_sentences; apply List.length_map|].
  eexists. split; [exact (merge_lookup scraped parsed i s H)|].
  unfold Stage18.merge_token.
  destruct (Stage18.index_by_id parsed !! Stage18.token_id s) as [p|] eqn:Hp.
  - assert (Hfound : ~ Forall (fun p0 => Stage18.token_id p0 <> Stage18.token_id s) parsed).
    { intros Hall. revert Hp. unfold Stage18.index_by_id.
      assert (Hgen : forall l (m : gmap (list N) Stage18.Tok),
                Forall (fun p0 => Stage18.token_id p0 <> Stage18.token_id s) l ->
                m !! Stage18.token_id s = None ->
                fold_left (fun m0 t0 => <[Stage18.token_id t0 := t0]> m0) l m
                  !! Stage18.token_id s = None).
      { induction l as [|x l IH]; intros m Hl Hm; [exact Hm|].
        apply Forall_cons_iff in Hl as [Hx Hl]. cbn [fold_left]. apply IH; [exact Hl|].
        rewrite lookup_insert_ne; [exact Hm|exact Hx]. }
      rewrite (Hgen parsed ∅ Hall (lookup_empty _)). discriminate. }
    destruct (bool_decide (lower (Stage18.form s) = lower (Stage18.form p))).
    + cbv zeta. destruct (bool_decide (_ ∈ _));
        repeat (split; [reflexivity|]); intros Hall; contradiction.
    + repeat (split; [reflexivity|]). reflexivity.
  - repeat (split; [reflexivity|]). reflexivity.
Qed.

(** Stage 18, the gate on the part of speech.  In a merged token the
    universal tag and the features are those of the scraped token, or
    the tag is one of the alternatives that the scraped tag lists between
    slashes: the parser's tag is never taken outside that list. *)
Theorem merge_pos_within_scraped scraped parsed i s :
  scraped !! i = Some s ->
  exists t,
    Stage18.merge_sentences lower scraped parsed !! i = Some t /\
    ((Stage18.upostag t = Stage18.upostag s /\ Stage18.feats t = Stage18.feats s) \/
     In (Stage18.upostag t) (split [47] (Stage18.or_underscore (Stage18.upostag s)))).
Proof.
  intros H. eexists. split; [exact (merge_lookup scraped parsed i s H)|].
  unfold Stage18.merge_token.
  destruct (Stage18.index_by_id parsed !! Stage18.token_id s) as [p|]; [|left; auto].
  destruct (bool_decide (lower (Stage18.form s) = lower (Stage18.form p))); [|left; auto].
  cbv zeta. destruct (bool_decide (_ ∈ _)) eqn:E; [|left; auto].
  right. apply bool_decide_eq_true_1, list_elem_of_In in E. exact E.
Qed.

End MergeFacts.

(** [str.lower] on ASCII text. *)
Definition ascii_lower (s : list N) : list N :=
  List.map (fun c => if (65 <=? c) && (c <=? 90) then c + 32 else c) s.

Definition scraped18 : list Stage18.Tok :=
  [tok18 "1" "Ab" "NOUN/ADJ" "Case=Nom|Case=Acc" "_" "_"; tok18 "2" "c" "VERB" "_" "_" "_"].

Definition parsed18 : list Stage18.Tok :=
  [tok18 "1" "ab" "ADJ" "Case=Acc" "2" "amod"; tok18 "3" "c" "NOUN" "_" "0" "root"].

Lemma merge_keeps_scraped_columns_witness :
  Stage18.merge_sentences ascii_lower scraped18 parsed18
  = [tok18 "1" "Ab" "ADJ" "Case=Acc" "2" "amod"; tok18 "2" "c" "VERB" "_" "_" "_"] /\
  exists t,
    Stage18.merge_sentences ascii_lower scraped18 parsed18 !! 1%nat = Some t /\
    t = tok18 "2" "c" "VERB" "_" "_" "_".
Proof.
  split; [vm_compute; reflexivity|].
  destruct (merge_keeps_scraped_columns ascii_lower scraped18 parsed18 1%nat
              (tok18 "2" "c" "VERB" "_" "_" "_") eq_refl)
    as (_ & t & Ht & _ & _ & _ & _ & _ & _ & Hsame).
  exists t. split; [exact Ht|]. apply Hsame.
  repeat (apply List.Forall_cons; [vm_compute; intros E; discriminate E|]). apply List.Forall_nil.
Defined.

Lemma merge_pos_within_scraped_witness :
  exists t,
    Stage18.merge_sentences ascii_lower scraped18 parsed18 !! 0%nat = Some t /\
    ((Stage18.upostag t = lit "NOUN/ADJ" /\ Stage18.feats t = lit "Case=Nom|Case=Acc") \/
     In (Stage18.upostag t) [lit "NOUN"; lit "ADJ"]).
Proof.
  exact (merge_pos_within_scraped ascii_lower scraped18 parsed18 0%nat
           (tok18 "1" "Ab" "NOUN/ADJ" "Case=Nom|Case=Acc" "_" "_") eq_refl).
Defined.

(** ** Stage 03: sentences without the exclamation mark *)

Definition has_excl (tk : Stage03.Token) : bool := contains Stage03.EXCL (Stage03.form tk).

Lemma startswith_contains s p : startswith s p = true -> contains p s = true.
Proof. intros H. destruct s; cbn [contains]; rewrite H; reflexivity. Qed.

(** Stage 03, the changed flag.  The exclamation pass reports a change
    exactly when the form of some token contains the exclamation mark,
    and a sentence without the mark is returned token for token as it
    was. *)
Theorem exclamation_changed_iff_mark tokens :
  snd (Stage03.fix_exclamations tokens) = existsb has_excl tokens /\
  (existsb has_excl tokens = false -> fst (Stage03.fix_exclamations tokens) = tokens).
Proof.
  induction tokens as [|cur rest [IHflag IHsame]]; [split; reflexivity|].
  cbn [Stage03.fix_exclamations existsb]. cbv zeta. unfold has_excl at 1 3.
  destruct (contains Stage03.EXCL (Stage03.form cur)) eqn:Hcur.
  - split; [reflexivity|discriminate].
  - cbn [orb]. destruct rest as [|nxt rest']; [split; reflexivity|].
    destruct (startswith (Stage03.form nxt) Stage03.EXCL) eqn:Hnxt.
    + apply startswith_contains in Hnxt. cbn [existsb]. unfold has_excl at 1 3. rewrite Hnxt.
      split; [reflexivity|discriminate].
    + cbn [fst snd]. split; [exact IHflag|].
      intros H. rewrite (IHsame H). reflexivity.
Qed.

Lemma exclamation_changed_iff_mark_witness :
  Stage03.fix_exclamations [tok03 "1" "a" "2" "dep" None; tok03 "2" "b" "0" "root" None]
  = ([tok03 "1" "a" "2" "dep" None; tok03 "2" "b" "0" "root" None], false).
Proof.
  destruct (exclamation_changed_iff_mark
              [tok03 "1" "a" "2" "dep" None; tok03 "2" "b" "0" "root" None]) as [Hflag Hsame].
  rewrite (surjective_pairing (Stage03.fix_exclamations _)), Hflag, (Hsame eq_refl). reflexivity.
Defined.

(** ** Stage 42: a token line written and read again *)

Definition attr_name_ok (k : list N) : bool := truthy k && forallb Stage42.is_attr_char k.

Definition attr_value_ok (v : list N) : bool :=
  negb (has_char 34 v) && negb (has_char 61 v) && no_linebreak v.

Definition indent_ok (i : list N) : bool := forallb (fun c => (c =? 32) || (c =? 9)) i.

Definition attr_ok (kv : list N * list N) : Prop :=
  attr_name_ok (fst kv) = true /\ attr_value_ok (snd kv) = true.

(** A token as the stage writes it: an indentation of spaces and tabs,
    distinct attribute names made of word characters and hyphens, values
    without double quote, equals sign and line boundary, and the
    attributes in the recorded order. *)
Definition canonical42 (t : Stage42.TokenLine) : Prop :=
  indent_ok (Stage42.indent t) = true /\
  List.NoDup (List.map fst (Stage42.attrs t)) /\
  Forall attr_ok (Stage42.attrs t) /\
  Stage42.order t = List.map fst (Stage42.attrs t).

(** The text after [<token]: every attribute after one space, then the
    end of the tag and what follows it. *)
Definition tail_with (fin : list N) (kvs : Stage42.attrs_t) : list N :=
  List.concat (List.map (fun kv => 32 :: Stage42.render_attr kv) kvs) ++ 32 :: 47 :: 62 :: fin.

(** The line of a token, without the line feed that ends it. *)
Definition line_with (fin : list N) (t : Stage42.TokenLine) : list N :=
  Stage42.indent t ++ lit "<token" ++
  (match Stage42.attrs t with [] => [32] | _ => [] end) ++ tail_with fin (Stage42.attrs t).

Lemma join_space_tail (rs : list (list N)) :
  rs <> [] ->
  [32] ++ join [32] rs = List.concat (List.map (fun r => 32 :: r) rs).
Proof.
  induction rs as [|r rs IH]; intros Hne; [congruence|].
  destruct rs as [|r' rs].
  - cbn. rewrite app_nil_r. reflexivity.
  - change (join [32] (r :: r' :: rs)) with (r ++ [32] ++ join [32] (r' :: rs)).
    rewrite IH by discriminate. cbn [List.map List.concat app]. reflexivity.
Qed.

Lemma dict_get_nodup (a : Stage42.attrs_t) k v :
  List.NoDup (List.map fst a) -> In (k, v) a -> Stage42.dict_get k a = Some v.
Proof.
  induction a as [|[k' v'] a IH]; intros Hnd Hin; [destruct Hin|].
  cbn [List.map fst] in Hnd. apply List.NoDup_cons_iff in Hnd as [Hnotin Hnd].
  cbn [Stage42.dict_get]. destruct Hin as [[= -> ->]|Hin].
  - rewrite bool_decide_eq_true_2 by reflexivity. reflexivity.
  - rewrite bool_decide_eq_false_2; [exact (IH Hnd Hin)|].
    intros ->. apply Hnotin. apply (List.in_map fst _ _ Hin).
Qed.

Lemma emit_ordered_all (a : Stage42.attrs_t) :
  forall sub seen,
    (forall kv, In kv sub -> Stage42.dict_get (fst kv) a = Some (snd kv)) ->
    List.NoDup (List.map fst sub) ->
    (forall kv, In kv sub -> ~ In (fst kv) seen) ->
    Stage42.emit_ordered a (List.map fst sub) seen
    = (List.map Stage42.render_attr sub, rev (List.map fst sub) ++ seen).
Proof.
  induction sub as [|[k v] sub IH]; intros seen Hget Hnd Hseen; [reflexivity|].
  cbn [List.map fst] in Hnd |- *. apply List.NoDup_cons_iff in Hnd as [Hnotin Hnd].
  pose proof (Hget (k, v) (or_introl eq_refl)) as Hk. cbn [fst snd] in Hk.
  cbn [Stage42.emit_ordered]. rewrite Hk.
  rewrite bool_decide_eq_false_2.
  - rewrite IH.
    + cbn [List.map rev]. rewrite <- app_assoc. reflexivity.
    + intros kv Hin. apply Hget. right. exact Hin.
    + exact Hnd.
    + intros kv Hin [E|Hs].
      * apply Hnotin. rewrite E. apply (List.in_map fst _ _ Hin).
      * exact (Hseen kv (or_intror Hin) Hs).
  - intros Hin%list_elem_of_In. exact (Hseen (k, v) (or_introl eq_refl) Hin).
Qed.

Lemma serialize_canonical t :
  canonical42 t -> Stage42.serialize_token t = line_with [10] t.
Proof.
  intros (_ & Hnd & _ & Hord). unfold Stage42.serialize_token, line_with. rewrite Hord.
  rewrite (emit_ordered_all (Stage42.attrs t) (Stage42.attrs t) []).
  - unfold Stage42.emit_new. rewrite filter_none.
    + rewrite app_nil_r. f_equal. unfold tail_with.
      destruct (Stage42.attrs t) as [|kv kvs] eqn:Ha; [reflexivity|].
      assert (Hjoin := join_space_tail (List.map Stage42.render_attr (kv :: kvs))).
      rewrite List.map_map in Hjoin. cbn [app] in Hjoin |- *. rewrite <- Hjoin by discriminate.
      reflexivity.
    + apply List.Forall_forall. intros kv Hin. apply negb_false_iff, bool_decide_eq_true_2.
      apply list_elem_of_In. rewrite app_nil_r. apply List.in_rev. rewrite rev_involutive.
      apply (List.in_map fst _ _ Hin).
  - intros [k v] Hin. exact (dict_get_nodup _ k v Hnd Hin).
  - exact Hnd.
  - intros kv _ [].
Qed.

Lemma line_with_app fin t : line_with fin t = line_with [] t ++ fin.
Proof.
  unfold line_with, tail_with. rewrite <- !app_assoc. cbn [app]. reflexivity.
Qed.

Lemma startswith_nil s : startswith s [] = true.
Proof. destruct s; reflexivity. Qed.

Lemma span_attr_name name :
  forallb Stage42.is_attr_char name = true ->
  forall acc c rest, Stage42.is_attr_char c = false ->
    Stage42.span_attr acc (name ++ c :: rest) = (rev acc ++ name, c :: rest).
Proof.
  induction name as [|x name IH]; intros Hn acc c rest Hc.
  - cbn [app Stage42.span_attr]. rewrite Hc, app_nil_r. reflexivity.
  - cbn [forallb] in Hn. apply andb_prop in Hn as [Hx Hn].
    cbn [app Stage42.span_attr]. rewrite Hx, (IH Hn _ _ _ Hc). cbn [rev].
    rewrite <- app_assoc. reflexivity.
Qed.

Lemma take_value_ok v :
  has_char 34 v = false -> has_char 10 v = false ->
  forall acc rest, Stage42.take_value acc (v ++ 34 :: rest) = Some (rev acc ++ v, rest).
Proof.
  induction v as [|x v IH]; intros Hq Hn acc rest.
  - cbn [app Stage42.take_value]. rewrite N.eqb_refl, app_nil_r. reflexivity.
  - unfold has_char in Hq, Hn. cbn [existsb] in Hq, Hn.
    apply orb_false_elim in Hq as [Hq1 Hq]. apply orb_false_elim in Hn as [Hn1 Hn].
    cbn [app Stage42.take_value]. rewrite (N.eqb_sym x 34), Hq1, (N.eqb_sym x 10), Hn1.
    rewrite (IH Hq Hn). cbn [rev]. rewrite <- app_assoc. reflexivity.
Qed.

Lemma tail_with_cons fin k v kvs :
  tail_with fin ((k, v) :: kvs) = 32 :: k ++ 61 :: 34 :: v ++ 34 :: tail_with fin kvs.
Proof.
  unfold tail_with, Stage42.render_attr. cbn [List.map List.concat fst snd app].
  rewrite <- !app_assoc. cbn [app]. rewrite <- !app_assoc. reflexivity.
Qed.

Lemma attr_char_facts :
  Stage42.is_attr_char 32 = false /\ Stage42.is_attr_char 47 = false /\
  Stage42.is_attr_char 62 = false /\ Stage42.is_attr_char 10 = false /\
  Stage42.is_attr_char 61 = false /\ Stage42.is_attr_char 34 = false /\
  Stage42.is_attr_char 60 = false /\ Stage42.is_attr_char 9 = false.
Proof. vm_compute. repeat split; reflexivity. Qed.

(** Characters between which no attribute is found. *)
Definition plain_char (c : N) : bool :=
  negb (Stage42.is_attr_char c) && negb (c =? 61) && negb (c =? 60).

Lemma findall_attr_eq f c s :
  Stage42.findall_attr (S f) (c :: s) =
  if Stage42.is_attr_char c
  then let '(name, rest) := Stage42.span_attr [] (c :: s) in
       if startswith rest [61; 34]
       then match Stage42.take_value [] (List.skipn 2 rest) with
            | Some (v, rest') => (name, v) :: Stage42.findall_attr f rest'
            | None => Stage42.findall_attr f rest
            end
       else Stage42.findall_attr f rest
  else Stage42.findall_attr f s.
Proof. reflexivity. Qed.

Lemma findall_attr_nil f : Stage42.findall_attr f [] = [].
Proof. destruct f; reflexivity. Qed.

Lemma findall_attr_skip pre :
  forallb plain_char pre = true ->
  forall f s, Stage42.findall_attr (List.length pre + f) (pre ++ s) = Stage42.findall_attr f s.
Proof.
  induction pre as [|c pre IH]; intros H f s; [reflexivity|].
  cbn [forallb] in H. apply andb_prop in H as [Hc H]. unfold plain_char in Hc.
  apply andb_prop in Hc as [Hc _]. apply andb_prop in Hc as [Hc _]. apply negb_true_iff in Hc.
  cbn [List.length Nat.add app]. rewrite findall_attr_eq, Hc. exact (IH H f s).
Qed.

Lemma findall_attr_plain fin f :
  forallb plain_char fin = true -> (List.length fin <= f)%nat -> Stage42.findall_attr f fin = [].
Proof.
  intros H Hf. pose proof (findall_attr_skip fin H (f - List.length fin) []) as E.
  rewrite app_nil_r, findall_attr_nil in E.
  replace (List.length fin + (f - List.length fin))%nat with f in E by lia. exact E.
Qed.

Lemma value_no_nl v : attr_value_ok v = true -> has_char 10 v = false.
Proof.
  unfold attr_value_ok. intros H. apply andb_prop in H as [_ H].
  exact (no_linebreak_no_nl v H).
Qed.

Lemma findall_attr_tail fin kvs :
  forallb plain_char fin = true -> Forall attr_ok kvs ->
  forall f, (List.length (tail_with fin kvs) <= f)%nat ->
            Stage42.findall_attr f (tail_with fin kvs) = kvs.
Proof.
  destruct attr_char_facts as (H32 & H47 & H62 & H10 & H61 & _).
  intros Hfin. induction 1 as [|[k v] kvs [Hk Hv] _ IH]; intros f Hf.
  - change (tail_with fin []) with (32 :: 47 :: 62 :: fin) in *. cbn [List.length] in Hf.
    do 3 (destruct f as [|f]; [lia|]). rewrite !findall_attr_eq, H32, H47, H62.
    apply findall_attr_plain; [exact Hfin|lia].
  - rewrite tail_with_cons in *. cbn [fst snd] in Hk, Hv. pose proof (value_no_nl v Hv) as Hv2.
    unfold attr_name_ok in Hk. apply andb_prop in Hk as [Hk1 Hk2].
    unfold attr_value_ok in Hv. apply andb_prop in Hv as [Hv _].
    apply andb_prop in Hv as [Hv1 _]. apply negb_true_iff in Hv1.
    cbn [List.length] in Hf. rewrite !List.length_app in Hf. cbn [List.length] in Hf.
    rewrite !List.length_app in Hf. cbn [List.length] in Hf.
    destruct f as [|f]; [lia|]. rewrite findall_attr_eq, H32.
    destruct k as [|c k]; [discriminate Hk1|].
    destruct f as [|f]; [lia|]. cbn [app]. rewrite findall_attr_eq.
    pose proof Hk2 as Hc. cbn [forallb] in Hc. apply andb_prop in Hc as [Hc _]. rewrite Hc.
    change (c :: k ++ 61 :: 34 :: v ++ 34 :: tail_with fin kvs)
      with ((c :: k) ++ 61 :: 34 :: v ++ 34 :: tail_with fin kvs).
    rewrite (span_attr_name (c :: k) Hk2 [] 61 _ H61).
    cbn [rev app startswith List.skipn]. rewrite !N.eqb_refl. cbn [andb].
    rewrite startswith_nil, List.skipn_O.
    rewrite (take_value_ok v Hv1 Hv2 [] (tail_with fin kvs)). cbn [rev app].
    rewrite IH by (cbn [List.length] in Hf; lia). reflexivity.
Qed.

Lemma findall_order_other c run s :
  Stage42.is_attr_char c = false -> (c =? 61) = false ->
  Stage42.findall_order run (c :: s) = Stage42.findall_order [] s.
Proof. intros Ha He. cbn [Stage42.findall_order]. rewrite Ha, He. reflexivity. Qed.

Lemma findall_order_equals run s :
  truthy run = true ->
  Stage42.findall_order run (61 :: s) = rev run :: Stage42.findall_order [] s.
Proof.
  intros H. cbn [Stage42.findall_order].
  replace (Stage42.is_attr_char 61) with false by (vm_compute; reflexivity).
  rewrite N.eqb_refl, H. reflexivity.
Qed.

Lemma findall_order_name name :
  forallb Stage42.is_attr_char name = true ->
  forall run s, Stage42.findall_order run (name ++ s) = Stage42.findall_order (rev name ++ run) s.
Proof.
  induction name as [|x name IH]; intros Hn run s; [reflexivity|].
  cbn [forallb] in Hn. apply andb_prop in Hn as [Hx Hn].
  cbn [app Stage42.findall_order]. rewrite Hx, (IH Hn). cbn [rev].
  rewrite <- app_assoc. reflexivity.
Qed.

Lemma findall_order_value v :
  has_char 61 v = false ->
  forall run s, Stage42.findall_order run (v ++ 34 :: s) = Stage42.findall_order [] s.
Proof.
  destruct attr_char_facts as (_ & _ & _ & _ & _ & H34 & _).
  induction v as [|x v IH]; intros Hv run s.
  - cbn [app]. apply findall_order_other; [exact H34|reflexivity].
  - unfold has_char in Hv. cbn [existsb] in Hv. apply orb_false_elim in Hv as [Hx Hv].
    cbn [app Stage42.findall_order]. destruct (Stage42.is_attr_char x); [apply (IH Hv)|].
    rewrite (N.eqb_sym x 61), Hx. cbn [andb]. apply (IH Hv).
Qed.

Lemma findall_order_skip pre :
  forallb plain_char pre = true ->
  forall run s, Stage42.findall_order run (pre ++ s)
                = match pre with [] => Stage42.findall_order run s | _ => Stage42.findall_order [] s end.
Proof.
  induction pre as [|c pre IH]; intros H run s; [reflexivity|].
  cbn [forallb] in H. apply andb_prop in H as [Hc H]. unfold plain_char in Hc.
  apply andb_prop in Hc as [Hc _]. apply andb_prop in Hc as [Hc He].
  apply negb_true_iff in Hc, He.
  cbn [app]. rewrite (findall_order_other c run _ Hc He), (IH H). destruct pre; reflexivity.
Qed.

Lemma findall_order_tail fin kvs :
  forallb plain_char fin = true -> Forall attr_ok kvs ->
  Stage42.findall_order [] (tail_with fin kvs) = List.map fst kvs.
Proof.
  destruct attr_char_facts as (H32 & H47 & H62 & H10 & H61 & H34 & _).
  intros Hfin. induction 1 as [|[k v] kvs [Hk Hv] _ IH].
  - change (tail_with fin []) with (32 :: 47 :: 62 :: fin).
    rewrite !findall_order_other by (assumption || reflexivity).
    rewrite <- (app_nil_r fin), (findall_order_skip fin Hfin). destruct fin; reflexivity.
  - rewrite tail_with_cons. cbn [fst snd] in Hk, Hv.
    unfold attr_name_ok in Hk. apply andb_prop in Hk as [Hk1 Hk2].
    unfold attr_value_ok in Hv. apply andb_prop in Hv as [Hv _].
    apply andb_prop in Hv as [_ Hv3]. apply negb_true_iff in Hv3.
    rewrite findall_order_other by (assumption || reflexivity).
    rewrite (findall_order_name k Hk2), app_nil_r.
    rewrite findall_order_equals
      by (destruct k as [|c k]; [discriminate Hk1|]; cbn [rev]; destruct (rev k); reflexivity).
    rewrite rev_involutive.
    rewrite findall_order_other by (assumption || reflexivity).
    rewrite (findall_order_value v Hv3), IH. reflexivity.
Qed.

Lemma indent_chars i : indent_ok i = true -> forallb plain_char i = true.
Proof.
  apply forallb_impl. intros c Hc. apply orb_prop in Hc as [Hc|Hc]; apply N.eqb_eq in Hc; subst c;
    vm_compute; reflexivity.
Qed.

Lemma before_lt_indent pre s :
  forallb plain_char pre = true ->
  Stage42.before_lt (pre ++ 60 :: s) = pre /\ has_char 60 (pre ++ 60 :: s) = true.
Proof.
  induction pre as [|c pre IH]; intros H.
  - split; reflexivity.
  - cbn [forallb] in H. apply andb_prop in H as [Hc H]. unfold plain_char in Hc.
    apply andb_prop in Hc as [_ Hc].
    apply negb_true_iff in Hc. destruct (IH H) as [IH1 IH2].
    cbn [app Stage42.before_lt]. rewrite Hc, IH1. split; [reflexivity|].
    unfold has_char in *. cbn [existsb]. rewrite IH2. apply orb_true_r.
Qed.

Lemma dict_set_fresh k v (d : Stage42.attrs_t) :
  ~ In k (List.map fst d) -> Stage42.dict_set k v d = d ++ [(k, v)].
Proof.
  induction d as [|[k' v'] d IH]; intros H; [reflexivity|].
  cbn [List.map fst In] in H. cbn [Stage42.dict_set].
  rewrite bool_decide_eq_false_2 by (intros E; apply H; left; exact E).
  rewrite IH by (intros Hin; apply H; right; exact Hin). reflexivity.
Qed.

Lemma dict_of_nodup (kvs : Stage42.attrs_t) :
  forall acc, List.NoDup (List.map fst (acc ++ kvs)) ->
    fold_left (fun d kv => Stage42.dict_set (fst kv) (snd kv) d) kvs acc = acc ++ kvs.
Proof.
  induction kvs as [|[k v] kvs IH]; intros acc Hnd; [cbn; rewrite app_nil_r; reflexivity|].
  cbn [fold_left fst snd].
  assert (Hfresh : ~ In k (List.map fst acc)).
  { rewrite List.map_app in Hnd. cbn [List.map fst] in Hnd.
    apply List.NoDup_remove_2 in Hnd. intros Hin. apply Hnd, List.in_or_app. left. exact Hin. }
  rewrite (dict_set_fresh k v acc Hfresh). rewrite IH; rewrite <- app_assoc; [reflexivity|exact Hnd].
Qed.

(** Reading the line of a canonical token, whatever plain text follows
    the end of its tag. *)
Lemma parse_line_with fin t :
  forallb plain_char fin = true -> canonical42 t ->
  Stage42.parse_token_line (line_with fin t) = t.
Proof.
  intros Hfin (Hind & Hnd & Hok & Hord). unfold line_with.
  pose proof (indent_chars _ Hind) as Hpre.
  destruct attr_char_facts as (H32 & _ & _ & _ & H61 & _ & H60 & _).
  set (sp := match Stage42.attrs t with [] => [32] | _ :: _ => [] end).
  assert (Hsp : sp = [] \/ sp = [32]) by (unfold sp; destruct (Stage42.attrs t); auto).
  set (kvs := Stage42.attrs t) in *.
  assert (Htail : exists r, tail_with fin kvs = 32 :: r).
  { destruct kvs as [|[k v] r]; [eexists; reflexivity|]. rewrite tail_with_cons. eauto. }
  assert (Hrest : exists r, sp ++ tail_with fin kvs = 32 :: r).
  { destruct Hsp as [->| ->]; [exact Htail|eexists; reflexivity]. }
  unfold Stage42.parse_token_line.
  change (lit "<token" ++ sp ++ tail_with fin kvs)
    with (60 :: [116; 111; 107; 101; 110] ++ sp ++ tail_with fin kvs).
  destruct (before_lt_indent (Stage42.indent t)
              ([116; 111; 107; 101; 110] ++ sp ++ tail_with fin kvs) Hpre) as [Hb Hh].
  rewrite Hh, Hb.
  assert (Hattrs : Stage42.findall_attr
                     (List.length (Stage42.indent t ++ 60 :: [116; 111; 107; 101; 110]
                                     ++ sp ++ tail_with fin kvs))
                     (Stage42.indent t ++ 60 :: [116; 111; 107; 101; 110] ++ sp ++ tail_with fin kvs)
                   = kvs).
  { rewrite List.length_app, (findall_attr_skip _ Hpre).
    cbn [List.length app]. rewrite findall_attr_eq, H60, findall_attr_eq.
    replace (Stage42.is_attr_char 116) with true by (vm_compute; reflexivity).
    destruct Hrest as [r Hr]. rewrite Hr.
    change (116 :: 111 :: 107 :: 101 :: 110 :: 32 :: r) with ([116; 111; 107; 101; 110] ++ 32 :: r).
    rewrite (span_attr_name [116; 111; 107; 101; 110] (ltac:(vm_compute; reflexivity)) [] 32 r H32).
    cbn [rev app startswith]. change (61 =? 32) with false. cbn [andb].
    rewrite <- Hr. destruct Hsp as [E|E]; rewrite E; cbn [app List.length].
    - apply findall_attr_tail; [exact Hfin|exact Hok|lia].
    - rewrite findall_attr_eq, H32. apply findall_attr_tail; [exact Hfin|exact Hok|lia]. }
  assert (Horder : Stage42.findall_order []
                     (Stage42.indent t ++ 60 :: [116; 111; 107; 101; 110] ++ sp ++ tail_with fin kvs)
                   = List.map fst kvs).
  { rewrite (findall_order_skip _ Hpre).
    assert (Hgo : Stage42.findall_order [] (60 :: [116; 111; 107; 101; 110] ++ sp ++ tail_with fin kvs)
                  = List.map fst kvs).
    { rewrite findall_order_other by (assumption || reflexivity).
      rewrite (findall_order_name [116; 111; 107; 101; 110]) by (vm_compute; reflexivity).
      destruct Hsp as [E|E]; rewrite E; cbn [app].
      - destruct Htail as [r Hr]. rewrite Hr.
        rewrite findall_order_other by (assumption || reflexivity).
        rewrite <- (findall_order_other 32 [] r H32 eq_refl), <- Hr.
        apply findall_order_tail; [exact Hfin|exact Hok].
      - rewrite findall_order_other by (assumption || reflexivity).
        apply findall_order_tail; [exact Hfin|exact Hok]. }
    destruct (Stage42.indent t); exact Hgo. }
  rewrite Hattrs, Horder. unfold Stage42.dict_of.
  rewrite (dict_of_nodup kvs []) by exact Hnd. cbn [app].
  subst kvs. rewrite <- Hord. destruct t; reflexivity.
Qed.

(** Stage 42, token lines.  A token in the layout the stage writes is
    read back from its serialized line as the same token: indentation,
    attributes with their values, and attribute order. *)
Theorem parse_serialized_token t :
  canonical42 t -> Stage42.parse_token_line (Stage42.serialize_token t) = t.
Proof.
  intros Hc. rewrite (serialize_canonical t Hc). apply parse_line_with; [reflexivity|exact Hc].
Qed.

Lemma parse_serialized_token_witness :
  Stage42.parse_token_line
    (Stage42.serialize_token (token42 [kv "id" "7"; kv "form" "ab"; kv "head-id" "9"]))
  = token42 [kv "id" "7"; kv "form" "ab"; kv "head-id" "9"].
Proof.
  apply parse_serialized_token. split; [reflexivity|]. split.
  - vm_compute. repeat constructor; cbn; intuition discriminate.
  - split; [|reflexivity].
    repeat (apply List.Forall_cons; [split; vm_compute; reflexivity|]). apply List.Forall_nil.
Defined.

(** *** A sentence that is already numbered *)

Inductive item := ITok (t : Stage42.TokenLine) | IOther (l : list N).

Definition item_line (it : item) : list N :=
  match it with
  | ITok t => line_with [] t
  | IOther l => l
  end.

Fixpoint item_toks (items : list item) : list Stage42.TokenLine :=
  match items with
  | [] => []
  | ITok t :: rest => t :: item_toks rest
  | IOther _ :: rest => item_toks rest
  end.

(** The head of the token is one the rewriting leaves alone: a proper
    reference, or the default of a token without head. *)
Definition head_stable (t : Stage42.TokenLine) : Prop :=
  exists i h,
    Stage42.dict_get Stage42.ID (Stage42.attrs t) = Some i /\
    Stage42.dict_get Stage42.HEAD_ID (Stage42.attrs t) = Some h /\
    ((truthy h = true /\ h <> lit "_") \/
     h = if Stage42.is_hyphen_id i then lit "_" else lit "0").

Definition item_ok (it : item) : Prop :=
  match it with
  | ITok t => canonical42 t /\ head_stable t
  | IOther l => line_ok l /\ Stage42.is_token_line l = false
  end.

Lemma attr_char_no_linebreak c : Stage42.is_attr_char c = true -> is_linebreak c = false.
Proof.
  intros H. destruct (is_linebreak c) eqn:E; [|reflexivity]. exfalso.
  unfold is_linebreak, linebreaks in E. cbn [existsb] in E.
  repeat (apply orb_prop in E as [E|E];
          [apply N.eqb_eq in E; subst c; vm_compute in H; discriminate H|]).
  discriminate E.
Qed.

Lemma no_linebreak_split a b : no_linebreak (a ++ b) = no_linebreak a && no_linebreak b.
Proof. apply forallb_app. Qed.

Lemma no_linebreak_concat ls :
  Forall (fun l => no_linebreak l = true) ls -> no_linebreak (List.concat ls) = true.
Proof.
  induction 1 as [|l ls Hl _ IH]; [reflexivity|].
  cbn [List.concat]. rewrite no_linebreak_split, Hl, IH. reflexivity.
Qed.

Lemma tail_no_linebreak kvs :
  Forall attr_ok kvs -> no_linebreak (tail_with [] kvs) = true.
Proof.
  intros H. unfold tail_with. rewrite no_linebreak_split.
  replace (no_linebreak [32; 47; 62]) with true by (vm_compute; reflexivity).
  rewrite andb_true_r. apply no_linebreak_concat. apply List.Forall_map.
  revert H. apply List.Forall_impl. intros [k v] [Hk Hv]. cbn [fst snd] in Hk, Hv.
  unfold Stage42.render_attr. cbn [fst snd].
  change (32 :: k ++ [61; 34] ++ v ++ [34]) with ([32] ++ k ++ [61; 34] ++ v ++ [34]).
  rewrite !no_linebreak_split.
  unfold attr_name_ok in Hk. apply andb_prop in Hk as [_ Hk].
  unfold attr_value_ok in Hv. apply andb_prop in Hv as [_ Hv]. rewrite Hv.
  replace (no_linebreak k) with true; [vm_compute; reflexivity|].
  symmetry. revert Hk. unfold no_linebreak. apply forallb_impl. intros c Hc.
  rewrite (attr_char_no_linebreak c Hc). reflexivity.
Qed.

Lemma line_with_ok t : canonical42 t -> line_ok (line_with [] t).
Proof.
  intros (Hind & _ & Hok & _). unfold line_with. split.
  - rewrite !no_linebreak_split, (tail_no_linebreak _ Hok), andb_true_r.
    replace (no_linebreak (lit "<token")) with true by (vm_compute; reflexivity).
    replace (no_linebreak (match Stage42.attrs t with [] => [32] | _ :: _ => [] end)) with true
      by (destruct (Stage42.attrs t); reflexivity).
    rewrite !andb_true_r. revert Hind. unfold indent_ok, no_linebreak. apply forallb_impl.
    intros c Hc. apply orb_prop in Hc as [Hc|Hc]; apply N.eqb_eq in Hc; subst c; reflexivity.
  - unfold nonblank. rewrite !existsb_app. apply orb_true_iff. right.
    apply orb_true_iff. left. vm_compute. reflexivity.
Qed.

Lemma is_token_line_skip pre s :
  Stage42.is_token_line s = true -> Stage42.is_token_line (pre ++ s) = true.
Proof.
  intros H. induction pre as [|c pre IH]; [exact H|].
  cbn [app Stage42.is_token_line]. rewrite IH. apply orb_true_r.
Qed.

Lemma line_with_is_token t : Stage42.is_token_line (line_with [] t) = true.
Proof.
  unfold line_with. apply is_token_line_skip.
  assert (H : exists r, (match Stage42.attrs t with [] => [32] | _ :: _ => [] end)
                        ++ tail_with [] (Stage42.attrs t) = 32 :: r).
  { destruct (Stage42.attrs t) as [|[k v] kvs]; [eexists; reflexivity|].
    rewrite tail_with_cons. eexists. reflexivity. }
  destruct H as [r ->]. vm_compute. reflexivity.
Qed.

Lemma items_lines_ok items :
  Forall item_ok items -> Forall line_ok (List.map item_line items).
Proof.
  induction 1 as [|it items Hit _ IH]; [constructor|]. cbn [List.map]. constructor; [|exact IH].
  destruct it as [t|l]; cbn [item_line item_ok] in *; [apply line_with_ok; tauto|tauto].
Qed.

Lemma items_parse items :
  Forall item_ok items ->
  List.map Stage42.parse_token_line (List.filter Stage42.is_token_line (List.map item_line items))
  = item_toks items.
Proof.
  induction 1 as [|it items Hit _ IH]; [reflexivity|]. cbn [List.map List.filter].
  destruct it as [t|l]; cbn [item_line item_ok item_toks] in *.
  - rewrite line_with_is_token. cbn [List.map]. rewrite IH.
    rewrite (parse_line_with [] t eq_refl (proj1 Hit)). reflexivity.
  - destruct Hit as [_ ->]. exact IH.
Qed.

Lemma head_stable_map m t :
  identity_map m -> head_stable t -> fst (Stage42.rewrite_token m t) = t.
Proof.
  intros Hm (i & h & Hi & Hh & Hcase).
  apply (rewrite_token_noop m t i h Hm Hi Hh).
  destruct Hcase as [[Ht Hu]| ->].
  - unfold Stage42.map_head_id. rewrite Ht. cbn [negb orb].
    rewrite bool_decide_eq_false_2 by exact Hu.
    destruct (m !! h) as [v|] eqn:E; [exact (Hm _ _ E)|reflexivity].
  - destruct (Stage42.is_hyphen_id i); [reflexivity|].
    unfold Stage42.map_head_id.
    change (negb (truthy (lit "0")) || bool_decide (lit "0" = lit "_")) with false. cbv iota.
    destruct (m !! lit "0") as [v|] eqn:E; [exact (Hm _ _ E)|reflexivity].
Qed.

Lemma items_reassemble items :
  Forall item_ok items ->
  Stage42.reassemble (List.map item_line items)
    (List.map Stage42.serialize_token (item_toks items))
  = List.map (fun l => l ++ [10]) (List.map item_line items).
Proof.
  induction 1 as [|it items Hit _ IH]; [reflexivity|]. cbn [List.map Stage42.reassemble].
  destruct it as [t|l]; cbn [item_line item_ok item_toks] in *.
  - rewrite line_with_is_token. cbn [List.map]. rewrite IH.
    rewrite (serialize_canonical t (proj1 Hit)), (line_with_app [10] t). reflexivity.
  - destruct Hit as [[Hnl _] Hnot]. rewrite Hnot, IH.
    replace (startswith (rev l) [10]) with false; [reflexivity|].
    symmetry. destruct (rev l) as [|c r] eqn:E; [reflexivity|].
    cbn [startswith]. destruct (10 =? c) eqn:Ec; [|reflexivity]. exfalso.
    apply N.eqb_eq in Ec. subst c.
    assert (Hin : In 10 l) by (apply List.in_rev; rewrite E; left; reflexivity).
    unfold no_linebreak in Hnl. rewrite forallb_forall in Hnl.
    specialize (Hnl 10 Hin). discriminate Hnl.
Qed.

Lemma concat_terminated (lines : list (list N)) :
  lines <> [] -> List.concat (List.map (fun l => l ++ [10]) lines) = join [10] lines ++ [10].
Proof.
  induction lines as [|l lines IH]; intros Hne; [congruence|].
  destruct lines as [|l2 lines].
  - cbn. rewrite app_nil_r. reflexivity.
  - cbn [List.map List.concat]. cbn [List.map List.concat] in IH. rewrite IH by discriminate.
    change (join [10] (l :: l2 :: lines)) with (l ++ [10] ++ join [10] (l2 :: lines)).
    rewrite <- !app_assoc. reflexivity.
Qed.

Lemma rstrip_terminated (lines : list (list N)) :
  lines <> [] -> Forall line_ok lines ->
  rstrip_chars [10] (join [10] lines ++ [10]) = join [10] lines.
Proof.
  intros Hne Hok. destruct (exists_last Hne) as (front & l & ->).
  apply List.Forall_app in Hok as [_ Hok]. apply Forall_cons_iff in Hok as [[Hnl Hnb] _].
  destruct (join_last [10] front l) as [pre ->].
  unfold rstrip_chars, rstrip_by. rewrite !rev_app_distr. cbn [rev app lstrip_by has_char existsb].
  rewrite N.eqb_refl. cbn [orb].
  destruct (rev l) as [|c r] eqn:E.
  - apply nonblank_nonempty in Hnb. destruct l; [congruence|].
    apply (f_equal (@List.length N)) in E. rewrite List.length_rev in E. discriminate E.
  - cbn [app lstrip_by]. destruct (10 =? c) eqn:Ec.
    + exfalso. apply N.eqb_eq in Ec. subst c.
      assert (Hin : In 10 l) by (apply List.in_rev; rewrite E; left; reflexivity).
      unfold no_linebreak in Hnl. rewrite forallb_forall in Hnl.
      specialize (Hnl 10 Hin). discriminate Hnl.
    + rewrite N.eqb_sym, Ec. cbn [orb].
      change (c :: r ++ rev pre) with ((c :: r) ++ rev pre).
      rewrite <- E, <- rev_app_distr. apply rev_involutive.
Qed.

(** Stage 42, a sentence that is already numbered.  A sentence whose
    token lines are in the layout the stage writes, whose atomic ids are
    1, 2, ..., N in order and whose heads are proper references or the
    default, and whose other lines are non-blank lines without [<token],
    is returned character for character as it was. *)
Theorem numbered_sentence_unchanged items :
  Forall item_ok items ->
  normalized42 (item_toks items) ->
  fst (Stage42.process_sentence (join [10] (List.map item_line items)))
  = join [10] (List.map item_line items).
Proof.
  intros Hok Hnorm. unfold Stage42.process_sentence.
  pose proof (items_lines_ok items Hok) as Hlines.
  assert (Hsl : splitlines (join [10] (List.map item_line items)) = List.map item_line items)
    by exact (proj1 (splitlines_join _ Hlines)).
  cbv zeta. rewrite Hsl, (items_parse items Hok).
  destruct (item_toks items) as [|t0 toks0] eqn:Htoks; [reflexivity|]. rewrite <- Htoks in *.
  assert (Hren : Stage42.renumber (item_toks items)
                 = (fst (Stage42.renumber (item_toks items)), snd (Stage42.renumber (item_toks items))))
    by apply surjective_pairing.
  rewrite Hren. cbn [fst].
  assert (Hsame : fst (Stage42.renumber (item_toks items)) = item_toks items).
  { rewrite renumber_fst. pose proof (build_identity _ Hnorm) as Hm.
    transitivity (List.map (fun t => t) (item_toks items)); [|apply List.map_id].
    apply List.map_ext_in.
    intros t Hin. apply (head_stable_map _ t Hm).
    clear -Hok Hin. induction Hok as [|it items Hit _ IH]; [destruct Hin|].
    destruct it as [t'|l]; cbn [item_toks] in Hin; [|exact (IH Hin)].
    destruct Hin as [<-|Hin]; [exact (proj2 Hit)|exact (IH Hin)]. }
  rewrite Hsame, (items_reassemble items Hok).
  assert (Hne : List.map item_line items <> []).
  { destruct items; [discriminate Htoks|discriminate]. }
  rewrite (concat_terminated _ Hne). apply rstrip_terminated; assumption.
Qed.

Definition numbered_items : list item :=
  [IOther (lit "<sentence>");
   ITok (token42 [kv "id" "1"; kv "form" "a"; kv "head-id" "2"]);
   ITok (token42 [kv "id" "2"; kv "form" "b"; kv "head-id" "0"])].

Lemma numbered_sentence_unchanged_witness :
  fst (Stage42.process_sentence (join [10] (List.map item_line numbered_items)))
  = join [10] (List.map item_line numbered_items).
Proof.
  apply numbered_sentence_unchanged.
  - assert (Hcan : forall kvs,
              List.NoDup (List.map fst kvs) -> Forall attr_ok kvs -> canonical42 (token42 kvs)).
    { intros kvs Hnd Hok. split; [reflexivity|]. split; [exact Hnd|]. split; [exact Hok|reflexivity]. }
    repeat apply List.Forall_cons; [| | |apply List.Forall_nil].
    + split; [split; vm_compute; reflexivity|vm_compute; reflexivity].
    + split.
      * apply Hcan; [vm_compute; repeat constructor; cbn; intuition discriminate|].
        repeat (apply List.Forall_cons; [split; vm_compute; reflexivity|]). apply List.Forall_nil.
      * exists (lit "1"), (lit "2"). split; [reflexivity|]. split; [reflexivity|].
        left. split; [reflexivity|discriminate].
    + split.
      * apply Hcan; [vm_compute; repeat constructor; cbn; intuition discriminate|].
        repeat (apply List.Forall_cons; [split; vm_compute; reflexivity|]). apply List.Forall_nil.
      * exists (lit "2"), (lit "0"). split; [reflexivity|]. split; [reflexivity|].
        left. split; [reflexivity|discriminate].
  - split; [repeat constructor|vm_compute; reflexivity].
Defined.

(** ** Stage 40: the head of a demoted root *)

















(** ** Stage 40: the sentence after the collapse *)






(** ** Stage 40: replacing the value of an attribute by a number *)

Lemma digit_template_rejected d vrest :
  Re.is_asciidigit d = true ->
  Re.is_octdigit d && match vrest with d2 :: _ => Re.is_octdigit d2 | [] => false end = false ->
  Re.compile_template 2 ([Re.BACKSLASH; 49] ++ (d :: vrest) ++ [Re.BACKSLASH; 50]) = None.
Proof.
  intros Hd Hoct. unfold Re.compile_template. cbn [app List.length Re.parse_template].
  change (negb (Re.BACKSLASH =? Re.BACKSLASH)) with false. cbv iota.
  change (49 =? 103) with false. change (49 =? 48) with false. cbv iota.
  change (Re.is_asciidigit 49) with true. cbv iota. rewrite Hd.
  assert (Hgroup : forall rest, Re.group_ref 2 (10 * (49 - 48) + (d - 48)) rest = None).
  { intros rest. unfold Re.group_ref.
    replace (N.to_nat (10 * (49 - 48) + (d - 48)) <=? 2)%nat with false; [reflexivity|].
    symmetry. apply Nat.leb_gt. lia. }
  destruct vrest as [|d2 v3]; cbn [app].
  - change (Re.is_octdigit Re.BACKSLASH) with false. rewrite !andb_false_r. apply Hgroup.
  - change (Re.is_octdigit 49) with true. cbn [andb]. rewrite Hoct. apply Hgroup.
Qed.

(** Stage 40, digits after a group reference.  On a line that already
    has the attribute, [set_attr] with a value that starts with a decimal
    digit raises the error of an invalid group reference, unless the
    first two characters of the value are octal digits: the replacement
    template puts the value right after the reference to group 1. *)
Theorem set_existing_attr_digit_raises line name d vrest :
  Stage40.has_attr line name = true ->
  Re.is_asciidigit d = true ->
  Re.is_octdigit d && match vrest with d2 :: _ => Re.is_octdigit d2 | [] => false end = false ->
  Stage40.set_attr line name (d :: vrest) = None.
Proof.
  intros Hhas Hd Hoct. unfold Stage40.set_attr, Re.set_attr.
  unfold Stage40.has_attr in Hhas. rewrite Hhas.
  rewrite (digit_template_rejected d vrest Hd Hoct). reflexivity.
Qed.

Lemma set_existing_attr_digit_raises_witness :
  Stage40.set_attr (line40 [quoted "id" "3"; quoted "head-id" "2"; quoted "relation" "root"])
    Stage40.HEAD_ID (lit "5") = None.
Proof.
  apply (set_existing_attr_digit_raises _ Stage40.HEAD_ID 53 []); vm_compute; reflexivity.
Defined.

(** Stage 40, a second root that already has a head.  When the second
    collected root line already carries a head-id attribute and the id of
    the first root starts with a decimal digit (not followed by a second
    octal digit after an octal one), the stage raises: no sentence is
    returned. *)
Theorem collapse_raises_on_headed_root lines fi d vrest i id rest tok :
  Stage40.collect_roots 0 lines = (fi, d :: vrest) :: (i, id) :: rest ->
  lines !! i = Some tok ->
  Stage40.has_attr tok Stage40.HEAD_ID = true ->
  Re.is_asciidigit d = true ->
  Re.is_octdigit d && match vrest with d2 :: _ => Re.is_octdigit d2 | [] => false end = false ->
  Stage40.process_lines lines = None.
Proof.
  intros Hroots Htok Hhas Hd Hoct. rewrite process_lines_demote, Hroots.
  cbn [Stage40.demote truthy negb]. rewrite Htok.
  unfold Stage40.set_attr, Re.set_attr. unfold Stage40.has_attr in Hhas. rewrite Hhas.
  rewrite (digit_template_rejected d vrest Hd Hoct). reflexivity.
Qed.

Lemma collapse_raises_on_headed_root_witness :
  Stage40.process_lines
    [line40 [quoted "id" "1"; quoted "relation" "root"];
     line40 [quoted "id" "2"; quoted "head-id" "7"; quoted "relation" "root"]] = None.
Proof.
  apply (collapse_raises_on_headed_root _ 0%nat 49 [] 1%nat (lit "2") []
           (line40 [quoted "id" "2"; quoted "head-id" "7"; quoted "relation" "root"]));
    vm_compute; reflexivity.
Defined.

(** ** Stage 07: a sentence that is already numbered *)

Definition canonical_head (tk : Stage07.Tok) : Prop :=
  isdigit (Stage07.head tk) = false \/
  exists z, (0 <= z)%Z /\ Stage07.head tk = str_of_Z z.

(** Every key of the map is sent to its own decimal spelling. *)
Definition decimal_map (m : gmap Z (list N)) : Prop :=
  forall z s, m !! z = Some s -> s = str_of_Z z.

Lemma with_id_same07 tk : Stage07.with_id (Stage07.id tk) tk = tk.
Proof. destruct tk; reflexivity. Qed.

Lemma with_head_same07 tk : Stage07.with_head (Stage07.head tk) tk = tk.
Proof. destruct tk; reflexivity. Qed.

Lemma renumber_loop_numbered tokens :
  forall next m,
    (0 <= next)%Z ->
    List.map Stage07.id tokens
    = List.map decimal (seq (Z.to_nat next) (List.length tokens)) ->
    decimal_map m ->
    exists m', Stage07.renumber_loop tokens next 0 0%Z 0%Z m = Some (tokens, m') /\ decimal_map m'.
Proof.
  induction tokens as [|tk rest IH]; intros next m Hn Hids Hm; [exists m; auto|].
  cbn [List.map List.length seq] in Hids. injection Hids as Hid Hrest.
  unfold decimal in Hid. rewrite Z2Nat.id in Hid by exact Hn.
  cbn [Stage07.renumber_loop]. cbv zeta. rewrite Hid.
  replace (contains Stage07.HYPHEN (str_of_Z next)) with false
    by (symmetry; apply (digits_no_hyphen _ (str_of_Z_nonneg_digits next Hn))).
  rewrite (isdigit_str_of_Z next Hn), int_str_of_Z.
  destruct (IH (next + 1)%Z (<[next := str_of_Z next]> m)) as (m' & Hloop & Hm').
  - lia.
  - rewrite Hrest. replace (Z.to_nat (next + 1)) with (S (Z.to_nat next)) by lia. reflexivity.
  - intros z s Hz. destruct (decide (next = z)) as [<-|Hne].
    + rewrite lookup_insert_eq in Hz. injection Hz as <-. reflexivity.
    + rewrite lookup_insert_ne in Hz by exact Hne. exact (Hm z s Hz).
  - rewrite Hloop. exists m'. split; [|exact Hm'].
    rewrite <- Hid, with_id_same07. reflexivity.
Qed.

Lemma remap_heads_canonical m l :
  decimal_map m ->
  Forall canonical_head l -> Stage07.remap_heads m l = Some l.
Proof.
  intros Hm. induction 1 as [|tk rest Hh _ IH]; [reflexivity|].
  cbn [Stage07.remap_heads]. rewrite IH.
  assert (Hone : Stage07.remap_head m tk = Some tk).
  { unfold Stage07.remap_head. destruct (contains _ _); [reflexivity|].
    destruct Hh as [Hnd|(z & Hz & Hhead)]; [rewrite Hnd; reflexivity|].
    rewrite Hhead, (isdigit_str_of_Z z Hz), int_str_of_Z.
    destruct (m !! z) as [mapped|] eqn:E; [|reflexivity].
    rewrite (Hm z mapped E). destruct (truthy (str_of_Z z)); [|reflexivity].
    rewrite <- Hhead, with_head_same07. reflexivity. }
  rewrite Hone. reflexivity.
Qed.

(** Stage 07, a sentence that is already numbered.  A sentence without
    span lines whose ids are 1, 2, ..., N in order and whose heads are
    either not numbers or plain decimal numbers is returned by the
    renumbering exactly as it was. *)
Theorem renumber_numbered_fixed tokens :
  List.map Stage07.id tokens = List.map decimal (seq 1 (List.length tokens)) ->
  Forall canonical_head tokens ->
  Stage07.renumber_tokens tokens = Some tokens.
Proof.
  intros Hids Hheads. unfold Stage07.renumber_tokens.
  destruct (renumber_loop_numbered tokens 1%Z ∅) as (m' & -> & Hm').
  - lia.
  - exact Hids.
  - intros z s Hz. rewrite lookup_empty in Hz. discriminate Hz.
  - apply remap_heads_canonical; assumption.
Qed.

Lemma renumber_numbered_fixed_witness :
  Stage07.renumber_tokens [tok07f "1" "a" "2"; tok07f "2" "b" "0"; tok07f "3" "c" "_"]
  = Some [tok07f "1" "a" "2"; tok07f "2" "b" "0"; tok07f "3" "c" "_"].
Proof.
  apply renumber_numbered_fixed; [reflexivity|].
  repeat apply List.Forall_cons; [| | |apply List.Forall_nil].
  - right. exists 2%Z. split; [lia|reflexivity].
  - right. exists 0%Z. split; [lia|reflexivity].
  - left. reflexivity.
Defined.
